(** * Zentel ticket pipeline: a shallow embedding of [pipeline/etl.py]

    The four operations of the pipeline ([clean_tickets], [enrich_tickets],
    [compute_sla_metrics], [manager_operator_performance]) and the table
    loader ([load_tables]) are embedded over a small model of the pandas
    tables they work on.

    Conventions of the model.
    - A cell is missing ([NaN], which stands for NaN, NaT and None alike:
      [pd.isna] is true of the three), a string, a timestamp in nanoseconds,
      a number or a boolean.  Floats are modelled by the rationals they
      denote; the not-a-number float is the cell [NaN].
    - A table is column-major, as pandas stores it: a list of labelled
      columns and the length of the index.  A label names the first column
      that carries it; the tables of the pipeline have distinct labels.
      Column dtypes are not modelled: every column is an object column.
    - Strings are byte strings; [strip] and [lower] act on ASCII.
    - A Python exception is a [Raise] result. *)

From Stdlib Require Import String Ascii List ZArith QArith Qround Bool Lia Lqa.
Import ListNotations.

Local Open Scope string_scope.
Local Open Scope list_scope.

(** ** Python strings *)

Module Py.

(** The ASCII characters [str.strip] removes. *)
Definition is_space (c : ascii) : bool :=
  let n := nat_of_ascii c in
  ((9 <=? n) && (n <=? 13) || (28 <=? n) && (n <=? 32))%nat.

Fixpoint lstrip (s : string) : string :=
  match s with
  | EmptyString => EmptyString
  | String c s' => if is_space c then lstrip s' else s
  end.

Fixpoint rstrip (s : string) : string :=
  match s with
  | EmptyString => EmptyString
  | String c s' =>
      match rstrip s' with
      | EmptyString => if is_space c then EmptyString else String c EmptyString
      | t => String c t
      end
  end.

(** [s.strip()] *)
Definition strip (s : string) : string := rstrip (lstrip s).

Definition lower_char (c : ascii) : ascii :=
  let n := nat_of_ascii c in
  if ((65 <=? n) && (n <=? 90))%nat then ascii_of_nat (n + 32) else c.

(** [s.lower()], on ASCII letters. *)
Fixpoint lower (s : string) : string :=
  match s with
  | EmptyString => EmptyString
  | String c s' => String (lower_char c) (lower s')
  end.

(** [s.replace(a, b)] for one-character [a] and [b]. *)
Fixpoint replace (a b : ascii) (s : string) : string :=
  match s with
  | EmptyString => EmptyString
  | String c s' => String (if Ascii.eqb c a then b else c) (replace a b s')
  end.

(** [s.split(sep)] for a one-character separator: never the empty list. *)
Fixpoint split (sep : ascii) (s : string) : list string :=
  match s with
  | EmptyString => [EmptyString]
  | String c s' =>
      if Ascii.eqb c sep then EmptyString :: split sep s'
      else match split sep s' with
           | h :: t => String c h :: t
           | [] => [String c EmptyString]
           end
  end.

(** [x in xs] for strings. *)
Definition mem (x : string) (xs : list string) : bool :=
  existsb (String.eqb x) xs.

End Py.

(** ** Exceptions *)

Inductive exn : Type :=
| KeyError
| AttributeError
| TypeError
| ValueError.

Inductive result (A : Type) : Type :=
| Ok (a : A)
| Raise (e : exn).

Arguments Ok {A} a.
Arguments Raise {A} e.

Definition bind {A B : Type} (m : result A) (k : A -> result B) : result B :=
  match m with
  | Ok a => k a
  | Raise e => Raise e
  end.

Notation "x <- m ;; k" := (bind m (fun x => k))
  (at level 61, m at next level, right associativity).

Fixpoint mapM {A B : Type} (f : A -> result B) (l : list A) : result (list B) :=
  match l with
  | [] => Ok []
  | a :: l' => b <- f a ;; bs <- mapM f l' ;; Ok (b :: bs)
  end.

(** ** Tables *)

Inductive cell : Type :=
| NaN
| Str (s : string)
| Ts (ns : Z)
| Num (q : Q)
| Bool (b : bool).

(** [pd.isna] / [pd.notna] *)
Definition isna (c : cell) : bool :=
  match c with NaN => true | _ => false end.

Definition notna (c : cell) : bool := negb (isna c).

Module Pd.

Record DataFrame : Type := mkDF {
  columns : list (string * list cell);
  nrows : nat
}.

(** [pd.DataFrame()] *)
Definition empty_frame : DataFrame := mkDF [] 0.

(** [df.empty]: no column or no row. *)
Definition empty (df : DataFrame) : bool :=
  match columns df with
  | [] => true
  | _ => (nrows df =? 0)%nat
  end.

(** [df is None or df.empty] *)
Definition none_or_empty (df : option DataFrame) : bool :=
  match df with
  | None => true
  | Some d => empty d
  end.

Definition labels (df : DataFrame) : list string := map fst (columns df).

(** [c in df.columns] *)
Definition has_column (df : DataFrame) (c : string) : bool :=
  Py.mem c (labels df).

Fixpoint lookup (c : string) (cols : list (string * list cell)) : option (list cell) :=
  match cols with
  | [] => None
  | (c', v) :: rest => if String.eqb c c' then Some v else lookup c rest
  end.

(** [df.get(c)]: the column, or nothing. *)
Definition get (df : DataFrame) (c : string) : option (list cell) :=
  lookup c (columns df).

(** [df[c]] *)
Definition getitem (df : DataFrame) (c : string) : result (list cell) :=
  match get df c with
  | Some v => Ok v
  | None => Raise KeyError
  end.

Fixpoint assign (c : string) (v : list cell) (cols : list (string * list cell))
  : list (string * list cell) :=
  match cols with
  | [] => [(c, v)]
  | (c', v') :: rest =>
      if String.eqb c c' then (c', v) :: rest else (c', v') :: assign c v rest
  end.

(** [df[c] = v]: the column is replaced in place, or added as the last one. *)
Definition setitem (df : DataFrame) (c : string) (v : list cell) : DataFrame :=
  mkDF (assign c v (columns df)) (nrows df).

(** [df[c] = x] for a scalar [x] *)
Definition setitem_scalar (df : DataFrame) (c : string) (x : cell) : DataFrame :=
  setitem df c (repeat x (nrows df)).

(** [df.rename(columns=f)] *)
Definition rename (f : string -> string) (df : DataFrame) : DataFrame :=
  mkDF (map (fun cv => (f (fst cv), snd cv)) (columns df)) (nrows df).

(** A row of the table, as [apply(..., axis=1)] and [iterrows] hand it to
    the caller; [r c] is [r.get(c)]. *)
Definition row : Type := string -> option cell.

Definition row_at (df : DataFrame) (i : nat) : row :=
  fun c => match get df c with
           | Some v => Some (nth i v NaN)
           | None => None
           end.

(** [r.get(c, default)] *)
Definition row_get (r : row) (c : string) (default : cell) : cell :=
  match r c with
  | Some x => x
  | None => default
  end.

(** [r[c]] *)
Definition row_item (r : row) (c : string) : result cell :=
  match r c with
  | Some x => Ok x
  | None => Raise KeyError
  end.

(** The cell of row [i] in column [c], missing when there is no such column. *)
Definition cell_at (df : DataFrame) (i : nat) (c : string) : cell :=
  row_get (row_at df i) c NaN.

(** Every column is as long as the index. *)
Definition well_formed (df : DataFrame) : Prop :=
  Forall (fun cv => length (snd cv) = nrows df) (columns df).

(** A cell as the table loader reads it: text, or missing. *)
Definition is_text (c : cell) : bool :=
  match c with
  | NaN | Str _ => true
  | _ => false
  end.

(** Every cell is text or missing: a table read with [dtype=str]. *)
Definition string_typed (df : DataFrame) : Prop :=
  Forall (fun cv => forallb is_text (snd cv) = true) (columns df).

(** [df.apply(f, axis=1)] *)
Definition apply_rows (df : DataFrame) (f : row -> result cell) : result (list cell) :=
  mapM (fun i => f (row_at df i)) (seq 0 (nrows df)).

(** [s.apply(f)] on a column *)
Definition apply (f : cell -> cell) (s : list cell) : list cell := map f s.

(** [s.fillna(x)] *)
Definition fillna (x : cell) (s : list cell) : list cell :=
  map (fun c => if isna c then x else c) s.

(** [s.replace("", np.nan)] *)
Definition replace_empty_with_nan (s : list cell) : list cell :=
  map (fun c => match c with
                | Str EmptyString => NaN
                | _ => c
                end) s.

(** [s.str.f()]: [f] on the strings of the column, missing elsewhere. *)
Definition str_map (f : string -> string) (s : list cell) : list cell :=
  map (fun c => match c with Str x => Str (f x) | _ => NaN end) s.

(** [s.str.split(sep, expand=True).iloc[:, -1]]: the expanded frame is as
    wide as the longest split, shorter rows are padded with missing cells,
    and the last column is taken. *)
Definition split_expand_last (sep : ascii) (s : list cell) : list cell :=
  let parts := map (fun c => match c with
                             | Str x => Py.split sep x
                             | _ => []
                             end) s in
  let width := fold_right Nat.max 0%nat (map (@length string) parts) in
  map (fun p => if ((length p =? width)%nat && negb (width =? 0)%nat)
                then Str (last p EmptyString) else NaN) parts.

End Pd.

(** ** Joins and groups *)

Module Join.

Import Pd.

(** Equality of join and group keys.  Missing keys are equal to each other:
    [merge] matches them, and [groupby] never sees them. *)
Definition cell_eqb (a b : cell) : bool :=
  match a, b with
  | NaN, NaN => true
  | Str x, Str y => String.eqb x y
  | Ts x, Ts y => Z.eqb x y
  | Num x, Num y => Qeq_bool x y
  | Bool x, Bool y => Bool.eqb x y
  | _, _ => false
  end.

(** The left key of a merge: a column label, or an array of key values. *)
Inductive key : Type :=
| Label (c : string)
| Values (v : list cell).

(** The positions of the right rows whose key is [k]. *)
Definition matches (k : cell) (rkeys : list cell) : list nat :=
  filter (fun j => cell_eqb k (nth j rkeys NaN)) (seq 0 (length rkeys)).

(** The row pairs of a left join: every left row, in order, once per match
    on the right, and once with no partner when nothing matches. *)
Definition left_indexer (lkeys rkeys : list cell) : list (nat * option nat) :=
  flat_map (fun i =>
              match matches (nth i lkeys NaN) rkeys with
              | [] => [(i, None)]
              | js => map (fun j => (i, Some j)) js
              end) (seq 0 (length lkeys)).

Definition take_left (idx : list (nat * option nat)) (v : list cell) : list cell :=
  map (fun p => nth (fst p) v NaN) idx.

Definition take_right (idx : list (nat * option nat)) (v : list cell) : list cell :=
  map (fun p => match snd p with
                | Some j => nth j v NaN
                | None => NaN
                end) idx.

(** The labels both sides have, which [merge] renames with the suffixes. *)
Definition overlap (lcols rcols : list (string * list cell)) : list string :=
  filter (fun c => Py.mem c (map fst rcols)) (map fst lcols).

Definition suffixed (to_rename : list string) (suffix c : string) : string :=
  if Py.mem c to_rename then c ++ suffix else c.

(** [left.merge(right, left_on=.., right_on=.., how="left", suffixes=..)].
    A right key column with the label of the left key is dropped; an array
    key is added to the result as its first column, [key_0]. *)
Definition merge (left right : DataFrame) (left_on : key) (right_on : string)
    (suffixes : string * string) : result DataFrame :=
  lkeys <- match left_on with
           | Label c => getitem left c
           | Values v => Ok v
           end ;;
  rkeys <- getitem right right_on ;;
  let rcols := match left_on with
               | Label c =>
                   if String.eqb c right_on
                   then filter (fun cv => negb (String.eqb (fst cv) right_on))
                          (columns right)
                   else columns right
               | Values _ => columns right
               end in
  let to_rename := overlap (columns left) rcols in
  match to_rename, suffixes with
  | _ :: _, (EmptyString, EmptyString) => Raise ValueError
  | _, (lsuffix, rsuffix) =>
      let idx := left_indexer lkeys rkeys in
      let key_col := match left_on with
                     | Label _ => []
                     | Values v => [("key_0", take_left idx v)]
                     end in
      let lres := map (fun cv => (suffixed to_rename lsuffix (fst cv),
                                  take_left idx (snd cv))) (columns left) in
      let rres := map (fun cv => (suffixed to_rename rsuffix (fst cv),
                                  take_right idx (snd cv))) rcols in
      Ok (mkDF (key_col ++ lres ++ rres) (length idx))
  end.

(** The suffixes [merge] uses when the call gives none. *)
Definition default_suffixes : string * string := ("_x", "_y").

(** The keys of [groupby]: the distinct non-missing values of the column.
    pandas sorts them; the order is of no concern to the dict built from the
    groups and is left as the order of first occurrence. *)
Fixpoint group_keys (s : list cell) : list cell :=
  match s with
  | [] => []
  | c :: rest =>
      let ks := filter (fun k => negb (cell_eqb k c)) (group_keys rest) in
      if isna c then ks else c :: ks
  end.

(** The positions of the rows of group [k]. *)
Definition group_indices (s : list cell) (k : cell) : list nat :=
  filter (fun i => notna (nth i s NaN) && cell_eqb (nth i s NaN) k)
    (seq 0 (length s)).

Definition take (idx : list nat) (v : list cell) : list cell :=
  map (fun i => nth i v NaN) idx.

(** The non-missing values of a numeric column; a boolean counts as 0 or 1,
    and text or a timestamp cannot be averaged or summed to a number. *)
Fixpoint numbers (s : list cell) : result (list Q) :=
  match s with
  | [] => Ok []
  | NaN :: rest => numbers rest
  | Num q :: rest => qs <- numbers rest ;; Ok (q :: qs)
  | Bool b :: rest => qs <- numbers rest ;; Ok ((if b then 1 else 0)%Q :: qs)
  | _ :: _ => Raise TypeError
  end.

Definition Qsum (qs : list Q) : Q := fold_right Qplus 0%Q qs.

(** The aggregation ["mean"]: the mean of the non-missing values, missing
    when there is none. *)
Definition mean (s : list cell) : result cell :=
  qs <- numbers s ;;
  Ok (match qs with
      | [] => NaN
      | _ => Num (Qsum qs / inject_Z (Z.of_nat (length qs)))
      end).

(** The aggregation ["count"]: how many values are not missing. *)
Definition count (s : list cell) : Z :=
  Z.of_nat (length (filter notna s)).

End Join.

(** ** The pipeline *)

Import Pd Join.

(** [Timedelta.total_seconds()] of a difference of [ns] nanoseconds. *)
Definition total_seconds (ns : Z) : Q := ns # 1000000000.

(** [a < b] on floats that are not NaN *)
Definition Qlt_bool (a b : Q) : bool := negb (Qle_bool b a).

(** Rounding to the nearest integer, ties to the even one. *)
Definition round_half_even (q : Q) : Z :=
  let f := Qfloor q in
  match Qcompare (q - inject_Z f) (1 # 2) with
  | Lt => f
  | Gt => (f + 1)%Z
  | Eq => if Z.even f then f else (f + 1)%Z
  end.

(** [round(x, ndigits)] on a float *)
Definition round (x : cell) (ndigits : nat) : cell :=
  match x with
  | Num q =>
      let scale := Z.to_pos (10 ^ Z.of_nat ndigits) in
      Num (round_half_even (q * inject_Z (Zpos scale)) # scale)
  | _ => x
  end.

(** [x or 0.0]: zero is the only float that is false; NaN is true. *)
Definition or_zero (x : cell) : cell :=
  match x with
  | Num q => if Qeq_bool q 0 then Num 0 else x
  | _ => x
  end.

(** The KPIs of one operator and of one manager. *)
Record operator_kpi : Type := mkOperatorKpi {
  op_total_tickets : Z;
  op_avg_response_seconds : cell;
  op_avg_resolution_minutes : cell;
  op_sla_pass_rate : cell
}.

Record manager_kpi : Type := mkManagerKpi {
  mgr_total_tickets : Z;
  mgr_avg_response_seconds : cell;
  mgr_avg_resolution_minutes : cell
}.

(** The nested dict [{"operators": {...}, "managers": {...}}]. *)
Record performance : Type := mkPerformance {
  operators : list (cell * operator_kpi);
  managers : list (cell * manager_kpi)
}.

(** The sum of [total_tickets] over all managers, and over all operators. *)
Definition manager_tickets (p : performance) : Z :=
  fold_right Z.add 0%Z (map (fun kv => mgr_total_tickets (snd kv)) (managers p)).

Definition operator_tickets (p : performance) : Z :=
  fold_right Z.add 0%Z (map (fun kv => op_total_tickets (snd kv)) (operators p)).

(** How many rows have both a key and a report identifier. *)
Definition rows_with (keys report_id : list cell) : Z :=
  Z.of_nat (length (filter (fun i => notna (nth i keys NaN)
                                     && notna (nth i report_id NaN))
                      (seq 0 (length keys)))).

(** [d[k]] on such a dict *)
Fixpoint dict_get {V : Type} (d : list (cell * V)) (k : cell) : option V :=
  match d with
  | [] => None
  | (k', v) :: rest => if cell_eqb k' k then Some v else dict_get rest k
  end.

(** ** The table loader *)

(** [lambda v: v.strip() if isinstance(v, str) else v] *)
Definition strip_cell (v : cell) : cell :=
  match v with
  | Str s => Str (Py.strip s)
  | _ => v
  end.

(** [df.applymap(f)] *)
Definition applymap (f : cell -> cell) (df : DataFrame) : DataFrame :=
  mkDF (map (fun cv => (fst cv, map f (snd cv))) (columns df)) (nrows df).

(** [_read(name)] of [load_tables].  The data directory is what [read_csv]
    with [dtype=str] makes of each file that exists in it. *)
Definition read_table (data_dir : string -> option DataFrame) (name : string)
  : DataFrame :=
  match data_dir name with
  | None => empty_frame
  | Some t => applymap strip_cell t
  end.

Definition load_tables (data_dir : string -> option DataFrame)
  : list (string * DataFrame) :=
  [("service_data", read_table data_dir "service_data.csv");
   ("employees", read_table data_dir "employees.csv");
   ("service_type", read_table data_dir "service_type.csv");
   ("channel", read_table data_dir "channel.csv");
   ("fault_type", read_table data_dir "fault_type.csv");
   ("location", read_table data_dir "location.csv")].

(** [tables[name]] *)
Fixpoint table (tables : list (string * DataFrame)) (name : string)
  : option DataFrame :=
  match tables with
  | [] => None
  | (n, t) :: rest => if String.eqb name n then Some t else table rest name
  end.

(** ** Shapes of cells and identifiers *)

(** A cell of a parsed time column: a timestamp, or missing. *)
Definition is_time (c : cell) : bool :=
  match c with
  | NaN | Ts _ => true
  | _ => false
  end.

(** A float cell: a number, or NaN. *)
Definition is_float (c : cell) : bool :=
  match c with
  | NaN | Num _ => true
  | _ => false
  end.

(** A text cell without white space at either end. *)
Definition is_stripped (c : cell) : Prop :=
  match c with
  | Str s => Py.strip s = s
  | _ => True
  end.

(** The parts of a report identifier, and the most parts an identifier of
    the column has. *)
Definition parts (id : string) : list string := Py.split "-" id.

Definition widest (ids : list string) : nat :=
  fold_right Nat.max 0%nat (map (fun id => length (parts id)) ids).


(** A boolean cell. *)
Definition is_bool (c : cell) : bool :=
  match c with
  | Bool _ => true
  | _ => false
  end.


(** [carries P df df']: every row of [df] is a row of [df'] as far as the
    columns whose label satisfies [P] go, and [df'] has those columns. *)
Definition carries (P : string -> bool) (df df' : DataFrame) : Prop :=
  (forall c : string,
     P c = true -> has_column df c = true -> has_column df' c = true) /\
  forall i : nat,
    (i < nrows df)%nat ->
    exists j : nat,
      (j < nrows df')%nat /\
      forall c : string,
        P c = true -> has_column df c = true ->
        cell_at df' j c = cell_at df i c.

(** The columns the employee step of the enricher writes itself. *)
Definition employee_step_labels : list string :=
  ["operator_lc"; "employee_id"; "manager_id"; "designation"; "manager"].

(** No key occurs twice among the keys of a reference table. *)
Definition unique_keys (keys : list cell) : Prop :=
  forall k : cell, (length (matches k keys) <= 1)%nat.

(** ** Sample tables

    Small tables on which the operations are run below, and one choice of
    the functions the model takes from pandas and Python. *)

Module Samples.

Import Pd.

Definition no_format : string -> cell -> option Z := fun _ _ => None.
Definition no_inference : cell -> option Z := fun _ => None.
Definition float_text : Q -> string := fun _ => "0.0".
Definition timestamp_text : Z -> string := fun _ => "1970-01-01 00:00:00".

(** Raw tickets whose identifiers split into four, two, one and one parts. *)
Definition raw_tickets : DataFrame :=
  mkDF [("Report ID", [Str "AXA-20201231-1101-WLESS"; Str "AXA-WLESS";
                       Str "plain"; NaN]);
        ("Operator", [Str ""; Str "Ada"; NaN; Str "Bo"])] 4.

(** Raw tickets whose identifiers have no separator at all. *)
Definition plain_tickets : DataFrame :=
  mkDF [("Report ID", [Str "plain"]); ("Operator", [Str "Ada"])] 1.

(** Normalized tickets with a description of their own and no fault type. *)
Definition tickets : DataFrame :=
  mkDF [("report_id", [Str "A-1-WLESS"; Str "A-2-WLESS"]);
        ("report_channel", [Str "CH01"; Str "CH02"]);
        ("operator", [Str "ada"; Str "bo"]);
        ("description", [Str "no signal"; Str "slow link"]);
        ("service_code", [Str "WLESS"; Str "WLESS"]);
        ("state_key", [Str "LA"; Str "OG"])] 2.

Definition channel : DataFrame :=
  mkDF [("Channel Key", [Str "CH01"]); ("Description", [Str "phone"])] 1.

Definition service_type : DataFrame :=
  mkDF [("Service Code", [Str "WLESS"]); ("Description", [Str "wireless"])] 1.

Definition fault_type : DataFrame :=
  mkDF [("Fault", [Str "outage"]); ("Severity", [Str "high"])] 1.

(** Normalized tickets with a fault type and a severity of their own. *)
Definition faulty_tickets : DataFrame :=
  mkDF [("report_id", [Str "A-1-WLESS"; Str "A-2-WLESS"]);
        ("operator", [Str "ada"; Str "bo"]);
        ("fault_type", [Str " outage "; Str "noise"]);
        ("severity", [Str "low"; Str "low"])] 2.

(** Enriched tickets: the second and third matched no employee. *)
Definition enriched : DataFrame :=
  mkDF [("report_id", [Str "r1"; Str "r2"; Str "r3"]);
        ("ticket_open_time", [Ts 0; Ts 10000000000; NaN]);
        ("ticket_resp_time", [Ts 5000000000; Ts 0; Ts 0]);
        ("issue_res_time", [Ts 3605000000000; NaN; Ts 20000000000000]);
        ("ticket_status", [Str "Open"; Str "CLOSED"; NaN]);
        ("operator", [Str "ada"; Str "bo"; Str "ada"]);
        ("manager", [Str "mo"; NaN; NaN])] 3.

(** An evaluated table in which operator bo, of manager zed, has no response
    time and no resolution time at all. *)
Definition evaluated : DataFrame :=
  mkDF [("report_id", [Str "r1"; Str "r2"]);
        ("operator", [Str "ada"; Str "bo"]);
        ("manager", [Str "mo"; Str "zed"]);
        ("response_seconds", [Num 5; NaN]);
        ("resolution_minutes", [Num 60; NaN]);
        ("response_sla_pass", [Bool true; Bool false])] 2.

(** An evaluated table whose second and third tickets have no manager. *)
Definition unmanaged : DataFrame :=
  mkDF [("report_id", [Str "r1"; Str "r2"; Str "r3"]);
        ("operator", [Str "ada"; Str "bo"; Str "bo"]);
        ("manager", [Str "mo"; NaN; NaN]);
        ("response_seconds", [Num 5; Num 15; NaN]);
        ("resolution_minutes", [Num 60; Num 200; NaN]);
        ("response_sla_pass", [Bool true; Bool false; Bool false])] 3.

(** A data directory that holds the ticket file only, its cells padded. *)
Definition ticket_file : DataFrame :=
  mkDF [("Report ID", [Str " AXA-1-WLESS "; Str "AXA-2-WIRED"]);
        ("Operator", [Str "Ada "; NaN])] 2.

Definition data_dir : string -> option DataFrame :=
  fun file => if String.eqb file "service_data.csv" then Some ticket_file else None.

(** A parser that knows the first of the listed formats only. *)
Definition first_format : string -> cell -> option Z :=
  fun fmt _ =>
    if String.eqb fmt "%Y/%m/%d %H:%M:%S" then Some 1609434424000000000%Z else None.

(** Raw tickets with their times as text, one of them blank. *)
Definition timed_tickets : DataFrame :=
  mkDF [("Report ID", [Str "AXA-1-WLESS"; Str "AXA-2-WIRED"]);
        ("Ticket Open Time", [Str "2020/12/31 17:07:04"; Str "  "]);
        ("Ticket Resp Time", [Str "12/31/2020 17:10"; NaN])] 2.

(** Raw tickets without report identifiers. *)
Definition anonymous_tickets : DataFrame :=
  mkDF [("Operator", [Str "Ada"; Str "Bo"])] 2.


(** An employee table without names. *)
Definition nameless_employees : DataFrame :=
  mkDF [("Employee ID", [Str "7"]); ("Manager", [Str "mo"])] 1.

(** Locations: two of them with the key LA; and one location only. *)
Definition locations : DataFrame :=
  mkDF [("State Key", [Str "LA"; Str "LA"; Str "KN"]);
        ("Region", [Str "west"; Str "south-west"; Str "north"])] 3.

Definition one_location : DataFrame :=
  mkDF [("State Key", [Str "LA"]); ("Region", [Str "west"])] 1.


End Samples.

Section Pipeline.

Set Default Proof Using "Type".

(** What pandas and Python supply and the model leaves open: parsing a
    timestamp with a format ([None] when [pd.to_datetime] raises), parsing
    with format inference and [errors="coerce"] ([None] for NaT), and the
    text of a float and of a timestamp. *)
Variable to_datetime : string -> cell -> option Z.
Variable to_datetime_infer : cell -> option Z.
Variable str_of_float : Q -> string.
Variable str_of_timestamp : Z -> string.

(** [str(x)] *)
Definition py_str (x : cell) : string :=
  match x with
  | NaN => "nan"
  | Str s => s
  | Ts t => str_of_timestamp t
  | Num q => str_of_float q
  | Bool true => "True"
  | Bool false => "False"
  end.

(** [s.astype(str)] *)
Definition astype_str (s : list cell) : list cell :=
  map (fun c => Str (py_str c)) s.

(** The renaming of column labels: [s.strip().lower().replace(" ", "_")] *)
Definition snake_case (s : string) : string :=
  Py.replace " " "_" (Py.lower (Py.strip s)).

Definition formats : list string :=
  ["%Y/%m/%d %H:%M:%S"; "%m/%d/%Y %H:%M"; "%Y-%m-%d %H:%M:%S"; "%d/%m/%Y %H:%M:%S"].

Fixpoint first_parsed (fmts : list string) (val : cell) : option Z :=
  match fmts with
  | [] => None
  | fmt :: rest =>
      match to_datetime fmt val with
      | Some t => Some t
      | None => first_parsed rest val
      end
  end.

Definition parse_dt (val : cell) : cell :=
  if isna val || String.eqb (Py.strip (py_str val)) "" then NaN
  else match first_parsed formats val with
       | Some t => Ts t
       | None =>
           match to_datetime_infer val with
           | Some t => Ts t
           | None => NaN
           end
       end.

Definition time_columns : list string :=
  ["ticket_open_time"; "ticket_resp_time"; "issue_res_time"; "ticket_close_time"].

Definition clean_tickets (df : option DataFrame) : DataFrame :=
  if none_or_empty df then empty_frame
  else match df with
  | None => empty_frame
  | Some df =>
      let df := rename snake_case df in
      let df := fold_left (fun d col =>
                             match get d col with
                             | Some v => setitem d col (apply parse_dt v)
                             | None => d
                             end) time_columns df in
      let df := match get df "operator" with
                | Some v =>
                    setitem df "operator"
                      (fillna (Str "UNKNOWN") (replace_empty_with_nan v))
                | None => setitem_scalar df "operator" (Str "UNKNOWN")
                end in
      match get df "report_id" with
      | Some v =>
          let ids := str_map Py.strip (astype_str v) in
          let df := setitem df "report_id" ids in
          setitem df "service_code" (fillna (Str "") (split_expand_last "-" ids))
      | None => setitem_scalar df "service_code" (Str "")
      end
  end.

(** The missing employee columns [enrich_tickets] adds when it has no
    employee table to join. *)
Definition without_employees (df : DataFrame) : DataFrame :=
  let df := setitem_scalar df "employee_id" NaN in
  let df := setitem_scalar df "manager_id" NaN in
  let df := setitem_scalar df "designation" NaN in
  setitem_scalar df "manager" NaN.

(** The employee branch of [enrich_tickets]. *)
Definition join_employees (df : DataFrame) (employees_df : option DataFrame)
  : result DataFrame :=
  match employees_df with
  | Some e =>
      if empty e then Ok (without_employees df)
      else
        let emp := rename snake_case e in
        names <- match get emp "employee_name" with
                 | Some v => Ok v
                 | None => Raise AttributeError
                 end ;;
        let emp := setitem emp "employee_name_lc"
                     (str_map Py.lower (astype_str names)) in
        ops <- getitem df "operator" ;;
        let df := setitem df "operator_lc" (str_map Py.lower (astype_str ops)) in
        merge df emp (Label "operator_lc") "employee_name_lc" ("", "_emp")
  | None => Ok (without_employees df)
  end.

(** One of the four other joins: skipped when the reference table is absent
    or empty. *)
Definition join_reference (df : DataFrame) (ref : option DataFrame)
    (join : DataFrame -> DataFrame -> result DataFrame) : result DataFrame :=
  match ref with
  | Some t => if empty t then Ok df else join df (rename snake_case t)
  | None => Ok df
  end.

Definition enrich_tickets (tickets_df employees_df channel_df service_type_df
    fault_type_df location_df : option DataFrame) : result DataFrame :=
  if none_or_empty tickets_df then Ok empty_frame
  else match tickets_df with
  | None => Ok empty_frame
  | Some df =>
      df <- join_employees df employees_df ;;
      df <- join_reference df channel_df (fun df ch =>
              merge df ch (Label "report_channel") "channel_key" default_suffixes) ;;
      df <- join_reference df service_type_df (fun df st =>
              merge df st (Label "service_code") "service_code" ("", "_service")) ;;
      df <- join_reference df fault_type_df (fun df ft =>
              left_on <- match get df "fault_type" with
                         | Some v => Ok (str_map Py.strip v)
                         | None => Raise AttributeError
                         end ;;
              merge df ft (Values left_on) "fault" default_suffixes) ;;
      join_reference df location_df (fun df loc =>
        merge df loc (Label "state_key") "state_key" ("", "_loc"))
  end.

(** The duration [a - b] in seconds, missing when either end is. *)
Definition secs (a b : cell) : result cell :=
  if isna a || isna b then Ok NaN
  else match a, b with
       | Ts x, Ts y => Ok (Num (total_seconds (x - y)))
       | _, _ => Raise TypeError
       end.

(** [s / 60.0] on a column of floats.  The column is the one [secs] has
    just built, so it holds numbers and NaN only, as do the columns the next
    three functions are applied to. *)
Definition div60 (s : list cell) : list cell :=
  map (fun c => match c with
                | Num q => Num (q / 60)
                | _ => NaN
                end) s.

(** [bool(x <= bound) if pd.notna(x) else False] on a float *)
Definition sla_pass (bound : Q) (x : cell) : cell :=
  match x with
  | Num q => Bool (Qle_bool q bound)
  | _ => Bool false
  end.

(** [x > bound] on a float that is not missing *)
Definition exceeds (bound : Q) (x : cell) : bool :=
  match x with
  | Num q => Qlt_bool bound q
  | _ => false
  end.

Definition escalation (r : row) : result cell :=
  let mins := row_get r "resolution_minutes" NaN in
  if notna mins && exceeds 180 mins then Ok (Bool true)
  else
    let status := Py.lower (py_str (row_get r "ticket_status" (Str ""))) in
    if Py.mem status ["completed"; "closed"]
       && isna (row_get r "issue_res_time" NaN)
    then Ok (Bool true)
    else Ok (Bool false).

Definition category (mins : cell) : cell :=
  match mins with
  | Num m =>
      if Qlt_bool m 30 then Str "Less Than 30 Mins"
      else if Qle_bool 30 m && Qlt_bool m 60 then Str "30Mins - 1 hour"
      else if Qle_bool 60 m && Qle_bool m 180 then Str "1 hour - 3 hours"
      else Str "Greater than 3 hours"
  | _ => Str "Unknown"
  end.

Definition compute_sla_metrics (df : option DataFrame) : result DataFrame :=
  if none_or_empty df then Ok empty_frame
  else match df with
  | None => Ok empty_frame
  | Some d =>
      response_seconds <- apply_rows d (fun r =>
        secs (row_get r "ticket_resp_time" NaN) (row_get r "ticket_open_time" NaN)) ;;
      let d := setitem d "response_seconds" response_seconds in
      resolution_seconds <- apply_rows d (fun r =>
        secs (row_get r "issue_res_time" NaN) (row_get r "ticket_resp_time" NaN)) ;;
      let d := setitem d "resolution_seconds" resolution_seconds in
      let resolution_minutes := div60 resolution_seconds in
      let d := setitem d "resolution_minutes" resolution_minutes in
      let d := setitem d "response_sla_pass" (apply (sla_pass 10) response_seconds) in
      let d := setitem d "resolution_sla_pass"
                 (apply (sla_pass 180) resolution_minutes) in
      flags <- apply_rows d escalation ;;
      let d := setitem d "escalation" flags in
      Ok (setitem d "resolution_category" (apply category resolution_minutes))
  end.

(** The operator lambda [float(x.sum()) / len(x) if len(x) > 0 else 0.0] *)
Definition pass_rate (x : list cell) : result cell :=
  match x with
  | [] => Ok (Num 0)
  | _ => qs <- numbers x ;;
         Ok (Num (Qsum qs / inject_Z (Z.of_nat (length x))))
  end.

Definition manager_operator_performance (df : option DataFrame) : result performance :=
  if none_or_empty df then Ok (mkPerformance [] [])
  else match df with
  | None => Ok (mkPerformance [] [])
  | Some d =>
      by_operator <- getitem d "operator" ;;
      report_id <- getitem d "report_id" ;;
      response_seconds <- getitem d "response_seconds" ;;
      resolution_minutes <- getitem d "resolution_minutes" ;;
      response_sla_pass <- getitem d "response_sla_pass" ;;
      ops <- mapM (fun k =>
               let g := group_indices by_operator k in
               avg_resp <- mean (take g response_seconds) ;;
               avg_res <- mean (take g resolution_minutes) ;;
               rate <- pass_rate (take g response_sla_pass) ;;
               Ok (k, mkOperatorKpi
                        (count (take g report_id))
                        (round (or_zero avg_resp) 2)
                        (round (or_zero avg_res) 2)
                        (round (or_zero rate) 3)))
             (group_keys by_operator) ;;
      mgrs <- match get d "manager" with
              | Some by_manager =>
                  mapM (fun k =>
                    let g := group_indices by_manager k in
                    avg_resp <- mean (take g response_seconds) ;;
                    avg_res <- mean (take g resolution_minutes) ;;
                    Ok (k, mkManagerKpi
                             (count (take g report_id))
                             (round (or_zero avg_resp) 2)
                             (round (or_zero avg_res) 2)))
                  (group_keys by_manager)
              | None => Ok []
              end ;;
      Ok (mkPerformance ops mgrs)
  end.

(** * Properties *)

(** ** Columns of a table *)

Lemma lookup_assign (c c' : string) (v : list cell) (cols : list (string * list cell)) :
  lookup c (assign c' v cols) = if String.eqb c c' then Some v else lookup c cols.
Proof.
  induction cols as [|[c1 v1] rest IH]; simpl.
  - reflexivity.
  - destruct (String.eqb_spec c' c1) as [->|Hne]; simpl.
    + destruct (String.eqb c c1); reflexivity.
    + rewrite IH.
      destruct (String.eqb_spec c c1) as [->|]; [|reflexivity].
      destruct (String.eqb_spec c1 c') as [E|]; [congruence|reflexivity].
Qed.

Lemma get_setitem_same (d : DataFrame) (c : string) (v : list cell) :
  get (setitem d c v) c = Some v.
Proof.
  unfold get, setitem; simpl. now rewrite lookup_assign, String.eqb_refl.
Qed.

Lemma get_setitem_other (d : DataFrame) (c c' : string) (v : list cell) :
  String.eqb c c' = false -> get (setitem d c' v) c = get d c.
Proof.
  intros E. unfold get, setitem; simpl. now rewrite lookup_assign, E.
Qed.

Lemma cell_at_get (d : DataFrame) (i : nat) (c : string) (v : list cell) :
  get d c = Some v -> cell_at d i c = nth i v NaN.
Proof.
  intros E. unfold cell_at, row_get, row_at. now rewrite E.
Qed.

Lemma cell_at_same_column (d d' : DataFrame) (i : nat) (c : string) :
  get d c = get d' c -> cell_at d i c = cell_at d' i c.
Proof.
  intros E. unfold cell_at, row_get, row_at. now rewrite E.
Qed.

Lemma row_get_same_column (d d' : DataFrame) (i : nat) (c : string) (x : cell) :
  get d c = get d' c -> row_get (row_at d i) c x = row_get (row_at d' i) c x.
Proof.
  intros E. unfold row_get, row_at. now rewrite E.
Qed.

(** ** Row-wise application *)

Lemma mapM_Ok {A B : Type} (f : A -> result B) (l : list A) (l' : list B) :
  mapM f l = Ok l' ->
  length l' = length l /\
  forall (i : nat) (a : A) (b : B),
    (i < length l)%nat -> f (nth i l a) = Ok (nth i l' b).
Proof.
  revert l'. induction l as [|x l IH]; simpl; intros l' H.
  - inversion H; subst. split; [reflexivity|]. intros; simpl in *; lia.
  - destruct (f x) as [y|e] eqn:Ey; simpl in H; [|discriminate].
    destruct (mapM f l) as [ys|e] eqn:El; simpl in H; [|discriminate].
    inversion H; subst. destruct (IH ys eq_refl) as [Hlen Hnth].
    split; [simpl; now rewrite Hlen|].
    intros [|i] a b Hi; simpl; [exact Ey|]. apply Hnth. simpl in Hi. lia.
Qed.

Lemma apply_rows_Ok (d : DataFrame) (f : row -> result cell) (l : list cell) :
  apply_rows d f = Ok l ->
  length l = nrows d /\
  forall i : nat, (i < nrows d)%nat -> f (row_at d i) = Ok (nth i l NaN).
Proof.
  unfold apply_rows. intros H. apply mapM_Ok in H. destruct H as [Hlen Hnth].
  rewrite length_seq in Hlen. split; [exact Hlen|].
  intros i Hi. specialize (Hnth i 0%nat NaN).
  rewrite length_seq in Hnth. specialize (Hnth Hi).
  now rewrite seq_nth in Hnth by exact Hi.
Qed.

Lemma nth_map_cell (f : cell -> cell) (l : list cell) (i : nat) :
  (i < length l)%nat -> nth i (map f l) NaN = f (nth i l NaN).
Proof.
  intros Hi. rewrite (nth_indep _ NaN (f NaN)) by now rewrite length_map.
  apply map_nth.
Qed.

(** ** The SLA calculator, column by column *)

Lemma escalation_ext (r r' : row) :
  r "resolution_minutes" = r' "resolution_minutes" ->
  r "ticket_status" = r' "ticket_status" ->
  r "issue_res_time" = r' "issue_res_time" ->
  escalation r = escalation r'.
Proof.
  intros E1 E2 E3. unfold escalation, row_get. now rewrite E1, E2, E3.
Qed.

Ltac other_column := rewrite get_setitem_other by reflexivity.

Lemma compute_sla_metrics_Ok (d out : DataFrame) :
  empty d = false ->
  compute_sla_metrics (Some d) = Ok out ->
  exists rs rr fl : list cell,
    (nrows out = nrows d /\ length rs = nrows d /\ length rr = nrows d /\
     length fl = nrows d) /\
    (get out "response_seconds" = Some rs /\
     get out "resolution_minutes" = Some (div60 rr) /\
     get out "response_sla_pass" = Some (apply (sla_pass 10) rs) /\
     get out "resolution_sla_pass" = Some (apply (sla_pass 180) (div60 rr)) /\
     get out "escalation" = Some fl /\
     get out "resolution_category" = Some (apply category (div60 rr))) /\
    (get out "ticket_open_time" = get d "ticket_open_time" /\
     get out "ticket_resp_time" = get d "ticket_resp_time" /\
     get out "issue_res_time" = get d "issue_res_time" /\
     get out "ticket_status" = get d "ticket_status") /\
    (forall i : nat, (i < nrows d)%nat ->
       secs (cell_at d i "ticket_resp_time") (cell_at d i "ticket_open_time")
       = Ok (nth i rs NaN)) /\
    (forall i : nat, (i < nrows d)%nat ->
       secs (cell_at d i "issue_res_time") (cell_at d i "ticket_resp_time")
       = Ok (nth i rr NaN)) /\
    (forall i : nat, (i < nrows d)%nat ->
       escalation (row_at out i) = Ok (nth i fl NaN)).
Proof.
  intros Hne H. unfold compute_sla_metrics in H. simpl in H. rewrite Hne in H.
  destruct (apply_rows d _) as [rs|e] eqn:Ers; simpl in H; [|discriminate].
  destruct (apply_rows (setitem d "response_seconds" rs) _) as [rr|e] eqn:Err;
    simpl in H; [|discriminate].
  match type of H with
  | (_ <- apply_rows ?d5 _ ;; _) = _ =>
      destruct (apply_rows d5 escalation) as [fl|e] eqn:Efl;
      simpl in H; [|discriminate]
  end.
  inversion H; subst out; clear H.
  apply apply_rows_Ok in Ers, Err, Efl. simpl in Err, Efl.
  destruct Ers as [Lrs Nrs], Err as [Lrr Nrr], Efl as [Lfl Nfl].
  exists rs, rr, fl.
  split; [now repeat split|].
  split; [repeat split; repeat other_column; apply get_setitem_same|].
  split; [repeat split; now repeat other_column|].
  split; [exact Nrs|].
  split.
  - intros i Hi. rewrite <- (Nrr i Hi). unfold cell_at.
    f_equal; apply row_get_same_column; now repeat other_column.
  - intros i Hi. rewrite <- (Nfl i Hi).
    apply escalation_ext; unfold row_at; now repeat other_column.
Qed.

Lemma compute_sla_metrics_rows (df : option DataFrame) (out : DataFrame) (i : nat) :
  compute_sla_metrics df = Ok out -> (i < nrows out)%nat ->
  exists d : DataFrame, df = Some d /\ empty d = false.
Proof.
  intros H Hi. unfold compute_sla_metrics in H.
  destruct df as [d|]; simpl in H.
  - destruct (empty d) eqn:E.
    + inversion H; subst out. simpl in Hi. lia.
    + now exists d.
  - inversion H; subst out. simpl in Hi. lia.
Qed.

Lemma secs_float (a b x : cell) :
  secs a b = Ok x -> x = NaN \/ exists q : Q, x = Num q.
Proof.
  unfold secs. destruct (isna a || isna b).
  - intros H; inversion H. now left.
  - destruct a, b; try discriminate. intros H; inversion H. right. eauto.
Qed.

Lemma nth_div60 (rr : list cell) (i : nat) :
  nth i (div60 rr) NaN = NaN \/ exists q : Q, nth i (div60 rr) NaN = Num q.
Proof.
  unfold div60. destruct (Nat.lt_ge_cases i (length rr)) as [Hi|Hi].
  - rewrite nth_map_cell by exact Hi. destruct (nth i rr NaN); eauto.
  - left. apply nth_overflow. now rewrite length_map.
Qed.

(** ** Comparisons of floats *)

Lemma Qle_bool_spec (x y : Q) : reflect (x <= y)%Q (Qle_bool x y).
Proof.
  destruct (Qle_bool x y) eqn:E; constructor.
  - now apply Qle_bool_iff.
  - intros H. apply Qle_bool_iff in H. congruence.
Qed.

Lemma Qlt_bool_spec (x y : Q) : reflect (x < y)%Q (Qlt_bool x y).
Proof.
  unfold Qlt_bool. destruct (Qle_bool_spec y x); constructor.
  - now apply Qle_not_lt.
  - now apply Qnot_le_lt.
Qed.

Lemma category_spec (mins : cell) :
  mins = NaN \/ (exists q : Q, mins = Num q) ->
  (category mins = Str "Unknown" <-> mins = NaN) /\
  (category mins = Str "Less Than 30 Mins" <->
     exists m : Q, mins = Num m /\ (m < 30)%Q) /\
  (category mins = Str "30Mins - 1 hour" <->
     exists m : Q, mins = Num m /\ (30 <= m)%Q /\ (m < 60)%Q) /\
  (category mins = Str "1 hour - 3 hours" <->
     exists m : Q, mins = Num m /\ (60 <= m)%Q /\ (m <= 180)%Q) /\
  (category mins = Str "Greater than 3 hours" <->
     exists m : Q, mins = Num m /\ (180 < m)%Q).
Proof.
  intros [->|[q ->]]; simpl.
  - repeat split; try discriminate; try reflexivity;
      intros [m [E _]]; discriminate.
  - destruct (Qlt_bool_spec q 30) as [H30|H30]; simpl;
      [|destruct (Qle_bool_spec 30 q) as [G30|G30]; simpl;
        [destruct (Qlt_bool_spec q 60) as [H60|H60]; simpl;
          [|destruct (Qle_bool_spec 60 q) as [G60|G60]; simpl;
            [destruct (Qle_bool_spec q 180) as [H180|H180]; simpl|]]|]];
      repeat split; try discriminate; try reflexivity;
      try (intros [m [E Hm]]; inversion E; subst m; exfalso; lra);
      try (intros _; exists q; split; [reflexivity|lra]);
      try (exfalso; lra).
Qed.

Lemma length_div60 (rr : list cell) : length (div60 rr) = length rr.
Proof. apply length_map. Qed.

(** From a successful run and a row of its output: the input table and the
    columns the run has built. *)
Ltac sla_columns H Hi :=
  destruct (compute_sla_metrics_rows _ _ _ H Hi) as [d [-> Hne]];
  destruct (compute_sla_metrics_Ok _ _ Hne H)
    as (rs & rr & fl & (Hn & Lrs & Lrr & Lfl)
        & (Grs & Gmin & Gp1 & Gp2 & Gesc & Gcat)
        & (Gopen & Gresp & Gissue & Gstatus) & Nrs & Nrr & Nfl);
  rewrite Hn in Hi.

(** The derived cells of one output row, from its two durations. *)
Lemma sla_row (df : option DataFrame) (out : DataFrame) (i : nat) :
  compute_sla_metrics df = Ok out -> (i < nrows out)%nat ->
  let seconds := cell_at out i "response_seconds" in
  let mins := cell_at out i "resolution_minutes" in
  (seconds = NaN \/ exists q : Q, seconds = Num q) /\
  (mins = NaN \/ exists q : Q, mins = Num q) /\
  cell_at out i "response_sla_pass" = sla_pass 10 seconds /\
  cell_at out i "resolution_sla_pass" = sla_pass 180 mins /\
  cell_at out i "resolution_category" = category mins.
Proof.
  intros H Hi. sla_columns H Hi. cbv zeta.
  rewrite (cell_at_get _ _ _ _ Grs), (cell_at_get _ _ _ _ Gmin),
    (cell_at_get _ _ _ _ Gp1), (cell_at_get _ _ _ _ Gp2),
    (cell_at_get _ _ _ _ Gcat).
  unfold apply. rewrite nth_map_cell by lia.
  rewrite !nth_map_cell by (rewrite length_div60; lia).
  repeat split.
  - exact (secs_float _ _ _ (Nrs i Hi)).
  - apply nth_div60.
Qed.

(** ** The SLA calculator *)

(** C4: in every row of the SLA calculator's output, [resolution_category]
    is "Unknown" exactly when [resolution_minutes] is missing, "Less Than 30
    Mins" exactly when it is below 30, "30Mins - 1 hour" exactly when it is
    in [30,60), "1 hour - 3 hours" exactly when it is in [60,180], and
    "Greater than 3 hours" exactly when it is above 180. *)
Theorem resolution_category_buckets (df : option DataFrame) (out : DataFrame) (i : nat) :
  compute_sla_metrics df = Ok out -> (i < nrows out)%nat ->
  let mins := cell_at out i "resolution_minutes" in
  let cat := cell_at out i "resolution_category" in
  (cat = Str "Unknown" <-> mins = NaN) /\
  (cat = Str "Less Than 30 Mins" <->
     exists m : Q, mins = Num m /\ (m < 30)%Q) /\
  (cat = Str "30Mins - 1 hour" <->
     exists m : Q, mins = Num m /\ (30 <= m)%Q /\ (m < 60)%Q) /\
  (cat = Str "1 hour - 3 hours" <->
     exists m : Q, mins = Num m /\ (60 <= m)%Q /\ (m <= 180)%Q) /\
  (cat = Str "Greater than 3 hours" <->
     exists m : Q, mins = Num m /\ (180 < m)%Q).
Proof.
  intros H Hi. destruct (sla_row df out i H Hi) as (_ & Fm & _ & _ & C).
  cbv zeta in *. rewrite C. now apply category_spec.
Qed.

Lemma sla_pass_spec (bound : Q) (x : cell) :
  x = NaN \/ (exists q : Q, x = Num q) ->
  (sla_pass bound x = Bool true <-> exists s : Q, x = Num s /\ (s <= bound)%Q) /\
  (sla_pass bound x = Bool false <->
     x = NaN \/ exists s : Q, x = Num s /\ (bound < s)%Q).
Proof.
  intros [->|[q ->]]; simpl.
  - split; split; try discriminate; auto. intros [s [E _]]; discriminate.
  - destruct (Qle_bool_spec q bound) as [L|L]; split; split;
      try discriminate; try reflexivity.
    + intros _. now exists q.
    + intros [E|[s [E Hs]]]; [discriminate|]. inversion E; subst s. lra.
    + intros [s [E Hs]]. inversion E; subst s. contradiction.
    + intros _. right. exists q. split; [reflexivity|lra].
Qed.

(** C6: in every row of the SLA calculator's output, [response_sla_pass]
    is true exactly when [response_seconds] is present and at most 10, and
    false when it is missing or above 10; [resolution_sla_pass] is true
    exactly when [resolution_minutes] is present and at most 180, and false
    when it is missing or above 180. *)
Theorem sla_pass_flags (df : option DataFrame) (out : DataFrame) (i : nat) :
  compute_sla_metrics df = Ok out -> (i < nrows out)%nat ->
  let seconds := cell_at out i "response_seconds" in
  let mins := cell_at out i "resolution_minutes" in
  (cell_at out i "response_sla_pass" = Bool true <->
     exists s : Q, seconds = Num s /\ (s <= 10)%Q) /\
  (cell_at out i "response_sla_pass" = Bool false <->
     seconds = NaN \/ exists s : Q, seconds = Num s /\ (10 < s)%Q) /\
  (cell_at out i "resolution_sla_pass" = Bool true <->
     exists m : Q, mins = Num m /\ (m <= 180)%Q) /\
  (cell_at out i "resolution_sla_pass" = Bool false <->
     mins = NaN \/ exists m : Q, mins = Num m /\ (180 < m)%Q).
Proof.
  intros H Hi. destruct (sla_row df out i H Hi) as (Fs & Fm & P1 & P2 & _).
  cbv zeta in *. rewrite P1, P2.
  destruct (sla_pass_spec 10 _ Fs), (sla_pass_spec 180 _ Fm). auto.
Qed.

Lemma isna_spec (x : cell) : reflect (x = NaN) (isna x).
Proof. destruct x; constructor; congruence. Qed.

Lemma escalation_spec (r : row) (x : cell) :
  let mins := row_get r "resolution_minutes" NaN in
  let status := Py.lower (py_str (row_get r "ticket_status" (Str ""))) in
  let issue := row_get r "issue_res_time" NaN in
  let late := exists m : Q, mins = Num m /\ (180 < m)%Q in
  let done := (status = "completed" \/ status = "closed") /\ issue = NaN in
  escalation r = Ok x ->
  mins = NaN \/ (exists q : Q, mins = Num q) ->
  (x = Bool true <-> late \/ done) /\ (x = Bool false <-> ~ (late \/ done)).
Proof.
  intros mins status issue late done. unfold escalation.
  fold mins status issue. unfold Py.mem, existsb.
  assert (Hlate : forall q, mins = Num q -> (180 < q)%Q -> late)
    by (intros q E L; exists q; auto).
  intros H [E|[q E]]; rewrite E in H; simpl in H.
  - assert (Hnl : ~ late) by (intros [m [E' _]]; congruence).
    destruct (String.eqb_spec status "completed") as [S1|S1];
      destruct (String.eqb_spec status "closed") as [S2|S2];
      destruct (isna_spec issue) as [I|I]; simpl in H;
      inversion H; subst x; unfold done;
      (split; split; try discriminate; try (clear - Hnl S1 S2 I; tauto)).
  - destruct (Qlt_bool_spec 180 q) as [L|L]; simpl in H.
    + inversion H; subst x. split; split; try discriminate; eauto.
      intros N. exfalso. apply N. left. eauto.
    + assert (Hnl : ~ late)
        by (intros [m [E' L']]; rewrite E in E'; inversion E'; subst m; auto).
      destruct (String.eqb_spec status "completed") as [S1|S1];
        destruct (String.eqb_spec status "closed") as [S2|S2];
        destruct (isna_spec issue) as [I|I]; simpl in H;
        inversion H; subst x; unfold done;
        (split; split; try discriminate; try (clear - Hnl S1 S2 I; tauto)).
Qed.

(** C5: in every row of the SLA calculator's output, [escalation] is true
    exactly when [resolution_minutes] is present and above 180, or the
    lower-cased ticket status is "completed" or "closed" while
    [issue_res_time] is missing; it is false otherwise, and so it is false
    in a row with no resolution time whose status is neither of the two. *)
Theorem escalation_rule (df : option DataFrame) (out : DataFrame) (i : nat) :
  compute_sla_metrics df = Ok out -> (i < nrows out)%nat ->
  let mins := cell_at out i "resolution_minutes" in
  let status := Py.lower (py_str (row_get (row_at out i) "ticket_status" (Str ""))) in
  let issue := cell_at out i "issue_res_time" in
  let late := exists m : Q, mins = Num m /\ (180 < m)%Q in
  let done := (status = "completed" \/ status = "closed") /\ issue = NaN in
  (cell_at out i "escalation" = Bool true <-> late \/ done) /\
  (cell_at out i "escalation" = Bool false <-> ~ (late \/ done)) /\
  (mins = NaN \/ issue = NaN ->
   status <> "completed" -> status <> "closed" ->
   cell_at out i "escalation" = Bool false).
Proof.
  intros H Hi. sla_columns H Hi.
  assert (Hmins : cell_at out i "resolution_minutes" = NaN \/
                  exists q : Q, cell_at out i "resolution_minutes" = Num q)
    by (rewrite (cell_at_get _ _ _ _ Gmin); apply nth_div60).
  pose proof (escalation_spec _ _ (Nfl i Hi) Hmins) as [Ptrue Pfalse].
  cbv zeta in Ptrue, Pfalse. fold (cell_at out i "resolution_minutes") in Ptrue, Pfalse.
  fold (cell_at out i "issue_res_time") in Ptrue, Pfalse.
  rewrite <- (cell_at_get _ _ _ _ Gesc) in Ptrue, Pfalse.
  cbv zeta. split; [exact Ptrue|]. split; [exact Pfalse|].
  intros Hmiss S1 S2. apply Pfalse. intros [[m [E L]]|[[S|S] _]]; try contradiction.
  destruct Hmiss as [M|M]; [congruence|].
  rewrite (cell_at_same_column out d i "issue_res_time" Gissue) in M.
  pose proof (Nrr i Hi) as Hsecs. rewrite M in Hsecs. simpl in Hsecs.
  inversion Hsecs as [Hrr].
  rewrite (cell_at_get _ _ _ _ Gmin) in E. unfold div60 in E.
  rewrite nth_map_cell in E by lia. rewrite <- Hrr in E. discriminate.
Qed.

Lemma total_seconds_negative (a b : Z) :
  (a < b)%Z -> (total_seconds (a - b) < 0)%Q.
Proof.
  intros L. unfold total_seconds, Qlt. simpl. lia.
Qed.

Lemma secs_reversed (a b : Z) (x : cell) :
  (a < b)%Z -> secs (Ts a) (Ts b) = Ok x ->
  exists s : Q, x = Num s /\ (s < 0)%Q.
Proof.
  intros L H. simpl in H. inversion H.
  eexists. split; [reflexivity|]. now apply total_seconds_negative.
Qed.

(** C10: the SLA calculator does not guard against reversed timestamps.  In
    a row whose response time precedes its open time, [response_seconds] is
    negative and [response_sla_pass] is true; in a row whose resolution time
    precedes its response time, [resolution_minutes] is negative; and a
    negative [resolution_minutes] gives [resolution_sla_pass] true and the
    category "Less Than 30 Mins". *)
Theorem reversed_timestamps_pass (df : option DataFrame) (out : DataFrame) (i : nat) :
  compute_sla_metrics df = Ok out -> (i < nrows out)%nat ->
  (forall a b : Z,
     cell_at out i "ticket_resp_time" = Ts a ->
     cell_at out i "ticket_open_time" = Ts b -> (a < b)%Z ->
     exists s : Q,
       cell_at out i "response_seconds" = Num s /\ (s < 0)%Q /\
       cell_at out i "response_sla_pass" = Bool true) /\
  (forall a b : Z,
     cell_at out i "issue_res_time" = Ts a ->
     cell_at out i "ticket_resp_time" = Ts b -> (a < b)%Z ->
     exists m : Q, cell_at out i "resolution_minutes" = Num m /\ (m < 0)%Q) /\
  (forall m : Q,
     cell_at out i "resolution_minutes" = Num m -> (m < 0)%Q ->
     cell_at out i "resolution_sla_pass" = Bool true /\
     cell_at out i "resolution_category" = Str "Less Than 30 Mins").
Proof.
  intros H Hi.
  destruct (sla_row df out i H Hi) as (Fs & Fm & P1 & P2 & C).
  cbv zeta in Fs, Fm, P1, P2, C.
  apply sla_pass_spec with (bound := 10%Q) in Fs. destruct Fs as [P1' _].
  apply sla_pass_spec with (bound := 180%Q) in Fm as P2'. destruct P2' as [P2' _].
  apply category_spec in Fm. destruct Fm as (_ & C' & _).
  rewrite <- P1 in P1'. rewrite <- P2 in P2'. rewrite <- C in C'.
  clear P1 P2 C. rename P1' into P1, P2' into P3, C' into C.
  sla_columns H Hi. split; [|split].
  - intros a b Ea Eb L.
    rewrite (cell_at_same_column out d i _ Gresp) in Ea.
    rewrite (cell_at_same_column out d i _ Gopen) in Eb.
    pose proof (Nrs i Hi) as Hs. rewrite Ea, Eb in Hs.
    destruct (secs_reversed a b _ L Hs) as [s [Es Ls]].
    rewrite <- (cell_at_get _ _ _ _ Grs) in Es.
    exists s. split; [exact Es|]. split; [exact Ls|].
    apply P1. exists s. split; [exact Es|lra].
  - intros a b Ea Eb L.
    rewrite (cell_at_same_column out d i _ Gissue) in Ea.
    rewrite (cell_at_same_column out d i _ Gresp) in Eb.
    pose proof (Nrr i Hi) as Hs. rewrite Ea, Eb in Hs.
    destruct (secs_reversed a b _ L Hs) as [s [Es Ls]].
    exists (s / 60)%Q. split.
    + rewrite (cell_at_get _ _ _ _ Gmin). unfold div60.
      rewrite nth_map_cell by lia. now rewrite Es.
    + apply Qlt_shift_div_r; lra.
  - intros m Em Lm. split.
    + apply P3. exists m. split; [exact Em|lra].
    + apply C. exists m. split; [exact Em|lra].
Qed.

(** ** The normalizer *)

Lemma lookup_In (c : string) (v : list cell) (cols : list (string * list cell)) :
  lookup c cols = Some v -> exists c' : string, In (c', v) cols.
Proof.
  induction cols as [|[c1 v1] rest IH]; simpl; [discriminate|].
  destruct (String.eqb c c1).
  - intros E; inversion E; subst. eauto.
  - intros E. destruct (IH E) as [c' Hin]. eauto.
Qed.

Lemma get_rename_In (f : string -> string) (d : DataFrame) (c : string) (v : list cell) :
  get (rename f d) c = Some v -> exists c' : string, In (c', v) (columns d).
Proof.
  unfold get, rename; simpl. intros E.
  apply lookup_In in E. destruct E as [c' Hin].
  apply in_map_iff in Hin. destruct Hin as [[c0 v0] [E Hin]].
  inversion E; subst. eauto.
Qed.

(** Parsing the time columns leaves every other column as it is. *)
Lemma parse_time_columns_other (cols : list string) (d : DataFrame) (c : string) :
  Py.mem c cols = false ->
  get (fold_left (fun d col =>
                    match get d col with
                    | Some v => setitem d col (apply parse_dt v)
                    | None => d
                    end) cols d) c = get d c.
Proof.
  revert d. induction cols as [|col cols IH]; simpl; intros d Hc; [reflexivity|].
  apply orb_false_iff in Hc. destruct Hc as [Hcol Hrest].
  rewrite IH by exact Hrest.
  destruct (get d col); [|reflexivity]. now apply get_setitem_other.
Qed.

Lemma parse_time_columns_nrows (cols : list string) (d : DataFrame) :
  nrows (fold_left (fun d col =>
                      match get d col with
                      | Some v => setitem d col (apply parse_dt v)
                      | None => d
                      end) cols d) = nrows d.
Proof.
  revert d. induction cols as [|col cols IH]; simpl; intros d; [reflexivity|].
  rewrite IH. now destruct (get d col).
Qed.

(** The operator column of the normalized table, from the raw one. *)
Lemma clean_tickets_operator (df : DataFrame) :
  empty df = false ->
  get (clean_tickets (Some df)) "operator" =
  Some (match get (rename snake_case df) "operator" with
        | Some v => fillna (Str "UNKNOWN") (replace_empty_with_nan v)
        | None => repeat (Str "UNKNOWN") (nrows df)
        end).
Proof.
  intros Hne. unfold clean_tickets, none_or_empty. rewrite Hne.
  set (d1 := fold_left _ time_columns (rename snake_case df)).
  assert (E1 : get d1 "operator" = get (rename snake_case df) "operator")
    by (apply parse_time_columns_other; reflexivity).
  assert (N1 : nrows d1 = nrows df)
    by (unfold d1; now rewrite parse_time_columns_nrows).
  rewrite E1.
  set (d2 := match get (rename snake_case df) "operator" with
             | Some v => setitem d1 "operator" _
             | None => _
             end).
  assert (E2 : get d2 "operator" =
               Some (match get (rename snake_case df) "operator" with
                     | Some v => fillna (Str "UNKNOWN") (replace_empty_with_nan v)
                     | None => repeat (Str "UNKNOWN") (nrows df)
                     end)).
  { unfold d2. destruct (get (rename snake_case df) "operator").
    - apply get_setitem_same.
    - unfold setitem_scalar. rewrite N1. apply get_setitem_same. }
  destruct (get d2 "report_id").
  - now repeat other_column.
  - unfold setitem_scalar. now other_column.
Qed.

Lemma fill_operator_cell (c : cell) :
  is_text c = true ->
  let filled := if isna (match c with Str EmptyString => NaN | _ => c end)
                then Str "UNKNOWN"
                else match c with Str EmptyString => NaN | _ => c end in
  (exists s : string, filled = Str s /\ s <> "") /\
  (c = NaN \/ c = Str "" -> filled = Str "UNKNOWN") /\
  (forall s : string, c = Str s -> s <> "" -> filled = Str s).
Proof.
  destruct c as [|[|a s]| | |]; simpl; try discriminate; intros _.
  - split; [exists "UNKNOWN"; split; [reflexivity|discriminate]|].
    split; [reflexivity|]. intros s E; discriminate.
  - split; [exists "UNKNOWN"; split; [reflexivity|discriminate]|].
    split; [reflexivity|]. intros s E N. inversion E; subst. congruence.
  - split; [exists (String a s); split; [reflexivity|discriminate]|].
    split; [intros [E|E]; discriminate|]. intros s' E _. exact E.
Qed.

(** C7: after normalization of a non-empty raw ticket table, as the loader
    reads it, the operator of every row is a non-empty string: a missing or
    empty operator becomes UNKNOWN, any other operator is kept, and when the
    table has no operator column every row gets UNKNOWN. *)
Theorem operator_never_empty (df : DataFrame) (i : nat) :
  empty df = false -> well_formed df -> string_typed df ->
  (i < nrows df)%nat ->
  let operator := cell_at (clean_tickets (Some df)) i "operator" in
  (exists s : string, operator = Str s /\ s <> "") /\
  match row_at (rename snake_case df) i "operator" with
  | None => operator = Str "UNKNOWN"
  | Some raw =>
      (raw = NaN \/ raw = Str "" -> operator = Str "UNKNOWN") /\
      (forall s : string, raw = Str s -> s <> "" -> operator = Str s)
  end.
Proof.
  intros Hne Hwf Hty Hi. cbv zeta.
  rewrite (cell_at_get _ _ _ _ (clean_tickets_operator df Hne)).
  unfold row_at.
  destruct (get (rename snake_case df) "operator") as [v|] eqn:Ev.
  - destruct (get_rename_In _ _ _ _ Ev) as [c' Hin].
    unfold well_formed in Hwf. unfold string_typed in Hty.
    rewrite Forall_forall in Hwf, Hty.
    pose proof (Hwf _ Hin) as Hlen. pose proof (Hty _ Hin) as Htxt.
    simpl in Hlen, Htxt. rewrite forallb_forall in Htxt.
    assert (Hc : is_text (nth i v NaN) = true)
      by (apply Htxt, nth_In; lia).
    unfold fillna, replace_empty_with_nan. rewrite map_map.
    rewrite (nth_map_cell (fun c => if isna match c with
                                             | Str EmptyString => NaN
                                             | _ => c
                                             end
                                    then Str "UNKNOWN"
                                    else match c with
                                         | Str EmptyString => NaN
                                         | _ => c
                                         end) v i) by lia.
    destruct (fill_operator_cell _ Hc) as (P1 & P2 & P3).
    split; [exact P1|]. split; [exact P2|exact P3].
  - rewrite nth_repeat_lt by exact Hi.
    split; [|reflexivity]. exists "UNKNOWN". split; [reflexivity|discriminate].
Qed.

(** C3: on a table whose report identifiers split into different numbers of
    parts, [clean_tickets] gives the last part only to the rows with the most
    parts: "AXA-WLESS", next to "AXA-20201231-1101-WLESS", gets the empty
    service code and not "WLESS"; and on a table where no identifier has a
    separator the service code is the whole identifier, not the empty
    string. *)
Theorem service_code_depends_on_other_rows :
  get (clean_tickets (Some Samples.raw_tickets)) "report_id"
  = Some [Str "AXA-20201231-1101-WLESS"; Str "AXA-WLESS"; Str "plain"; Str "nan"] /\
  get (clean_tickets (Some Samples.raw_tickets)) "service_code"
  = Some [Str "WLESS"; Str ""; Str ""; Str ""] /\
  get (clean_tickets (Some Samples.plain_tickets)) "service_code"
  = Some [Str "plain"].
Proof. repeat split. Qed.

(** ** The enricher *)

(** C2: [enrich_tickets] raises on a ticket table without a [fault_type]
    column when it is given a non-empty fault-type table: the default of
    [df.get("fault_type", "")] is a string, which has no [.str]. *)
Theorem enrich_tickets_raises_without_fault_type :
  empty Samples.tickets = false /\
  has_column Samples.tickets "fault_type" = false /\
  empty Samples.fault_type = false /\
  enrich_tickets (Some Samples.tickets) None None None (Some Samples.fault_type) None
  = Raise AttributeError.
Proof. repeat split. Qed.

(** C8: the channel join and the fault-type join give no suffixes to
    [merge], so a column both tables have is renamed on both sides: the
    ticket's own [description] becomes [description_x] (and [severity]
    becomes [severity_x]), while the service-type join, which passes its
    suffixes, keeps the ticket column's name. *)
Theorem channel_and_fault_joins_rename_ticket_columns :
  (exists out : DataFrame,
     enrich_tickets (Some Samples.tickets) None (Some Samples.channel) None None None
     = Ok out /\
     has_column out "description" = false /\
     get out "description_x" = get Samples.tickets "description" /\
     get out "description_y" = Some [Str "phone"; NaN]) /\
  (exists out : DataFrame,
     enrich_tickets (Some Samples.faulty_tickets) None None None
       (Some Samples.fault_type) None = Ok out /\
     has_column out "severity" = false /\
     get out "severity_x" = get Samples.faulty_tickets "severity" /\
     get out "severity_y" = Some [Str "high"; NaN]) /\
  (exists out : DataFrame,
     enrich_tickets (Some Samples.tickets) None None (Some Samples.service_type)
       None None = Ok out /\
     get out "description" = get Samples.tickets "description" /\
     get out "description_service" = Some [Str "wireless"; Str "wireless"]).
Proof.
  split; [|split]; eexists; (split; [reflexivity|]); repeat split.
Qed.

(** ** The KPI aggregator *)

(** C1: for a group with no non-missing value the aggregator returns NaN,
    not 0.0: the mean of the group is NaN, NaN is true in [x or 0.0], and
    rounding keeps it.  Operator bo and manager zed of the sample table get
    NaN for both averages. *)
Theorem average_of_missing_values_is_nan :
  exists (p : performance) (bo : operator_kpi) (zed : manager_kpi),
    manager_operator_performance (Some Samples.evaluated) = Ok p /\
    dict_get (operators p) (Str "bo") = Some bo /\
    dict_get (managers p) (Str "zed") = Some zed /\
    op_avg_response_seconds bo = NaN /\
    op_avg_resolution_minutes bo = NaN /\
    mgr_avg_response_seconds zed = NaN /\
    mgr_avg_resolution_minutes zed = NaN.
Proof.
  do 3 eexists. split; [reflexivity|]. repeat split.
Qed.

(** *** Group keys *)

Lemma cell_eqb_sym (a b : cell) : cell_eqb a b = cell_eqb b a.
Proof.
  destruct a, b; simpl; try reflexivity.
  - apply String.eqb_sym.
  - apply Z.eqb_sym.
  - apply eq_true_iff_eq. rewrite !Qeq_bool_iff. split; intros E; now symmetry.
  - now destruct b, b0.
Qed.

Lemma cell_eqb_trans (a b c : cell) :
  cell_eqb a b = true -> cell_eqb b c = true -> cell_eqb a c = true.
Proof.
  destruct a, b; simpl; try discriminate; destruct c; simpl; try discriminate;
    try reflexivity.
  - rewrite !String.eqb_eq. congruence.
  - rewrite !Z.eqb_eq. congruence.
  - rewrite !Qeq_bool_iff. intros E1 E2. now rewrite E1.
  - destruct b, b0, b1; simpl; congruence.
Qed.

Lemma cell_eqb_notna (a b : cell) :
  cell_eqb a b = true -> notna a = true -> notna b = true.
Proof. unfold notna. destruct a, b; simpl; congruence. Qed.

Lemma filter_nothing {A : Type} (p : A -> bool) (l : list A) :
  (forall x : A, In x l -> p x = false) -> filter p l = [].
Proof.
  induction l as [|x l IH]; simpl; intros H; [reflexivity|].
  rewrite (H x) by now left. apply IH. intros y Hy. apply H. now right.
Qed.

Lemma filter_filter_implied {A : Type} (p q : A -> bool) (l : list A) :
  (forall x : A, p x = true -> q x = true) ->
  filter p (filter q l) = filter p l.
Proof.
  intros H. induction l as [|x l IH]; simpl; [reflexivity|].
  destruct (q x) eqn:Eq; simpl.
  - now rewrite IH.
  - destruct (p x) eqn:Ep; [|exact IH]. apply H in Ep. congruence.
Qed.

(** A key that is not missing is among the group keys once if it occurs in
    the column, and not at all if it does not. *)
Lemma group_keys_once (x : cell) (s : list cell) :
  notna x = true ->
  length (filter (cell_eqb x) (group_keys s))
  = if existsb (cell_eqb x) s then 1%nat else 0%nat.
Proof.
  intros Hx. induction s as [|c rest IH]; simpl; [reflexivity|].
  destruct (cell_eqb x c) eqn:Exc; simpl.
  - assert (Hc : isna c = false).
    { pose proof (cell_eqb_notna _ _ Exc Hx) as N. unfold notna in N.
      now destruct (isna c). }
    rewrite Hc. simpl. rewrite Exc. simpl. f_equal.
    rewrite filter_nothing; [reflexivity|].
    intros k Hk. apply filter_In in Hk. destruct Hk as [_ Hk].
    destruct (cell_eqb x k) eqn:Exk; [|reflexivity].
    rewrite cell_eqb_sym in Exk.
    rewrite (cell_eqb_trans _ _ _ Exk Exc) in Hk. discriminate.
  - rewrite <- IH.
    assert (E : filter (cell_eqb x)
                  (filter (fun k => negb (cell_eqb k c)) (group_keys rest))
                = filter (cell_eqb x) (group_keys rest)).
    { apply filter_filter_implied. intros k Exk.
      destruct (cell_eqb k c) eqn:Ekc; [|reflexivity].
      rewrite (cell_eqb_trans _ _ _ Exk Ekc) in Exc. discriminate. }
    destruct (isna c); simpl; [|rewrite Exc]; now rewrite E.
Qed.

Lemma existsb_nth (x : cell) (s : list cell) (i : nat) :
  (i < length s)%nat -> cell_eqb x (nth i s NaN) = true ->
  existsb (cell_eqb x) s = true.
Proof.
  intros Hi E. apply existsb_exists. exists (nth i s NaN).
  split; [now apply nth_In|exact E].
Qed.

Lemma cell_eqb_refl (a : cell) : cell_eqb a a = true.
Proof.
  destruct a; simpl; try reflexivity.
  - apply String.eqb_refl.
  - apply Z.eqb_refl.
  - now apply Qeq_bool_iff.
  - now destruct b.
Qed.

(** *** Counting the rows of all groups *)

Lemma list_sum_zero {A : Type} (l : list A) :
  list_sum (map (fun _ => 0%nat) l) = 0%nat.
Proof. induction l; simpl; auto. Qed.

Lemma list_sum_plus {A : Type} (a b : A -> nat) (l : list A) :
  list_sum (map (fun k => (a k + b k)%nat) l)
  = (list_sum (map a l) + list_sum (map b l))%nat.
Proof. induction l as [|x l IH]; simpl; [reflexivity|]. rewrite IH. lia. Qed.

Lemma list_sum_indicator {A : Type} (p : A -> bool) (l : list A) :
  list_sum (map (fun k => if p k then 1%nat else 0%nat) l) = length (filter p l).
Proof.
  induction l as [|x l IH]; simpl; [reflexivity|].
  rewrite IH. now destruct (p x).
Qed.

Lemma length_filter_cons {A : Type} (p : A -> bool) (x : A) (l : list A) :
  length (filter p (x :: l))
  = ((if p x then 1 else 0) + length (filter p l))%nat.
Proof. simpl. now destruct (p x). Qed.

(** Every row with a key is in exactly one group. *)
Lemma rows_of_all_groups (ks : list cell) (key : nat -> cell) (q : nat -> bool)
    (rows : list nat) :
  (forall i : nat, In i rows -> notna (key i) = true ->
     length (filter (cell_eqb (key i)) ks) = 1%nat) ->
  list_sum (map (fun k =>
              length (filter (fun i => notna (key i) && cell_eqb (key i) k && q i)
                        rows)) ks)
  = length (filter (fun i => notna (key i) && q i) rows).
Proof.
  induction rows as [|i rows IH]; intros H.
  - simpl. apply list_sum_zero.
  - rewrite length_filter_cons.
    rewrite <- IH by (intros j Hj; apply H; now right).
    assert (E : (if notna (key i) && q i then 1 else 0)%nat
                = list_sum (map (fun k =>
                    if notna (key i) && cell_eqb (key i) k && q i
                    then 1%nat else 0%nat) ks)).
    { destruct (notna (key i)) eqn:Ek; simpl.
      - destruct (q i).
        + transitivity (length (filter (cell_eqb (key i)) ks));
            [symmetry; apply H; [now left|exact Ek]|].
          rewrite <- list_sum_indicator.
          f_equal. apply map_ext. intros k. now rewrite andb_true_r.
        + rewrite <- (list_sum_zero ks) at 1. f_equal. apply map_ext.
          intros k. now rewrite andb_false_r.
      - now rewrite list_sum_zero. }
    rewrite E, <- list_sum_plus. f_equal. apply map_ext. intros k.
    now rewrite length_filter_cons.
Qed.

Lemma count_take (idx : list nat) (v : list cell) :
  count (take idx v)
  = Z.of_nat (length (filter (fun i => notna (nth i v NaN)) idx)).
Proof.
  unfold count, take. f_equal.
  induction idx as [|i idx IH]; simpl; [reflexivity|].
  destruct (notna (nth i v NaN)); simpl; now rewrite IH.
Qed.

Lemma filter_filter_andb {A : Type} (p q : A -> bool) (l : list A) :
  filter q (filter p l) = filter (fun x => p x && q x) l.
Proof.
  induction l as [|x l IH]; simpl; [reflexivity|].
  destruct (p x); simpl; [destruct (q x)|]; now rewrite IH.
Qed.

Lemma sum_of_nat {A : Type} (f : A -> nat) (l : list A) :
  fold_right Z.add 0%Z (map (fun k => Z.of_nat (f k)) l)
  = Z.of_nat (list_sum (map f l)).
Proof. induction l as [|x l IH]; simpl; [reflexivity|]. rewrite IH. lia. Qed.

(** The counts of all groups add up to the rows that have a key and a
    report identifier. *)
Lemma group_totals (s report_id : list cell) :
  fold_right Z.add 0%Z
    (map (fun k => count (take (group_indices s k) report_id)) (group_keys s))
  = rows_with s report_id.
Proof.
  unfold rows_with.
  rewrite <- (rows_of_all_groups (group_keys s) (fun i => nth i s NaN)
                (fun i => notna (nth i report_id NaN)) (seq 0 (length s))).
  - rewrite <- sum_of_nat. f_equal. apply map_ext. intros k.
    rewrite count_take. unfold group_indices. now rewrite filter_filter_andb.
  - intros i Hi Hk. apply in_seq in Hi.
    rewrite group_keys_once by exact Hk.
    rewrite (existsb_nth _ s i); [reflexivity|lia|apply cell_eqb_refl].
Qed.

Lemma filter_length_lt {A : Type} (p : A -> bool) (x : A) (l : list A) :
  In x l -> p x = false -> (length (filter p l) < length l)%nat.
Proof.
  induction l as [|y l IH]; simpl; [intros []|].
  intros [->|Hin] Hp.
  - rewrite Hp. pose proof (filter_length_le p l). lia.
  - specialize (IH Hin Hp). destruct (p y); simpl; lia.
Qed.

Lemma rows_with_lt (s report_id : list cell) (i : nat) :
  (i < length s)%nat -> nth i s NaN = NaN ->
  (rows_with s report_id < Z.of_nat (length s))%Z.
Proof.
  intros Hi E. unfold rows_with. apply inj_lt.
  set (p := fun j => notna (nth j s NaN) && notna (nth j report_id NaN)).
  assert (L : (length (filter p (seq 0 (length s)))
               < length (seq 0 (length s)))%nat).
  { apply filter_length_lt with (x := i).
    - apply in_seq. lia.
    - unfold p. now rewrite E. }
  now rewrite length_seq in L.
Qed.

Lemma rows_with_le (s report_id : list cell) :
  (rows_with s report_id <= Z.of_nat (length s))%Z.
Proof.
  unfold rows_with. apply inj_le.
  set (p := fun j => notna (nth j s NaN) && notna (nth j report_id NaN)).
  pose proof (filter_length_le p (seq 0 (length s))) as L.
  now rewrite length_seq in L.
Qed.

(** *** The totals the aggregator returns *)

Lemma mapM_map {A B C : Type} (f : A -> result B) (h : B -> C) (g : A -> C)
    (l : list A) (l' : list B) :
  (forall (a : A) (b : B), f a = Ok b -> h b = g a) ->
  mapM f l = Ok l' -> map h l' = map g l.
Proof.
  intros Hf. revert l'. induction l as [|x l IH]; simpl; intros l' H.
  - now inversion H.
  - destruct (f x) as [y|e] eqn:Ey; simpl in H; [|discriminate].
    destruct (mapM f l) as [ys|e] eqn:El; simpl in H; [|discriminate].
    inversion H; subst. simpl. now rewrite (Hf x y Ey), (IH ys eq_refl).
Qed.

Lemma manager_operator_performance_Ok (d : DataFrame) (p : performance) :
  empty d = false ->
  manager_operator_performance (Some d) = Ok p ->
  exists by_operator report_id : list cell,
    get d "operator" = Some by_operator /\
    get d "report_id" = Some report_id /\
    map (fun kv => (fst kv, op_total_tickets (snd kv))) (operators p)
    = map (fun k => (k, count (take (group_indices by_operator k) report_id)))
        (group_keys by_operator) /\
    match get d "manager" with
    | Some by_manager =>
        map (fun kv => (fst kv, mgr_total_tickets (snd kv))) (managers p)
        = map (fun k => (k, count (take (group_indices by_manager k) report_id)))
            (group_keys by_manager)
    | None => managers p = []
    end.
Proof.
  intros Hne H. unfold manager_operator_performance, none_or_empty in H.
  rewrite Hne in H. unfold getitem in H.
  destruct (get d "operator") as [by_operator|]; simpl in H; [|discriminate].
  destruct (get d "report_id") as [report_id|]; simpl in H; [|discriminate].
  destruct (get d "response_seconds") as [rs|]; simpl in H; [|discriminate].
  destruct (get d "resolution_minutes") as [rm|]; simpl in H; [|discriminate].
  destruct (get d "response_sla_pass") as [pass|]; simpl in H; [|discriminate].
  destruct (mapM _ (group_keys by_operator)) as [ops|e] eqn:Eops;
    simpl in H; [|discriminate].
  exists by_operator, report_id. split; [reflexivity|]. split; [reflexivity|].
  assert (Hops : map (fun kv => (fst kv, op_total_tickets (snd kv))) ops
                 = map (fun k => (k, count (take (group_indices by_operator k)
                                               report_id)))
                     (group_keys by_operator)).
  { eapply mapM_map; [|exact Eops]. intros a b Hab. simpl in Hab.
    destruct (mean (take (group_indices by_operator a) rs)); simpl in Hab;
      [|discriminate].
    destruct (mean (take (group_indices by_operator a) rm)); simpl in Hab;
      [|discriminate].
    destruct (pass_rate (take (group_indices by_operator a) pass));
      simpl in Hab; [|discriminate].
    now inversion Hab. }
  destruct (get d "manager") as [by_manager|].
  - destruct (mapM _ (group_keys by_manager)) as [mgrs|e] eqn:Emgrs;
      simpl in H; [|discriminate].
    inversion H; subst p. simpl. split; [exact Hops|].
    eapply mapM_map; [|exact Emgrs]. intros a b Hab. simpl in Hab.
    destruct (mean (take (group_indices by_manager a) rs)); simpl in Hab;
      [|discriminate].
    destruct (mean (take (group_indices by_manager a) rm)); simpl in Hab;
      [|discriminate].
    now inversion Hab.
  - simpl in H. inversion H; subst p. simpl. split; [exact Hops|reflexivity].
Qed.

Lemma group_keys_notna (s : list cell) (k : cell) :
  In k (group_keys s) -> notna k = true.
Proof.
  induction s as [|c rest IH]; simpl; [intros []|].
  assert (Hks : In k (filter (fun k' => negb (cell_eqb k' c)) (group_keys rest))
                -> notna k = true)
    by (intros Hin; apply filter_In in Hin; now apply IH).
  destruct (isna c) eqn:Ec; [exact Hks|].
  intros [<-|Hin]; [|now apply Hks]. unfold notna. now rewrite Ec.
Qed.

Lemma group_indices_notna (s : list cell) (k : cell) (i : nat) :
  In i (group_indices s k) -> notna (nth i s NaN) = true.
Proof.
  unfold group_indices. intros Hin. apply filter_In in Hin.
  destruct Hin as [_ Hin]. now apply andb_true_iff in Hin.
Qed.

Lemma column_length (d : DataFrame) (c : string) (v : list cell) :
  well_formed d -> get d c = Some v -> length v = nrows d.
Proof.
  intros Hwf E. apply lookup_In in E. destruct E as [c' Hin].
  unfold well_formed in Hwf. rewrite Forall_forall in Hwf.
  exact (Hwf _ Hin).
Qed.

Lemma totals_of_pairs {V : Type} (total : V -> Z) (g : cell -> Z)
    (l : list (cell * V)) (ks : list cell) :
  map (fun kv => (fst kv, total (snd kv))) l = map (fun k => (k, g k)) ks ->
  map (fun kv => total (snd kv)) l = map g ks.
Proof.
  intros E. apply (f_equal (map snd)) in E. rewrite !map_map in E. exact E.
Qed.

(** C9: when the table has a manager column, a row whose manager is missing
    is in no manager group: every manager's [total_tickets] counts rows of
    that manager only, the totals of all managers add up to the rows that
    have a manager (and a report identifier), the totals of all operators
    still add up to the rows that have an operator, whatever their manager,
    and as soon as one row has no manager the managers' totals add up to
    less than the number of rows. *)
Theorem managers_exclude_rows_without_manager (d : DataFrame) (p : performance)
    (by_manager : list cell) :
  empty d = false -> well_formed d ->
  get d "manager" = Some by_manager ->
  manager_operator_performance (Some d) = Ok p ->
  exists by_operator report_id : list cell,
    get d "operator" = Some by_operator /\
    get d "report_id" = Some report_id /\
    (forall (k : cell) (kpi : manager_kpi),
       In (k, kpi) (managers p) ->
       notna k = true /\
       mgr_total_tickets kpi = count (take (group_indices by_manager k) report_id)) /\
    (forall (i : nat) (k : cell),
       nth i by_manager NaN = NaN -> ~ In i (group_indices by_manager k)) /\
    manager_tickets p = rows_with by_manager report_id /\
    operator_tickets p = rows_with by_operator report_id /\
    (manager_tickets p <= Z.of_nat (nrows d))%Z /\
    ((exists i : nat, (i < nrows d)%nat /\ nth i by_manager NaN = NaN) ->
     (manager_tickets p < Z.of_nat (nrows d))%Z).
Proof.
  intros Hne Hwf Em H.
  destruct (manager_operator_performance_Ok d p Hne H)
    as (by_operator & report_id & Eo & Er & Hops & Hmgrs).
  rewrite Em in Hmgrs.
  pose proof (column_length d _ _ Hwf Em) as Hlen.
  assert (Tm : manager_tickets p = rows_with by_manager report_id).
  { unfold manager_tickets. rewrite (totals_of_pairs _ _ _ _ Hmgrs).
    apply group_totals. }
  exists by_operator, report_id.
  split; [exact Eo|]. split; [exact Er|]. split; [|split; [|split; [|split; [|split]]]].
  - intros k kpi Hin.
    apply (in_map (fun kv => (fst kv, mgr_total_tickets (snd kv)))) in Hin.
    rewrite Hmgrs in Hin. simpl in Hin. apply in_map_iff in Hin.
    destruct Hin as [k' [E Hk']]. inversion E; subst k'.
    split; [now apply group_keys_notna in Hk'|reflexivity].
  - intros i k E Hin. apply group_indices_notna in Hin.
    rewrite E in Hin. discriminate.
  - exact Tm.
  - unfold operator_tickets. rewrite (totals_of_pairs _ _ _ _ Hops).
    apply group_totals.
  - rewrite Tm, <- Hlen. apply rows_with_le.
  - intros [i [Hi E]]. rewrite Tm, <- Hlen.
    apply rows_with_lt with (i := i); [lia|exact E].
Qed.

(** * Further properties *)

(** ** Stripping *)

Lemma lstrip_head (s : string) (c : ascii) (t : string) :
  Py.lstrip s = String c t -> Py.is_space c = false.
Proof.
  induction s as [|a s IH]; simpl; [discriminate|].
  destruct (Py.is_space a) eqn:Ea; [exact IH|].
  intros E; inversion E; subst. exact Ea.
Qed.

Lemma lstrip_fixed (s : string) :
  match s with
  | EmptyString => True
  | String c _ => Py.is_space c = false
  end -> Py.lstrip s = s.
Proof. destruct s as [|c t]; simpl; [reflexivity|]. now intros ->. Qed.

Lemma lstrip_idempotent (s : string) : Py.lstrip (Py.lstrip s) = Py.lstrip s.
Proof.
  apply lstrip_fixed. destruct (Py.lstrip s) as [|c t] eqn:E; [exact I|].
  exact (lstrip_head _ _ _ E).
Qed.

Lemma rstrip_idempotent (s : string) : Py.rstrip (Py.rstrip s) = Py.rstrip s.
Proof.
  induction s as [|c s IH]; simpl; [reflexivity|].
  destruct (Py.rstrip s) as [|a t] eqn:E.
  - destruct (Py.is_space c) eqn:Ec; simpl; [reflexivity|]. now rewrite Ec.
  - change (Py.rstrip (String c (String a t)))
      with (match Py.rstrip (String a t) with
            | EmptyString =>
                if Py.is_space c then EmptyString else String c EmptyString
            | String x y => String c (String x y)
            end).
    now rewrite IH.
Qed.

(** [rstrip] keeps a first character that is not white space. *)
Lemma rstrip_head (c : ascii) (t : string) :
  Py.is_space c = false ->
  exists t' : string, Py.rstrip (String c t) = String c t'.
Proof.
  intros Ec. simpl. destruct (Py.rstrip t); [rewrite Ec|]; eauto.
Qed.

Lemma lstrip_strip (s : string) : Py.lstrip (Py.strip s) = Py.strip s.
Proof.
  unfold Py.strip. apply lstrip_fixed.
  destruct (Py.lstrip s) as [|c t] eqn:E; [exact I|].
  pose proof (lstrip_head _ _ _ E) as Ec.
  destruct (rstrip_head c t Ec) as [t' ->]. exact Ec.
Qed.

Lemma rstrip_strip (s : string) : Py.rstrip (Py.strip s) = Py.strip s.
Proof. unfold Py.strip. apply rstrip_idempotent. Qed.

Lemma strip_idempotent (s : string) : Py.strip (Py.strip s) = Py.strip s.
Proof.
  unfold Py.strip at 1. now rewrite lstrip_strip, rstrip_strip.
Qed.


(** ** The table loader *)

Lemma strip_cell_stripped (x : cell) : is_stripped (strip_cell x).
Proof. destruct x; simpl; auto. apply strip_idempotent. Qed.

Lemma load_tables_read (data_dir : string -> option DataFrame) (name : string)
    (t : DataFrame) :
  table (load_tables data_dir) name = Some t ->
  In name ["service_data"; "employees"; "service_type"; "channel";
           "fault_type"; "location"] /\
  t = read_table data_dir (name ++ ".csv")%string.
Proof.
  unfold load_tables, table.
  repeat match goal with
         | |- context [String.eqb name ?n] =>
             destruct (String.eqb_spec name n) as [->|_];
             [intros E; inversion E; subst; split; [simpl; auto 10|reflexivity]|]
         end.
  discriminate.
Qed.

(** Every text cell of a loaded table is free of surrounding white space,
    whichever of the tables it is and whatever the file held. *)
Theorem load_tables_strips_every_cell (data_dir : string -> option DataFrame)
    (name : string) (t : DataFrame) (c : string) (v : list cell) (x : cell) :
  table (load_tables data_dir) name = Some t ->
  In (c, v) (columns t) -> In x v -> is_stripped x.
Proof.
  intros H Hc Hx. apply load_tables_read in H. destruct H as [_ ->].
  unfold read_table in Hc. destruct (data_dir _) as [t0|]; [|destruct Hc].
  simpl in Hc. apply in_map_iff in Hc. destruct Hc as [[c0 v0] [E _]].
  inversion E; subst. apply in_map_iff in Hx. destruct Hx as [y [<- _]].
  apply strip_cell_stripped.
Qed.

(** The loader always returns its six tables; a file that is not there
    gives the empty table under its name, and no other name is a key. *)
Theorem load_tables_tolerates_missing_files (data_dir : string -> option DataFrame)
    (name : string) :
  (In name ["service_data"; "employees"; "service_type"; "channel";
            "fault_type"; "location"] ->
   exists t : DataFrame,
     table (load_tables data_dir) name = Some t /\
     (data_dir (name ++ ".csv")%string = None -> t = empty_frame) /\
     (forall t0 : DataFrame,
        data_dir (name ++ ".csv")%string = Some t0 ->
        labels t = labels t0 /\ nrows t = nrows t0)) /\
  (~ In name ["service_data"; "employees"; "service_type"; "channel";
              "fault_type"; "location"] ->
   table (load_tables data_dir) name = None).
Proof.
  split.
  - intros Hin. simpl in Hin.
    assert (R : forall file : string,
              (data_dir file = None -> read_table data_dir file = empty_frame) /\
              (forall t0 : DataFrame,
                 data_dir file = Some t0 ->
                 labels (read_table data_dir file) = labels t0 /\
                 nrows (read_table data_dir file) = nrows t0)).
    { intros file. unfold read_table. split.
      - now intros ->.
      - intros t0 ->. split; [|reflexivity].
        unfold labels, applymap. simpl. rewrite map_map. reflexivity. }
    repeat (destruct Hin as [<-|Hin];
            [eexists; split; [reflexivity|apply R]|]).
    destruct Hin.
  - intros Hn. destruct (table (load_tables data_dir) name) as [t|] eqn:E;
      [|reflexivity].
    apply load_tables_read in E. destruct E as [E _]. contradiction.
Qed.

Lemma applymap_strip_typed (t0 : DataFrame) :
  well_formed t0 -> string_typed t0 ->
  well_formed (applymap strip_cell t0) /\ string_typed (applymap strip_cell t0).
Proof.
  unfold well_formed, string_typed, applymap. simpl.
  rewrite !Forall_forall. intros Hwf Hty. split.
  - intros [c v] Hin. apply in_map_iff in Hin. destruct Hin as [[c0 v0] [E Hin]].
    inversion E; subst. simpl. rewrite length_map. exact (Hwf _ Hin).
  - intros [c v] Hin. apply in_map_iff in Hin. destruct Hin as [[c0 v0] [E Hin]].
    inversion E; subst. simpl. specialize (Hty _ Hin). simpl in Hty.
    rewrite forallb_forall in *. intros x Hx. apply in_map_iff in Hx.
    destruct Hx as [y [<- Hy]]. specialize (Hty y Hy). now destruct y.
Qed.

(** A loaded table is a raw table in the sense of the normalizer: when the
    file is read as text, column for column as long as the index, so is the
    table the loader returns. *)
Theorem load_tables_keeps_text_tables (data_dir : string -> option DataFrame)
    (name : string) (t : DataFrame) :
  table (load_tables data_dir) name = Some t ->
  (forall t0 : DataFrame,
     data_dir (name ++ ".csv")%string = Some t0 -> well_formed t0 /\ string_typed t0) ->
  well_formed t /\ string_typed t.
Proof.
  intros H Hfile. apply load_tables_read in H. destruct H as [_ ->].
  unfold read_table. destruct (data_dir _) as [t0|] eqn:E.
  - destruct (Hfile t0 eq_refl) as [Hwf Hty]. now apply applymap_strip_typed.
  - split; constructor.
Qed.


(** ** Column names *)

Lemma lower_char_space (c : ascii) :
  Py.is_space c = false -> Py.is_space (Py.lower_char c) = false.
Proof. destruct c as [[] [] [] [] [] [] [] []]; intros H; exact H || reflexivity. Qed.

Lemma lower_char_idempotent (c : ascii) :
  Py.lower_char (Py.lower_char c) = Py.lower_char c.
Proof. destruct c as [[] [] [] [] [] [] [] []]; reflexivity. Qed.

Lemma underscore_space (c : ascii) :
  Py.is_space c = false ->
  Py.is_space (if Ascii.eqb c " " then "_"%char else c) = false.
Proof. destruct c as [[] [] [] [] [] [] [] []]; intros H; exact H || reflexivity. Qed.

Lemma lower_char_underscore (c : ascii) :
  Py.lower_char (if Ascii.eqb c " " then "_"%char else c)
  = if Ascii.eqb (Py.lower_char c) " " then "_"%char else Py.lower_char c.
Proof. destruct c as [[] [] [] [] [] [] [] []]; reflexivity. Qed.

Lemma underscore_idempotent (c : ascii) :
  (if Ascii.eqb (if Ascii.eqb c " " then "_"%char else c) " "
   then "_"%char else (if Ascii.eqb c " " then "_"%char else c))
  = if Ascii.eqb c " " then "_"%char else c.
Proof. destruct c as [[] [] [] [] [] [] [] []]; reflexivity. Qed.

Section Charwise.

(** A function that maps a string character by character, never turning a
    character that is not white space into white space. *)
Variable g : string -> string.
Variable f : ascii -> ascii.
Hypothesis g_nil : g EmptyString = EmptyString.
Hypothesis g_cons : forall (c : ascii) (s : string), g (String c s) = String (f c) (g s).
Hypothesis f_space : forall c : ascii, Py.is_space c = false -> Py.is_space (f c) = false.

Lemma charwise_lstrip (x : string) : Py.lstrip x = x -> Py.lstrip (g x) = g x.
Proof using g_nil g_cons f_space.
  destruct x as [|c t]; intros E; [now rewrite g_nil|].
  rewrite g_cons. simpl. now rewrite (f_space c (lstrip_head _ _ _ E)).
Qed.

Lemma charwise_rstrip (x : string) : Py.rstrip x = x -> Py.rstrip (g x) = g x.
Proof using g_nil g_cons f_space.
  induction x as [|c t IH]; intros E; [now rewrite g_nil|].
  rewrite g_cons. simpl in E. simpl.
  destruct (Py.rstrip t) as [|a u] eqn:Et.
  - destruct (Py.is_space c) eqn:Ec; [discriminate|].
    inversion E; subst t. rewrite g_nil. simpl. now rewrite (f_space c Ec).
  - inversion E; subst t. rewrite (IH eq_refl). rewrite g_cons. reflexivity.
Qed.

End Charwise.

Lemma strip_lower (x : string) :
  Py.strip x = x -> Py.strip (Py.lower x) = Py.lower x.
Proof.
  intros E.
  assert (L : Py.lstrip x = x) by (rewrite <- E; apply lstrip_strip).
  assert (R : Py.rstrip x = x) by (rewrite <- E; apply rstrip_strip).
  unfold Py.strip.
  rewrite (charwise_lstrip Py.lower Py.lower_char eq_refl (fun _ _ => eq_refl)
             lower_char_space x L).
  exact (charwise_rstrip Py.lower Py.lower_char eq_refl (fun _ _ => eq_refl)
           lower_char_space x R).
Qed.

Lemma strip_underscore (x : string) :
  Py.strip x = x -> Py.strip (Py.replace " " "_" x) = Py.replace " " "_" x.
Proof.
  intros E.
  assert (L : Py.lstrip x = x) by (rewrite <- E; apply lstrip_strip).
  assert (R : Py.rstrip x = x) by (rewrite <- E; apply rstrip_strip).
  unfold Py.strip.
  rewrite (charwise_lstrip (Py.replace " " "_")
             (fun c => if Ascii.eqb c " " then "_"%char else c)
             eq_refl (fun _ _ => eq_refl) underscore_space x L).
  exact (charwise_rstrip (Py.replace " " "_")
           (fun c => if Ascii.eqb c " " then "_"%char else c)
           eq_refl (fun _ _ => eq_refl) underscore_space x R).
Qed.

Lemma lower_idempotent (x : string) : Py.lower (Py.lower x) = Py.lower x.
Proof.
  induction x as [|c t IH]; simpl; [reflexivity|].
  now rewrite lower_char_idempotent, IH.
Qed.

Lemma lower_underscore (x : string) :
  Py.lower (Py.replace " " "_" x) = Py.replace " " "_" (Py.lower x).
Proof.
  induction x as [|c t IH]; simpl; [reflexivity|].
  now rewrite lower_char_underscore, IH.
Qed.

Lemma underscore_twice (x : string) :
  Py.replace " " "_" (Py.replace " " "_" x) = Py.replace " " "_" x.
Proof.
  induction x as [|c t IH]; simpl; [reflexivity|].
  now rewrite underscore_idempotent, IH.
Qed.

Lemma snake_case_canonical (s : string) :
  Py.strip (snake_case s) = snake_case s /\
  Py.lower (snake_case s) = snake_case s /\
  Py.replace " " "_" (snake_case s) = snake_case s /\
  snake_case (snake_case s) = snake_case s.
Proof.
  assert (S : Py.strip (snake_case s) = snake_case s).
  { unfold snake_case. apply strip_underscore, strip_lower, strip_idempotent. }
  assert (L : Py.lower (snake_case s) = snake_case s).
  { unfold snake_case. now rewrite lower_underscore, lower_idempotent. }
  assert (U : Py.replace " " "_" (snake_case s) = snake_case s).
  { unfold snake_case. apply underscore_twice. }
  repeat split; try assumption.
  unfold snake_case at 1. now rewrite S, L, U.
Qed.

(** A canonical column name is left alone by each step of the renaming, so
    renaming is idempotent: a table that is normalized twice, or a reference
    table renamed at every join, keeps the names of the first renaming. *)
Theorem snake_case_idempotent (s : string) :
  let name := snake_case s in
  Py.strip name = name /\
  Py.lower name = name /\
  Py.replace " " "_" name = name /\
  snake_case name = name.
Proof. exact (snake_case_canonical s). Qed.


(** ** Shape of the normalized table *)

Lemma has_column_get (d : DataFrame) (c : string) :
  has_column d c = match get d c with Some _ => true | None => false end.
Proof.
  unfold has_column, labels, get, Py.mem.
  induction (columns d) as [|[c1 v1] rest IH]; simpl; [reflexivity|].
  destruct (String.eqb c c1); [reflexivity|exact IH].
Qed.

Lemma labels_assign (c : string) (v : list cell) (cols : list (string * list cell)) :
  map fst (assign c v cols)
  = if Py.mem c (map fst cols) then map fst cols else map fst cols ++ [c].
Proof.
  unfold Py.mem. induction cols as [|[c1 v1] rest IH]; simpl; [reflexivity|].
  destruct (String.eqb c c1); simpl; [reflexivity|].
  rewrite IH. now destruct (existsb (String.eqb c) (map fst rest)).
Qed.

Lemma labels_setitem (d : DataFrame) (c : string) (v : list cell) :
  labels (setitem d c v)
  = if has_column d c then labels d else labels d ++ [c].
Proof. unfold labels, setitem, has_column. simpl. apply labels_assign. Qed.

Lemma setitem_well_formed (d : DataFrame) (c : string) (v : list cell) :
  well_formed d -> length v = nrows d -> well_formed (setitem d c v).
Proof.
  unfold well_formed, setitem. simpl. intros Hwf Hv.
  induction (columns d) as [|[c1 v1] rest IH]; simpl.
  - constructor; [exact Hv|constructor].
  - inversion Hwf; subst. destruct (String.eqb c c1); constructor; auto.
Qed.

Lemma rename_well_formed (f : string -> string) (d : DataFrame) :
  well_formed d -> well_formed (rename f d).
Proof.
  unfold well_formed, rename. simpl. rewrite !Forall_forall.
  intros Hwf [c v] Hin. apply in_map_iff in Hin.
  destruct Hin as [[c0 v0] [E Hin]]. inversion E; subst. exact (Hwf _ Hin).
Qed.

Lemma parse_time_columns_well_formed (cols : list string) (d : DataFrame) :
  well_formed d ->
  well_formed (fold_left (fun d col =>
                            match get d col with
                            | Some v => setitem d col (apply parse_dt v)
                            | None => d
                            end) cols d).
Proof.
  revert d. induction cols as [|col cols IH]; simpl; intros d Hwf; [exact Hwf|].
  apply IH. destruct (get d col) as [v|] eqn:E; [|exact Hwf].
  apply setitem_well_formed; [exact Hwf|].
  unfold apply. rewrite length_map. exact (column_length d col v Hwf E).
Qed.

Lemma parse_time_columns_labels (cols : list string) (d : DataFrame) :
  labels (fold_left (fun d col =>
                       match get d col with
                       | Some v => setitem d col (apply parse_dt v)
                       | None => d
                       end) cols d) = labels d.
Proof.
  revert d. induction cols as [|col cols IH]; simpl; intros d; [reflexivity|].
  rewrite IH. destruct (get d col) as [v|] eqn:E; [|reflexivity].
  rewrite labels_setitem, has_column_get, E. reflexivity.
Qed.

Lemma length_split_expand_last (sep : ascii) (s : list cell) :
  length (split_expand_last sep s) = length s.
Proof. unfold split_expand_last. now rewrite !length_map. Qed.

Lemma labels_canonical_setitem (d : DataFrame) (c : string) (v : list cell) :
  Forall (fun l => snake_case l = l) (labels d) -> snake_case c = c ->
  Forall (fun l => snake_case l = l) (labels (setitem d c v)).
Proof.
  intros Hd Hc. rewrite labels_setitem. destruct (has_column d c); [exact Hd|].
  apply Forall_app. split; [exact Hd|]. constructor; [exact Hc|constructor].
Qed.

(** The normalized table has the rows of the raw one, a column [operator]
    and a column [service_code], canonical column names only, and columns as
    long as the index whenever the raw table has. *)
Theorem clean_tickets_shape (df : DataFrame) :
  empty df = false ->
  let out := clean_tickets (Some df) in
  nrows out = nrows df /\
  has_column out "operator" = true /\
  has_column out "service_code" = true /\
  Forall (fun c => snake_case c = c) (labels out) /\
  (well_formed df -> well_formed out).
Proof.
  intros Hne. cbv zeta. unfold clean_tickets, none_or_empty. rewrite Hne.
  set (d1 := fold_left _ time_columns (rename snake_case df)).
  assert (N1 : nrows d1 = nrows df)
    by (unfold d1; now rewrite parse_time_columns_nrows).
  assert (C1 : Forall (fun c => snake_case c = c) (labels d1)).
  { unfold d1. rewrite parse_time_columns_labels. unfold labels, rename. simpl.
    rewrite map_map. simpl. apply Forall_forall. intros c Hc.
    apply in_map_iff in Hc. destruct Hc as [cv [<- _]].
    apply snake_case_canonical. }
  assert (W1 : well_formed df -> well_formed d1)
    by (intros Hwf; apply parse_time_columns_well_formed, rename_well_formed, Hwf).
  set (d2 := match get d1 "operator" with
             | Some v => setitem d1 "operator" _
             | None => _
             end).
  assert (N2 : nrows d2 = nrows df) by (unfold d2; now destruct (get d1 "operator")).
  assert (O2 : get d2 "operator" <> None).
  { unfold d2. destruct (get d1 "operator"); unfold setitem_scalar;
      rewrite get_setitem_same; discriminate. }
  assert (C2 : Forall (fun c => snake_case c = c) (labels d2)).
  { unfold d2. destruct (get d1 "operator"); unfold setitem_scalar;
      now apply labels_canonical_setitem. }
  assert (W2 : well_formed df -> well_formed d2).
  { intros Hwf. unfold d2. destruct (get d1 "operator") as [v|] eqn:E.
    - apply setitem_well_formed; [now apply W1|].
      unfold fillna, replace_empty_with_nan. rewrite !length_map.
      exact (column_length d1 _ v (W1 Hwf) E).
    - unfold setitem_scalar. apply setitem_well_formed; [now apply W1|].
      apply repeat_length. }
  clearbody d2. clear d1 N1 C1 W1.
  destruct (get d2 "report_id") as [v|] eqn:E; unfold setitem_scalar.
  - split; [exact N2|]. split; [|split; [|split]].
    + rewrite has_column_get. repeat other_column.
      now destruct (get d2 "operator").
    + rewrite has_column_get. now rewrite get_setitem_same.
    + now repeat apply labels_canonical_setitem.
    + intros Hwf.
      assert (L : length (str_map Py.strip (astype_str v)) = nrows d2).
      { unfold str_map, astype_str. rewrite !length_map.
        exact (column_length d2 _ v (W2 Hwf) E). }
      apply setitem_well_formed.
      * apply setitem_well_formed; [now apply W2|exact L].
      * unfold fillna. rewrite length_map, length_split_expand_last. exact L.
  - split; [exact N2|]. split; [|split; [|split]].
    + rewrite has_column_get. other_column. now destruct (get d2 "operator").
    + rewrite has_column_get. now rewrite get_setitem_same.
    + now apply labels_canonical_setitem.
    + intros Hwf. apply setitem_well_formed; [now apply W2|].
      apply repeat_length.
Qed.


(** ** Time columns *)

Lemma parse_dt_time (val : cell) : is_time (parse_dt val) = true.
Proof.
  unfold parse_dt. destruct (isna val || _); [reflexivity|].
  destruct (first_parsed formats val); [reflexivity|].
  now destruct (to_datetime_infer val).
Qed.

Lemma parse_time_columns_same (cols : list string) (d : DataFrame) (c : string) :
  NoDup cols -> In c cols ->
  get (fold_left (fun d col =>
                    match get d col with
                    | Some v => setitem d col (apply parse_dt v)
                    | None => d
                    end) cols d) c
  = option_map (apply parse_dt) (get d c).
Proof.
  revert d. induction cols as [|col cols IH]; simpl; intros d Hnd Hin;
    [destruct Hin|].
  inversion Hnd as [|x l Hnotin Hnd']; subst.
  destruct Hin as [->|Hin].
  - rewrite parse_time_columns_other.
    + destruct (get d c) as [v|] eqn:E; simpl.
      * apply get_setitem_same.
      * exact E.
    + unfold Py.mem. destruct (existsb (String.eqb c) cols) eqn:Ex; [|reflexivity].
      apply existsb_exists in Ex. destruct Ex as [y [Hy Ey]].
      apply String.eqb_eq in Ey. subst y. contradiction.
  - rewrite (IH _ Hnd' Hin).
    assert (Hne : String.eqb c col = false).
    { apply String.eqb_neq. intros ->. contradiction. }
    destruct (get d col); [|reflexivity]. now rewrite get_setitem_other.
Qed.

Lemma clean_tickets_time_column (df : DataFrame) (c : string) :
  empty df = false -> In c time_columns ->
  get (clean_tickets (Some df)) c
  = option_map (apply parse_dt) (get (rename snake_case df) c).
Proof.
  intros Hne Hc. unfold clean_tickets, none_or_empty. rewrite Hne.
  rewrite <- (parse_time_columns_same time_columns (rename snake_case df) c);
    [|repeat constructor; simpl; intuition discriminate|exact Hc].
  set (d1 := fold_left _ time_columns (rename snake_case df)).
  assert (E1 : String.eqb c "operator" = false /\
               String.eqb c "report_id" = false /\
               String.eqb c "service_code" = false).
  { simpl in Hc. repeat (destruct Hc as [<-|Hc]; [now repeat split|]).
    destruct Hc. }
  destruct E1 as (Eo & Er & Es).
  set (d2 := match get d1 "operator" with
             | Some v => setitem d1 "operator" _
             | None => _
             end).
  assert (E2 : get d2 c = get d1 c).
  { unfold d2. destruct (get d1 "operator"); unfold setitem_scalar;
      now rewrite get_setitem_other. }
  destruct (get d2 "report_id"); unfold setitem_scalar;
    repeat (rewrite get_setitem_other by assumption); exact E2.
Qed.

(** After normalization every cell of the four time columns is a timestamp
    or missing, never the raw text: it is [parse_dt] of the raw cell, and a
    raw cell that is missing or blank is missing afterwards. *)
Theorem clean_tickets_parses_time_columns (df : DataFrame) (c : string) (i : nat) :
  empty df = false -> In c time_columns ->
  let out := clean_tickets (Some df) in
  is_time (cell_at out i c) = true /\
  forall raw : cell,
    row_at (rename snake_case df) i c = Some raw ->
    cell_at out i c = parse_dt raw /\
    (raw = NaN \/ (exists s : string, raw = Str s /\ Py.strip s = "") ->
     cell_at out i c = NaN).
Proof.
  intros Hne Hc. cbv zeta.
  pose proof (clean_tickets_time_column df c Hne Hc) as G.
  unfold cell_at, row_get, row_at. rewrite G.
  destruct (get (rename snake_case df) c) as [v|] eqn:Ev; simpl.
  - assert (P : nth i (apply parse_dt v) NaN = parse_dt (nth i v NaN)).
    { destruct (Nat.lt_ge_cases i (length v)) as [Hi|Hi].
      - unfold apply. now rewrite nth_map_cell by exact Hi.
      - rewrite !nth_overflow; [reflexivity|exact Hi|].
        unfold apply. now rewrite length_map. }
    rewrite P. split; [apply parse_dt_time|].
    intros raw E. inversion E; subst raw. split; [reflexivity|].
    intros [->|[s [-> Es]]]; unfold parse_dt; simpl; [reflexivity|].
    now rewrite Es.
  - split; [reflexivity|]. intros raw E. discriminate.
Qed.

Lemma first_parsed_app (fmts1 : list string) (fmt : string) (fmts2 : list string)
    (val : cell) (t : Z) :
  (forall f : string, In f fmts1 -> to_datetime f val = None) ->
  to_datetime fmt val = Some t ->
  first_parsed (fmts1 ++ fmt :: fmts2) val = Some t.
Proof.
  intros Hnone Hfmt. induction fmts1 as [|f fmts1 IH]; simpl.
  - now rewrite Hfmt.
  - rewrite (Hnone f) by now left. apply IH. intros g Hg. apply Hnone. now right.
Qed.

Lemma first_parsed_none (fmts : list string) (val : cell) :
  (forall f : string, In f fmts -> to_datetime f val = None) ->
  first_parsed fmts val = None.
Proof.
  induction fmts as [|f fmts IH]; simpl; intros H; [reflexivity|].
  rewrite (H f) by now left. apply IH. intros g Hg. apply H. now right.
Qed.

(** The order of the formats is a tie-break: a cell that is not blank gets
    the timestamp of the first listed format that parses it, whatever the
    later formats would give, and format inference is consulted only when
    no format parses it. *)
Theorem parse_dt_format_order (val : cell) :
  isna val = false -> Py.strip (py_str val) <> "" ->
  (forall (before : list string) (fmt : string) (after : list string) (t : Z),
     formats = before ++ fmt :: after ->
     (forall f : string, In f before -> to_datetime f val = None) ->
     to_datetime fmt val = Some t ->
     parse_dt val = Ts t) /\
  ((forall f : string, In f formats -> to_datetime f val = None) ->
   parse_dt val = match to_datetime_infer val with
                  | Some t => Ts t
                  | None => NaN
                  end).
Proof.
  intros Hna Hblank.
  assert (E : String.eqb (Py.strip (py_str val)) "" = false)
    by now apply String.eqb_neq.
  split.
  - intros before fmt after t Hf Hnone Hfmt. unfold parse_dt.
    rewrite Hna, E. cbn [orb]. rewrite Hf.
    now rewrite (first_parsed_app before fmt after val t Hnone Hfmt).
  - intros Hnone. unfold parse_dt. rewrite Hna, E. cbn [orb].
    now rewrite (first_parsed_none formats val Hnone).
Qed.


(** ** Report identifiers and service codes *)

Lemma clean_tickets_report_id (df : DataFrame) :
  empty df = false ->
  let out := clean_tickets (Some df) in
  match get (rename snake_case df) "report_id" with
  | Some v =>
      get out "report_id" = Some (str_map Py.strip (astype_str v)) /\
      get out "service_code"
      = Some (fillna (Str "")
                (split_expand_last "-" (str_map Py.strip (astype_str v))))
  | None =>
      get out "report_id" = None /\
      get out "service_code" = Some (repeat (Str "") (nrows df))
  end.
Proof.
  intros Hne. cbv zeta. unfold clean_tickets, none_or_empty. rewrite Hne.
  set (d1 := fold_left _ time_columns (rename snake_case df)).
  assert (E1 : get d1 "report_id" = get (rename snake_case df) "report_id")
    by (apply parse_time_columns_other; reflexivity).
  assert (N1 : nrows d1 = nrows df)
    by (unfold d1; now rewrite parse_time_columns_nrows).
  set (d2 := match get d1 "operator" with
             | Some v => setitem d1 "operator" _
             | None => _
             end).
  assert (E2 : get d2 "report_id" = get (rename snake_case df) "report_id").
  { rewrite <- E1. unfold d2. destruct (get d1 "operator");
      unfold setitem_scalar; now rewrite get_setitem_other. }
  assert (N2 : nrows d2 = nrows df) by (unfold d2; now destruct (get d1 "operator")).
  rewrite E2. destruct (get (rename snake_case df) "report_id") as [v|].
  - split; [other_column|]; apply get_setitem_same.
  - unfold setitem_scalar. split; [now other_column|].
    rewrite N2. apply get_setitem_same.
Qed.

Lemma identifiers_text (v : list cell) :
  str_map Py.strip (astype_str v)
  = map Str (map (fun c => Py.strip (py_str c)) v).
Proof. unfold str_map, astype_str. now rewrite !map_map. Qed.

Lemma split_expand_last_text (ids : list string) :
  split_expand_last "-" (map Str ids)
  = map (fun id => if ((length (parts id) =? widest ids)%nat
                       && negb (widest ids =? 0)%nat)
                   then Str (last (parts id) EmptyString) else NaN) ids.
Proof.
  unfold split_expand_last, widest, parts. rewrite !map_map. reflexivity.
Qed.

Lemma parts_nonempty (id : string) : (1 <= length (parts id))%nat.
Proof.
  unfold parts. induction id as [|c t IH]; simpl; [lia|].
  destruct (Ascii.eqb c "-"); simpl; [lia|].
  destruct (Py.split "-" t); simpl in *; lia.
Qed.

Lemma widest_ge (ids : list string) (id : string) :
  In id ids -> (length (parts id) <= widest ids)%nat.
Proof.
  unfold widest. induction ids as [|x ids IH]; simpl; [intros []|].
  intros [->|Hin]; [lia|]. specialize (IH Hin). lia.
Qed.

Lemma widest_uniform (ids : list string) (n : nat) :
  ids <> [] -> Forall (fun id => length (parts id) = n) ids -> widest ids = n.
Proof.
  unfold widest. induction ids as [|x ids IH]; [congruence|].
  intros _ H. inversion H as [|y l Hx Hrest]; subst. simpl.
  destruct ids as [|z ids]; [simpl; lia|].
  rewrite IH by (congruence || assumption). lia.
Qed.

Lemma nth_map_default {A B : Type} (f : A -> B) (l : list A) (i : nat)
    (a : A) (b : B) :
  (i < length l)%nat -> nth i (map f l) b = f (nth i l a).
Proof.
  intros Hi. rewrite (nth_indep _ b (f a)) by now rewrite length_map.
  apply map_nth.
Qed.

Lemma service_code_row (df : DataFrame) (v : list cell) (i : nat) :
  empty df = false ->
  get (rename snake_case df) "report_id" = Some v -> (i < length v)%nat ->
  let out := clean_tickets (Some df) in
  let ids := map (fun c => Py.strip (py_str c)) v in
  let id := nth i ids EmptyString in
  cell_at out i "report_id" = Str id /\
  cell_at out i "service_code"
  = Str (if (length (parts id) =? widest ids)%nat
         then last (parts id) EmptyString else EmptyString).
Proof.
  intros Hne Ev Hi. cbv zeta.
  pose proof (clean_tickets_report_id df Hne) as G. cbv zeta in G.
  rewrite Ev in G. destruct G as [Gid Gcode].
  rewrite (cell_at_get _ _ _ _ Gid), (cell_at_get _ _ _ _ Gcode).
  rewrite identifiers_text, split_expand_last_text.
  set (ids := map (fun c => Py.strip (py_str c)) v).
  assert (Li : (i < length ids)%nat) by (unfold ids; now rewrite length_map).
  split.
  - now rewrite (nth_map_default Str ids i EmptyString NaN Li).
  - unfold fillna. rewrite map_map.
    rewrite (nth_map_default _ ids i EmptyString NaN Li).
    assert (W : (widest ids =? 0)%nat = false).
    { apply Nat.eqb_neq.
      pose proof (widest_ge ids (nth i ids EmptyString) (nth_In _ _ Li)).
      pose proof (parts_nonempty (nth i ids EmptyString)). lia. }
    rewrite W. simpl. rewrite andb_true_r.
    now destruct (length (parts (nth i ids EmptyString)) =? widest ids)%nat.
Qed.

(** After normalization the report identifier of a row is the trimmed text
    of the raw cell, and its service code is the last part of that
    identifier when no identifier of the table has more parts, and the empty
    string when some identifier has more. *)
Theorem clean_tickets_service_code (df : DataFrame) (v : list cell) (i : nat) :
  empty df = false ->
  get (rename snake_case df) "report_id" = Some v -> (i < length v)%nat ->
  let out := clean_tickets (Some df) in
  let ids := map (fun c => Py.strip (py_str c)) v in
  let id := nth i ids EmptyString in
  cell_at out i "report_id" = Str id /\
  cell_at out i "service_code"
  = Str (if (length (parts id) =? widest ids)%nat
         then last (parts id) EmptyString else EmptyString).
Proof. exact (service_code_row df v i). Qed.

(** When all report identifiers of the table have the same number of parts,
    as in a table of one row or of identifiers of one format, every service
    code is the last part of its identifier. *)
Theorem clean_tickets_service_code_uniform (df : DataFrame) (v : list cell)
    (i n : nat) :
  empty df = false ->
  get (rename snake_case df) "report_id" = Some v -> (i < length v)%nat ->
  Forall (fun c => length (parts (Py.strip (py_str c))) = n) v ->
  cell_at (clean_tickets (Some df)) i "service_code"
  = Str (last (parts (Py.strip (py_str (nth i v NaN)))) EmptyString).
Proof.
  intros Hne Ev Hi Hn.
  destruct (service_code_row df v i Hne Ev Hi) as [_ G]. cbv zeta in G.
  rewrite G. clear G.
  set (ids := map (fun c => Py.strip (py_str c)) v).
  assert (Hids : Forall (fun id => length (parts id) = n) ids).
  { unfold ids. apply Forall_map. exact Hn. }
  assert (W : widest ids = n).
  { apply widest_uniform; [|exact Hids]. unfold ids.
    destruct v; [simpl in Hi; lia|discriminate]. }
  assert (E : nth i ids EmptyString = Py.strip (py_str (nth i v NaN))).
  { unfold ids.
    exact (nth_map_default (fun c => Py.strip (py_str c)) v i NaN EmptyString Hi). }
  rewrite E, W. rewrite Forall_forall in Hn.
  rewrite (Hn (nth i v NaN) (nth_In _ _ Hi)). now rewrite Nat.eqb_refl.
Qed.

(** Without a report identifier column every row gets the empty service
    code, and no identifier column is made up. *)
Theorem clean_tickets_without_report_id (df : DataFrame) (i : nat) :
  empty df = false ->
  get (rename snake_case df) "report_id" = None -> (i < nrows df)%nat ->
  cell_at (clean_tickets (Some df)) i "service_code" = Str "" /\
  has_column (clean_tickets (Some df)) "report_id" = false.
Proof.
  intros Hne Ev Hi.
  pose proof (clean_tickets_report_id df Hne) as G. cbv zeta in G.
  rewrite Ev in G. destruct G as [Gid Gcode].
  rewrite (cell_at_get _ _ _ _ Gcode), has_column_get, Gid.
  split; [|reflexivity]. now apply nth_repeat_lt.
Qed.


(** ** Durations and kept columns of the SLA calculator *)



Lemma compute_sla_metrics_other_columns (d out : DataFrame) (c : string) :
  empty d = false -> compute_sla_metrics (Some d) = Ok out ->
  Py.mem c ["response_seconds"; "resolution_seconds"; "resolution_minutes";
            "response_sla_pass"; "resolution_sla_pass"; "escalation";
            "resolution_category"] = false ->
  get out c = get d c.
Proof.
  intros Hne H Hc. unfold compute_sla_metrics in H. simpl in H. rewrite Hne in H.
  destruct (apply_rows d _) as [rs|e]; simpl in H; [|discriminate].
  destruct (apply_rows (setitem d "response_seconds" rs) _) as [rr|e];
    simpl in H; [|discriminate].
  match type of H with
  | (_ <- apply_rows ?d5 _ ;; _) = _ =>
      destruct (apply_rows d5 escalation) as [fl|e]; simpl in H; [|discriminate]
  end.
  inversion H; subst out; clear H.
  unfold Py.mem in Hc. simpl in Hc.
  repeat (apply orb_false_iff in Hc; destruct Hc as [? Hc]).
  now repeat (rewrite get_setitem_other by assumption).
Qed.

(** The SLA calculator keeps the rows of its input and every input column
    it does not write, and its output always has the six SLA columns, also
    when a time column is not there. *)
Theorem compute_sla_metrics_keeps_input (d out : DataFrame) :
  empty d = false -> compute_sla_metrics (Some d) = Ok out ->
  nrows out = nrows d /\
  (forall c : string,
     Py.mem c ["response_seconds"; "resolution_seconds"; "resolution_minutes";
               "response_sla_pass"; "resolution_sla_pass"; "escalation";
               "resolution_category"] = false ->
     get out c = get d c) /\
  (forall c : string,
     In c ["response_seconds"; "resolution_minutes"; "response_sla_pass";
           "resolution_sla_pass"; "escalation"; "resolution_category"] ->
     has_column out c = true).
Proof.
  intros Hne H.
  destruct (compute_sla_metrics_Ok _ _ Hne H)
    as (rs & rr & fl & (Hn & _) & (Grs & Gmin & Gp1 & Gp2 & Gesc & Gcat) & _).
  split; [exact Hn|]. split.
  - intros c Hc. exact (compute_sla_metrics_other_columns d out c Hne H Hc).
  - intros c Hc. rewrite has_column_get. simpl in Hc.
    repeat (destruct Hc as [<-|Hc];
            [match goal with
             | G : get out ?l = Some _ |- context [get out ?l] => now rewrite G
             end|]).
    destruct Hc.
Qed.


(** ** When the SLA calculator returns and when it raises *)

Lemma mapM_all_Ok {A B : Type} (f : A -> result B) (l : list A) :
  (forall a : A, In a l -> exists b : B, f a = Ok b) ->
  exists l' : list B, mapM f l = Ok l'.
Proof.
  induction l as [|x l IH]; simpl; intros H; [eauto|].
  destruct (H x (or_introl eq_refl)) as [y ->].
  destruct IH as [ys ->]; [intros a Ha; apply H; now right|].
  simpl. eauto.
Qed.












(** ** How the SLA fields of a row go together *)

Lemma escalation_row (df : option DataFrame) (out : DataFrame) (i : nat) :
  compute_sla_metrics df = Ok out -> (i < nrows out)%nat ->
  let mins := cell_at out i "resolution_minutes" in
  let status := Py.lower (py_str (row_get (row_at out i) "ticket_status" (Str ""))) in
  let issue := cell_at out i "issue_res_time" in
  let late := exists m : Q, mins = Num m /\ (180 < m)%Q in
  let done := (status = "completed" \/ status = "closed") /\ issue = NaN in
  (cell_at out i "escalation" = Bool true <-> late \/ done) /\
  (cell_at out i "escalation" = Bool false <-> ~ (late \/ done)) /\
  (issue = NaN -> mins = NaN).
Proof.
  intros H Hi. sla_columns H Hi.
  assert (Hmins : cell_at out i "resolution_minutes" = NaN \/
                  exists q : Q, cell_at out i "resolution_minutes" = Num q)
    by (rewrite (cell_at_get _ _ _ _ Gmin); apply nth_div60).
  pose proof (escalation_spec _ _ (Nfl i Hi) Hmins) as [Ptrue Pfalse].
  cbv zeta in Ptrue, Pfalse. fold (cell_at out i "resolution_minutes") in Ptrue, Pfalse.
  fold (cell_at out i "issue_res_time") in Ptrue, Pfalse.
  rewrite <- (cell_at_get _ _ _ _ Gesc) in Ptrue, Pfalse.
  cbv zeta. split; [exact Ptrue|]. split; [exact Pfalse|].
  intros M. rewrite (cell_at_same_column out d i "issue_res_time" Gissue) in M.
  pose proof (Nrr i Hi) as Hsecs. rewrite M in Hsecs. simpl in Hsecs.
  inversion Hsecs as [Hrr].
  rewrite (cell_at_get _ _ _ _ Gmin). unfold div60.
  rewrite nth_map_cell by lia. now rewrite <- Hrr.
Qed.

(** The fields of one output row agree with each other: a ticket that
    passes the resolution SLA is never escalated and is in one of the three
    categories up to three hours, and only such a ticket passes; a ticket in
    "Greater than 3 hours" is always escalated; a ticket with no resolution
    time, "Unknown", never passes. *)
Theorem sla_fields_agree (df : option DataFrame) (out : DataFrame) (i : nat) :
  compute_sla_metrics df = Ok out -> (i < nrows out)%nat ->
  let pass := cell_at out i "resolution_sla_pass" in
  let escalated := cell_at out i "escalation" in
  let cat := cell_at out i "resolution_category" in
  (pass = Bool true -> escalated = Bool false) /\
  (pass = Bool true <->
     cat = Str "Less Than 30 Mins" \/ cat = Str "30Mins - 1 hour" \/
     cat = Str "1 hour - 3 hours") /\
  (cat = Str "Greater than 3 hours" -> escalated = Bool true) /\
  (cat = Str "Unknown" -> pass = Bool false).
Proof.
  intros H Hi.
  destruct (sla_row df out i H Hi) as (_ & Fm & _ & P & C).
  destruct (escalation_row df out i H Hi) as (Et & Ef & Em).
  cbv zeta in *. rewrite P, C.
  destruct (sla_pass_spec 180 _ Fm) as [Pt Pf].
  destruct (category_spec _ Fm) as (Cu & C1 & C2 & C3 & C4).
  split; [|split; [|split]].
  - intros Hp. apply Pt in Hp. destruct Hp as [m [Em' Lm]].
    apply Ef. intros [[m' [E' L']]|[_ Hissue]].
    + rewrite Em' in E'. inversion E'; subst m'. lra.
    + rewrite (Em Hissue) in Em'. discriminate.
  - split.
    + intros Hp. apply Pt in Hp. destruct Hp as [m [Em' Lm]].
      destruct (Qlt_le_dec m 30) as [L30|G30];
        [left; apply C1; eauto|].
      destruct (Qlt_le_dec m 60) as [L60|G60];
        [right; left; apply C2; eauto|].
      right; right. apply C3. eauto.
    + intros [Hc|[Hc|Hc]]; apply Pt.
      * apply C1 in Hc. destruct Hc as [m [E L]]. exists m. split; [exact E|lra].
      * apply C2 in Hc. destruct Hc as [m [E [L1 L2]]]. exists m.
        split; [exact E|lra].
      * apply C3 in Hc. destruct Hc as [m [E [L1 L2]]]. exists m.
        split; [exact E|lra].
  - intros Hc. apply C4 in Hc. apply Et. now left.
  - intros Hc. apply Cu in Hc. apply Pf. now left.
Qed.


(** ** Entries of the aggregator's result *)

Lemma mapM_In {A B : Type} (f : A -> result B) (l : list A) (l' : list B) (b : B) :
  mapM f l = Ok l' -> In b l' -> exists a : A, In a l /\ f a = Ok b.
Proof.
  revert l'. induction l as [|x l IH]; simpl; intros l' H Hb.
  - inversion H; subst. destruct Hb.
  - destruct (f x) as [y|e] eqn:Ey; simpl in H; [|discriminate].
    destruct (mapM f l) as [ys|e] eqn:El; simpl in H; [|discriminate].
    inversion H; subst. destruct Hb as [<-|Hb]; [eauto|].
    destruct (IH ys eq_refl Hb) as [a [Ha Ea]]. eauto.
Qed.

(** What a successful run has read and how each entry was made. *)
Lemma manager_operator_performance_entries (d : DataFrame) (p : performance) :
  empty d = false ->
  manager_operator_performance (Some d) = Ok p ->
  exists by_operator report_id seconds minutes pass : list cell,
    (get d "operator" = Some by_operator /\
     get d "report_id" = Some report_id /\
     get d "response_seconds" = Some seconds /\
     get d "resolution_minutes" = Some minutes /\
     get d "response_sla_pass" = Some pass) /\
    (forall (k : cell) (kpi : operator_kpi),
       In (k, kpi) (operators p) ->
       In k (group_keys by_operator) /\
       exists a1 a2 r : cell,
         mean (take (group_indices by_operator k) seconds) = Ok a1 /\
         mean (take (group_indices by_operator k) minutes) = Ok a2 /\
         pass_rate (take (group_indices by_operator k) pass) = Ok r /\
         kpi = mkOperatorKpi (count (take (group_indices by_operator k) report_id))
                 (round (or_zero a1) 2) (round (or_zero a2) 2)
                 (round (or_zero r) 3)) /\
    (forall (by_manager : list cell) (k : cell) (kpi : manager_kpi),
       get d "manager" = Some by_manager ->
       In (k, kpi) (managers p) ->
       In k (group_keys by_manager) /\
       exists a1 a2 : cell,
         mean (take (group_indices by_manager k) seconds) = Ok a1 /\
         mean (take (group_indices by_manager k) minutes) = Ok a2 /\
         kpi = mkManagerKpi (count (take (group_indices by_manager k) report_id))
                 (round (or_zero a1) 2) (round (or_zero a2) 2)).
Proof.
  intros Hne H. unfold manager_operator_performance, none_or_empty in H.
  rewrite Hne in H. unfold getitem in H.
  destruct (get d "operator") as [by_operator|]; simpl in H; [|discriminate].
  destruct (get d "report_id") as [report_id|]; simpl in H; [|discriminate].
  destruct (get d "response_seconds") as [rs|]; simpl in H; [|discriminate].
  destruct (get d "resolution_minutes") as [rm|]; simpl in H; [|discriminate].
  destruct (get d "response_sla_pass") as [pass|]; simpl in H; [|discriminate].
  destruct (mapM _ (group_keys by_operator)) as [ops|e] eqn:Eops;
    simpl in H; [|discriminate].
  exists by_operator, report_id, rs, rm, pass.
  split; [now repeat split|].
  assert (Hops : forall (k : cell) (kpi : operator_kpi),
            In (k, kpi) ops ->
            In k (group_keys by_operator) /\
            exists a1 a2 r : cell,
              mean (take (group_indices by_operator k) rs) = Ok a1 /\
              mean (take (group_indices by_operator k) rm) = Ok a2 /\
              pass_rate (take (group_indices by_operator k) pass) = Ok r /\
              kpi = mkOperatorKpi
                      (count (take (group_indices by_operator k) report_id))
                      (round (or_zero a1) 2) (round (or_zero a2) 2)
                      (round (or_zero r) 3)).
  { intros k kpi Hin. destruct (mapM_In _ _ _ _ Eops Hin) as [a [Ha Ea]].
    simpl in Ea.
    destruct (mean (take (group_indices by_operator a) rs)) as [a1|] eqn:E1;
      simpl in Ea; [|discriminate].
    destruct (mean (take (group_indices by_operator a) rm)) as [a2|] eqn:E2;
      simpl in Ea; [|discriminate].
    destruct (pass_rate (take (group_indices by_operator a) pass)) as [r|] eqn:E3;
      simpl in Ea; [|discriminate].
    inversion Ea; subst. split; [exact Ha|]. exists a1, a2, r. auto. }
  destruct (get d "manager") as [by_manager|].
  - destruct (mapM _ (group_keys by_manager)) as [mgrs|e] eqn:Emgrs;
      simpl in H; [|discriminate].
    inversion H; subst p. simpl. split; [exact Hops|].
    intros bm k kpi Ebm Hin. inversion Ebm; subst bm.
    destruct (mapM_In _ _ _ _ Emgrs Hin) as [a [Ha Ea]]. simpl in Ea.
    destruct (mean (take (group_indices by_manager a) rs)) as [a1|] eqn:E1;
      simpl in Ea; [|discriminate].
    destruct (mean (take (group_indices by_manager a) rm)) as [a2|] eqn:E2;
      simpl in Ea; [|discriminate].
    inversion Ea; subst. split; [exact Ha|]. exists a1, a2. auto.
  - simpl in H. inversion H; subst p. simpl. split; [exact Hops|].
    intros bm k kpi Ebm. discriminate.
Qed.

(** The aggregator reads five columns and raises a KeyError when one of
    them is not in a non-empty table; it has no default for any of them. *)
Theorem manager_operator_performance_needs_columns (d : DataFrame) (c : string) :
  empty d = false ->
  In c ["operator"; "report_id"; "response_seconds"; "resolution_minutes";
        "response_sla_pass"] ->
  get d c = None ->
  manager_operator_performance (Some d) = Raise KeyError.
Proof.
  intros Hne Hc E. unfold manager_operator_performance, none_or_empty.
  rewrite Hne. unfold getitem. simpl in Hc.
  destruct Hc as [<-|Hc]; [now rewrite E|].
  destruct (get d "operator"); [simpl|reflexivity].
  destruct Hc as [<-|Hc]; [now rewrite E|].
  destruct (get d "report_id"); [simpl|reflexivity].
  destruct Hc as [<-|Hc]; [now rewrite E|].
  destruct (get d "response_seconds"); [simpl|reflexivity].
  destruct Hc as [<-|Hc]; [now rewrite E|].
  destruct (get d "resolution_minutes"); [simpl|reflexivity].
  destruct Hc as [<-|Hc]; [now rewrite E|destruct Hc].
Qed.


Lemma group_keys_In (s : list cell) (k : cell) : In k (group_keys s) -> In k s.
Proof.
  induction s as [|c rest IH]; simpl; [intros []|].
  assert (Hks : In k (filter (fun k' => negb (cell_eqb k' c)) (group_keys rest))
                -> In k rest)
    by (intros Hin; apply filter_In in Hin; now apply IH).
  destruct (isna c); [auto|]. intros [<-|Hin]; auto.
Qed.

Lemma group_keys_unique (s : list cell) (k : cell) :
  In k (group_keys s) ->
  length (filter (fun k' => cell_eqb k' k) (group_keys s)) = 1%nat.
Proof.
  intros Hin.
  rewrite (filter_ext (fun k' => cell_eqb k' k) (cell_eqb k))
    by (intros k'; apply cell_eqb_sym).
  rewrite group_keys_once by exact (group_keys_notna s k Hin).
  assert (E : existsb (cell_eqb k) s = true).
  { apply existsb_exists. exists k. split; [now apply group_keys_In|].
    apply cell_eqb_refl. }
  now rewrite E.
Qed.

Lemma group_keys_cover (s : list cell) (i : nat) :
  (i < length s)%nat -> notna (nth i s NaN) = true ->
  exists k : cell, In k (group_keys s) /\ cell_eqb k (nth i s NaN) = true.
Proof.
  intros Hi Hx.
  pose proof (group_keys_once (nth i s NaN) s Hx) as L.
  rewrite (existsb_nth _ s i Hi (cell_eqb_refl _)) in L.
  destruct (filter (cell_eqb (nth i s NaN)) (group_keys s)) as [|k ks] eqn:E;
    [discriminate|].
  assert (Hk : In k (filter (cell_eqb (nth i s NaN)) (group_keys s)))
    by (rewrite E; now left).
  apply filter_In in Hk. destruct Hk as [Hk Ek].
  exists k. split; [exact Hk|]. now rewrite cell_eqb_sym.
Qed.

Lemma dict_get_key {V : Type} (l : list (cell * V)) (k k' : cell) :
  In k' (map fst l) -> cell_eqb k' k = true ->
  exists v : V, dict_get l k = Some v.
Proof.
  induction l as [|[k1 v1] rest IH]; simpl; [intros []|].
  intros Hin E. destruct (cell_eqb k1 k) eqn:E1; [eauto|].
  destruct Hin as [->|Hin]; [congruence|]. now apply IH.
Qed.

Lemma keys_of_pairs {V : Type} (total : V -> Z) (g : cell -> Z)
    (l : list (cell * V)) (ks : list cell) :
  map (fun kv => (fst kv, total (snd kv))) l = map (fun k => (k, g k)) ks ->
  map fst l = ks.
Proof.
  intros E. apply (f_equal (map fst)) in E. rewrite !map_map in E. simpl in E.
  now rewrite map_id in E.
Qed.

Lemma length_filter_fst {V : Type} (q : cell -> bool) (l : list (cell * V)) :
  length (filter (fun kv => q (fst kv)) l) = length (filter q (map fst l)).
Proof.
  induction l as [|[k v] rest IH]; simpl; [reflexivity|].
  destruct (q k); simpl; now rewrite IH.
Qed.

(** The operators of the result are the distinct operators of the table:
    every row with an operator finds its entry, every entry is the entry of
    some row's operator, no operator has two entries, and a missing operator
    is never a key.  Without a manager column there are no managers. *)
Theorem manager_operator_performance_keys (d : DataFrame) (p : performance)
    (by_operator : list cell) :
  empty d = false ->
  manager_operator_performance (Some d) = Ok p ->
  get d "operator" = Some by_operator ->
  (forall i : nat,
     (i < length by_operator)%nat -> notna (nth i by_operator NaN) = true ->
     exists kpi : operator_kpi,
       dict_get (operators p) (nth i by_operator NaN) = Some kpi) /\
  (forall (k : cell) (kpi : operator_kpi),
     In (k, kpi) (operators p) ->
     notna k = true /\ In k by_operator /\
     length (filter (fun kv => cell_eqb (fst kv) k) (operators p)) = 1%nat) /\
  (get d "manager" = None -> managers p = []).
Proof.
  intros Hne H Eo.
  destruct (manager_operator_performance_Ok d p Hne H)
    as (bo & report_id & Eo' & _ & Hops & Hmgrs).
  rewrite Eo in Eo'. inversion Eo'; subst bo. clear Eo'.
  apply keys_of_pairs in Hops. split; [|split].
  - intros i Hi Hx. destruct (group_keys_cover by_operator i Hi Hx) as [k [Hk Ek]].
    apply (dict_get_key (operators p) _ k); [now rewrite Hops|exact Ek].
  - intros k kpi Hin. apply (in_map fst) in Hin. simpl in Hin.
    rewrite Hops in Hin. split; [exact (group_keys_notna _ _ Hin)|].
    split; [exact (group_keys_In _ _ Hin)|].
    rewrite (length_filter_fst (fun k' => cell_eqb k' k)), Hops.
    now apply group_keys_unique.
  - intros Em. now rewrite Em in Hmgrs.
Qed.

(** *** Averages *)

Lemma round_half_even_comp (q q' : Q) :
  (q == q')%Q -> round_half_even q = round_half_even q'.
Proof.
  intros E. unfold round_half_even.
  rewrite (Qfloor_comp _ _ E).
  assert (C : Qcompare (q - inject_Z (Qfloor q')) (1 # 2)
              = Qcompare (q' - inject_Z (Qfloor q')) (1 # 2))
    by (apply Qcompare_comp; [now rewrite E|reflexivity]).
  now rewrite C.
Qed.

(** On a number [x or 0.0] changes nothing that rounding keeps. *)
Lemma round_or_zero (q : Q) (ndigits : nat) :
  round (or_zero (Num q)) ndigits = round (Num q) ndigits.
Proof.
  unfold or_zero. destruct (Qeq_bool q 0) eqn:E; [|reflexivity].
  apply Qeq_bool_iff in E. simpl. f_equal. f_equal.
  apply round_half_even_comp. now rewrite E.
Qed.




(** *** The pass rate *)

Lemma round_half_even_bounds (a b : Z) (q : Q) :
  (inject_Z a <= q)%Q -> (q <= inject_Z b)%Q ->
  (a <= round_half_even q <= b)%Z.
Proof.
  intros La Lb. unfold round_half_even.
  pose proof (Qfloor_le q) as F1. pose proof (Qlt_floor q) as F2.
  assert (Ha : (a <= Qfloor q)%Z).
  { assert (L : (inject_Z a < inject_Z (Qfloor q + 1))%Q)
      by (eapply Qle_lt_trans; eassumption).
    rewrite <- Zlt_Qlt in L. lia. }
  assert (Hb : (Qfloor q <= b)%Z).
  { rewrite Zle_Qle. eapply Qle_trans; eassumption. }
  assert (Hup : (inject_Z (Qfloor q) < q)%Q -> (Qfloor q + 1 <= b)%Z).
  { intros L. assert (L' : (inject_Z (Qfloor q) < inject_Z b)%Q)
      by (eapply Qlt_le_trans; eassumption).
    rewrite <- Zlt_Qlt in L'. lia. }
  destruct (Qcompare_spec (q - inject_Z (Qfloor q)) (1 # 2)) as [E|L|G].
  - destruct (Z.even (Qfloor q)); [lia|].
    split; [lia|]. apply Hup. lra.
  - lia.
  - split; [lia|]. apply Hup. lra.
Qed.

Lemma round_unit_interval (q : Q) (ndigits : nat) :
  (0 <= q)%Q -> (q <= 1)%Q ->
  exists r : Q, round (Num q) ndigits = Num r /\ (0 <= r)%Q /\ (r <= 1)%Q.
Proof.
  intros L0 L1. unfold round.
  set (scale := Z.to_pos (10 ^ Z.of_nat ndigits)).
  eexists. split; [reflexivity|].
  destruct (round_half_even_bounds 0 (Zpos scale) (q * inject_Z (Zpos scale)))
    as [B0 B1].
  - apply Qmult_le_0_compat; [exact L0|]. now rewrite <- (Zle_Qle 0).
  - rewrite <- (Qmult_1_l (inject_Z (Zpos scale))) at 2.
    apply Qmult_le_compat_r; [exact L1|]. now rewrite <- (Zle_Qle 0).
  - unfold Qle. simpl. split; lia.
Qed.

Lemma numbers_of_flags (x : list cell) (qs : list Q) :
  Forall (fun c => is_bool c || isna c = true) x ->
  numbers x = Ok qs ->
  (0 <= Qsum qs)%Q /\ (Qsum qs <= inject_Z (Z.of_nat (length x)))%Q.
Proof.
  revert qs. induction x as [|c x IH]; intros qs Hx H.
  - simpl in H. inversion H; subst. simpl. split; apply Qle_refl.
  - inversion Hx as [|c' x' Hc Hrest]; subst.
    assert (S : (inject_Z (Z.of_nat (length (c :: x)))
                 == inject_Z (Z.of_nat (length x)) + 1)%Q).
    { simpl length. rewrite Nat2Z.inj_succ, <- Z.add_1_r, inject_Z_plus.
      reflexivity. }
    destruct c; simpl in Hc; try discriminate; simpl in H.
    + destruct (IH qs Hrest H) as [I0 I1]. split; [exact I0|]. rewrite S. lra.
    + destruct (numbers x) as [qs'|e]; simpl in H; [|discriminate].
      inversion H; subst qs. destruct (IH qs' Hrest eq_refl) as [I0 I1].
      simpl Qsum. rewrite S. destruct b; split; lra.
Qed.

Lemma take_of_flags (pass : list cell) (idx : list nat) :
  forallb is_bool pass = true ->
  Forall (fun c => is_bool c || isna c = true) (take idx pass).
Proof.
  intros Hp. unfold take. apply Forall_forall. intros c Hc.
  apply in_map_iff in Hc. destruct Hc as [i [<- _]].
  destruct (Nat.lt_ge_cases i (length pass)) as [Hi|Hi].
  - rewrite forallb_forall in Hp. rewrite (Hp _ (nth_In _ _ Hi)). reflexivity.
  - rewrite nth_overflow by exact Hi. reflexivity.
Qed.

Lemma pass_rate_unit_interval (x : list cell) (r : cell) :
  Forall (fun c => is_bool c || isna c = true) x ->
  pass_rate x = Ok r ->
  exists q : Q, r = Num q /\ (0 <= q)%Q /\ (q <= 1)%Q.
Proof.
  intros Hx H. unfold pass_rate in H. destruct x as [|c x].
  - inversion H. exists 0%Q. repeat split; lra.
  - destruct (numbers (c :: x)) as [qs|e] eqn:E; simpl in H; [|discriminate].
    inversion H. destruct (numbers_of_flags _ _ Hx E) as [I0 I1].
    eexists. split; [reflexivity|].
    assert (P : (0 < inject_Z (Z.of_nat (length (c :: x))))%Q).
    { rewrite <- (Zlt_Qlt 0). simpl length. lia. }
    split.
    + apply Qle_shift_div_l; [exact P|]. rewrite Qmult_0_l. exact I0.
    + apply Qle_shift_div_r; [exact P|]. rewrite Qmult_1_l. exact I1.
Qed.

(** On a table whose [response_sla_pass] cells are booleans, as the SLA
    calculator makes them, the pass rate of every operator is a number
    between 0 and 1, rounding included. *)
Theorem manager_operator_performance_pass_rate (d : DataFrame) (p : performance)
    (pass : list cell) (k : cell) (kpi : operator_kpi) :
  empty d = false ->
  manager_operator_performance (Some d) = Ok p ->
  get d "response_sla_pass" = Some pass -> forallb is_bool pass = true ->
  In (k, kpi) (operators p) ->
  exists r : Q, op_sla_pass_rate kpi = Num r /\ (0 <= r)%Q /\ (r <= 1)%Q.
Proof.
  intros Hne H Ep Hp Hin.
  destruct (manager_operator_performance_entries d p Hne H)
    as (bo & rid & rs & rm & pass' & (_ & _ & _ & _ & Ep') & Hops & _).
  rewrite Ep in Ep'. inversion Ep'; subst pass'. clear Ep'.
  destruct (Hops k kpi Hin) as (_ & a1 & a2 & r & _ & _ & R & ->). simpl.
  destruct (pass_rate_unit_interval _ _ (take_of_flags pass _ Hp) R)
    as (q & -> & L0 & L1).
  rewrite round_or_zero. now apply round_unit_interval.
Qed.


(** ** The aggregator after the SLA calculator *)

Lemma numbers_Ok (s : list cell) :
  Forall (fun c => is_float c || is_bool c = true) s ->
  exists qs : list Q, numbers s = Ok qs.
Proof.
  induction s as [|c s IH]; intros H; [simpl; eauto|].
  inversion H as [|c' s' Hc Hs]; subst. destruct (IH Hs) as [qs E].
  destruct c; simpl in Hc; try discriminate; simpl; rewrite E; simpl; eauto.
Qed.

Lemma take_numeric (col : list cell) (idx : list nat) :
  Forall (fun c => is_float c || is_bool c = true) col ->
  Forall (fun c => is_float c || is_bool c = true) (take idx col).
Proof.
  intros H. unfold take. apply Forall_forall. intros c Hc.
  apply in_map_iff in Hc. destruct Hc as [i [<- _]].
  destruct (Nat.lt_ge_cases i (length col)) as [Hi|Hi].
  - rewrite Forall_forall in H. exact (H _ (nth_In _ _ Hi)).
  - rewrite nth_overflow by exact Hi. reflexivity.
Qed.

Lemma mean_Ok (col : list cell) (idx : list nat) :
  Forall (fun c => is_float c || is_bool c = true) col ->
  exists a : cell, mean (take idx col) = Ok a.
Proof.
  intros H. unfold mean.
  destruct (numbers_Ok _ (take_numeric col idx H)) as [qs ->]. simpl. eauto.
Qed.

Lemma pass_rate_Ok (col : list cell) (idx : list nat) :
  Forall (fun c => is_float c || is_bool c = true) col ->
  exists r : cell, pass_rate (take idx col) = Ok r.
Proof.
  intros H. unfold pass_rate. destruct (take idx col) as [|c x] eqn:E; [eauto|].
  rewrite <- E. destruct (numbers_Ok _ (take_numeric col idx H)) as [qs ->].
  simpl. eauto.
Qed.

Lemma manager_operator_performance_numeric (d : DataFrame)
    (by_operator report_id seconds minutes pass : list cell) :
  get d "operator" = Some by_operator ->
  get d "report_id" = Some report_id ->
  get d "response_seconds" = Some seconds ->
  get d "resolution_minutes" = Some minutes ->
  get d "response_sla_pass" = Some pass ->
  Forall (fun c => is_float c || is_bool c = true) seconds ->
  Forall (fun c => is_float c || is_bool c = true) minutes ->
  Forall (fun c => is_float c || is_bool c = true) pass ->
  exists p : performance, manager_operator_performance (Some d) = Ok p.
Proof.
  intros Eo Er Es Em Ep Fs Fm Fp. unfold manager_operator_performance.
  destruct (none_or_empty (Some d)); [eauto|].
  unfold getitem. rewrite Eo, Er, Es, Em, Ep. simpl.
  match goal with
  | |- exists p, (_ <- mapM ?f ?l ;; _) = _ =>
      destruct (mapM_all_Ok f l) as [ops ->]
  end.
  { intros k _.
    destruct (mean_Ok seconds (group_indices by_operator k) Fs) as [a1 ->].
    destruct (mean_Ok minutes (group_indices by_operator k) Fm) as [a2 ->].
    destruct (pass_rate_Ok pass (group_indices by_operator k) Fp) as [r ->].
    simpl. eauto. }
  simpl. destruct (get d "manager") as [by_manager|]; [|simpl; eauto].
  match goal with
  | |- exists p, (_ <- mapM ?f ?l ;; _) = _ =>
      destruct (mapM_all_Ok f l) as [mgrs ->]
  end.
  { intros k _.
    destruct (mean_Ok seconds (group_indices by_manager k) Fs) as [a1 ->].
    destruct (mean_Ok minutes (group_indices by_manager k) Fm) as [a2 ->].
    simpl. eauto. }
  simpl. eauto.
Qed.

Lemma Forall_of_nth (P : cell -> Prop) (l : list cell) :
  (forall i : nat, (i < length l)%nat -> P (nth i l NaN)) -> Forall P l.
Proof.
  intros H. apply Forall_forall. intros x Hx.
  destruct (In_nth l x NaN Hx) as [i [Hi <-]]. now apply H.
Qed.

(** The aggregator never raises on a table the SLA calculator has made from
    a table with an operator and a report identifier column: the columns it
    averages hold numbers and NaN, the flags it counts are booleans. *)
Theorem manager_operator_performance_after_compute_sla_metrics
    (d out : DataFrame) :
  compute_sla_metrics (Some d) = Ok out ->
  has_column d "operator" = true -> has_column d "report_id" = true ->
  exists p : performance, manager_operator_performance (Some out) = Ok p.
Proof.
  intros H Ho Hr. destruct (empty d) eqn:Hne.
  - unfold compute_sla_metrics in H. simpl in H. rewrite Hne in H.
    inversion H; subst out. now exists (mkPerformance [] []).
  - destruct (compute_sla_metrics_Ok _ _ Hne H)
      as (rs & rr & fl & (Hn & Lrs & Lrr & Lfl)
          & (Grs & Gmin & Gp1 & Gp2 & Gesc & Gcat) & _ & Nrs & Nrr & _).
    rewrite has_column_get in Ho, Hr.
    destruct (get d "operator") as [bo|] eqn:Eo; [|discriminate].
    destruct (get d "report_id") as [rid|] eqn:Er; [|discriminate].
    apply (manager_operator_performance_numeric out bo rid rs (div60 rr)
             (apply (sla_pass 10) rs)); try assumption.
    + now rewrite (compute_sla_metrics_other_columns d out "operator" Hne H eq_refl).
    + now rewrite (compute_sla_metrics_other_columns d out "report_id" Hne H eq_refl).
    + apply Forall_of_nth. intros i Hi. rewrite Lrs in Hi.
      destruct (secs_float _ _ _ (Nrs i Hi)) as [->|[q ->]]; reflexivity.
    + apply Forall_forall. intros c Hc. unfold div60 in Hc.
      apply in_map_iff in Hc. destruct Hc as [x [<- _]]. now destruct x.
    + apply Forall_forall. intros c Hc. unfold apply in Hc.
      apply in_map_iff in Hc. destruct Hc as [x [<- _]]. now destruct x.
Qed.

(** On an absent or empty ticket table the whole pipeline returns the empty
    result without raising, whatever the reference tables are: each
    operation hands the next one the empty table. *)
Theorem pipeline_on_empty_tickets (raw employees channel service_type fault_type
    location : option DataFrame) :
  none_or_empty raw = true ->
  (enriched <- enrich_tickets (Some (clean_tickets raw)) employees channel
                 service_type fault_type location ;;
   evaluated <- compute_sla_metrics (Some enriched) ;;
   manager_operator_performance (Some evaluated))
  = Ok (mkPerformance [] []).
Proof.
  intros H. unfold clean_tickets. rewrite H. reflexivity.
Qed.


(** ** Left joins *)

Lemma append_empty (s : string) : (s ++ "")%string = s.
Proof. induction s as [|c s IH]; simpl; [reflexivity|]. now rewrite IH. Qed.

Lemma suffixed_empty (to_rename : list string) (c : string) :
  suffixed to_rename "" c = c.
Proof. unfold suffixed. destruct (Py.mem c to_rename); [apply append_empty|reflexivity]. Qed.

Lemma lookup_app_l (c : string) (v : list cell) (l1 l2 : list (string * list cell)) :
  lookup c l1 = Some v -> lookup c (l1 ++ l2) = Some v.
Proof.
  induction l1 as [|[c1 v1] rest IH]; simpl; [discriminate|].
  destruct (String.eqb c c1); [auto|exact IH].
Qed.

Lemma lookup_map_values (g : list cell -> list cell) (c : string)
    (cols : list (string * list cell)) :
  lookup c (map (fun cv => (fst cv, g (snd cv))) cols)
  = option_map g (lookup c cols).
Proof.
  induction cols as [|[c1 v1] rest IH]; simpl; [reflexivity|].
  destruct (String.eqb c c1); [reflexivity|exact IH].
Qed.

Lemma left_indexer_In (lkeys rkeys : list cell) (i : nat) :
  (i < length lkeys)%nat ->
  exists r : option nat, In (i, r) (left_indexer lkeys rkeys).
Proof.
  intros Hi. unfold left_indexer.
  destruct (matches (nth i lkeys NaN) rkeys) as [|j js] eqn:E.
  - exists None. apply in_flat_map. exists i. split; [apply in_seq; lia|].
    rewrite E. now left.
  - exists (Some j). apply in_flat_map. exists i. split; [apply in_seq; lia|].
    rewrite E. now left.
Qed.

Lemma left_indexer_length (lkeys rkeys : list cell) :
  (length lkeys <= length (left_indexer lkeys rkeys))%nat.
Proof.
  unfold left_indexer.
  set (f := fun i : nat =>
              match matches (nth i lkeys NaN) rkeys with
              | [] => [(i, @None nat)]
              | j :: js => map (fun j' => (i, Some j')) (j :: js)
              end).
  assert (F : forall i : nat, (1 <= length (f i))%nat).
  { intros i. unfold f. destruct (matches (nth i lkeys NaN) rkeys); simpl; lia. }
  assert (G : forall l : list nat, (length l <= length (flat_map f l))%nat).
  { induction l as [|i l IH]; [apply Nat.le_refl|].
    cbn [flat_map]. rewrite length_app. specialize (F i). cbn [length]. lia. }
  specialize (G (seq 0 (length lkeys))). now rewrite length_seq in G.
Qed.

(** A left join on a key as long as the left table keeps every left row:
    the result has at least as many rows, and columns as long as its
    index. *)
Lemma merge_rows (left right out : DataFrame) (left_on : key) (right_on : string)
    (suffixes : string * string) :
  well_formed left ->
  match left_on with
  | Label _ => True
  | Values v => length v = nrows left
  end ->
  merge left right left_on right_on suffixes = Ok out ->
  (nrows left <= nrows out)%nat /\ well_formed out.
Proof.
  intros Hwf Hkey H. unfold merge in H.
  destruct (match left_on with
            | Label c => getitem left c
            | Values v => Ok v
            end) as [lkeys|e] eqn:El; simpl in H; [|discriminate].
  destruct (getitem right right_on) as [rkeys|e]; simpl in H; [|discriminate].
  assert (Ll : length lkeys = nrows left).
  { destruct left_on as [c|v].
    - unfold getitem in El. destruct (get left c) as [v|] eqn:Ec; [|discriminate].
      inversion El; subst. exact (column_length left c lkeys Hwf Ec).
    - inversion El; subst. exact Hkey. }
  destruct (overlap _ _) as [|x xs];
    destruct suffixes as [[|a ls] [|b rs]]; try discriminate;
    inversion H; subst out; simpl;
    (split; [rewrite <- Ll; apply left_indexer_length|]);
    unfold well_formed; simpl; rewrite !Forall_app;
    (repeat split;
     [destruct left_on; repeat constructor; simpl; unfold take_left;
      now rewrite length_map
     |apply Forall_forall; intros [c v] Hin; apply in_map_iff in Hin;
      destruct Hin as [cv [E _]]; inversion E; subst; simpl;
      unfold take_left; now rewrite length_map
     |apply Forall_forall; intros [c v] Hin; apply in_map_iff in Hin;
      destruct Hin as [cv [E _]]; inversion E; subst; simpl;
      unfold take_right; now rewrite length_map]).
Qed.

(** A join that passes the empty suffix for the left side keeps every left
    column under its name, each result row carrying the cells of one left
    row, and every left row is carried by some result row. *)
Lemma merge_keeps_left (left right out : DataFrame) (c0 right_on rsuffix : string) :
  well_formed left ->
  merge left right (Label c0) right_on ("", rsuffix) = Ok out ->
  (forall c : string, has_column left c = true -> has_column out c = true) /\
  forall i : nat,
    (i < nrows left)%nat ->
    exists j : nat,
      (j < nrows out)%nat /\
      forall c : string,
        has_column left c = true -> cell_at out j c = cell_at left i c.
Proof.
  intros Hwf H. unfold merge in H. unfold getitem in H.
  destruct (get left c0) as [lkeys|] eqn:El; simpl in H; [|discriminate].
  destruct (get right right_on) as [rkeys|]; simpl in H; [|discriminate].
  pose proof (column_length left c0 lkeys Hwf El) as Ll.
  set (idx := left_indexer lkeys rkeys) in *.
  assert (Hout : exists rres : list (string * list cell),
            out = mkDF (map (fun cv => (fst cv, take_left idx (snd cv)))
                          (columns left) ++ rres) (length idx)).
  { destruct (overlap _ _) as [|x xs];
      destruct rsuffix as [|b rs]; try discriminate;
      inversion H; subst out; simpl; eexists; f_equal; f_equal;
      apply map_ext; intros [c v]; simpl; now rewrite suffixed_empty. }
  destruct Hout as [rres ->]. clear H.
  assert (G : forall (c : string) (v : list cell),
            get left c = Some v ->
            get (mkDF (map (fun cv => (fst cv, take_left idx (snd cv)))
                         (columns left) ++ rres) (length idx)) c
            = Some (take_left idx v)).
  { intros c v E. unfold get. simpl. apply lookup_app_l.
    rewrite (lookup_map_values (take_left idx)). unfold get in E. now rewrite E. }
  split.
  - intros c Hc. rewrite has_column_get in *.
    destruct (get left c) as [v|] eqn:E; [|discriminate]. now rewrite (G c v E).
  - intros i Hi. rewrite <- Ll in Hi.
    destruct (left_indexer_In lkeys rkeys i Hi) as [r Hin].
    destruct (In_nth _ _ (0%nat, None) Hin) as [j [Hj Ej]]. fold idx in Hj, Ej.
    exists j. split; [exact Hj|].
    intros c Hc. rewrite has_column_get in Hc.
    destruct (get left c) as [v|] eqn:E; [|discriminate].
    rewrite (cell_at_get _ _ _ _ (G c v E)), (cell_at_get _ _ _ _ E).
    unfold take_left.
    rewrite (nth_map_default (fun p => nth (fst p) v NaN) idx j (0%nat, None) NaN Hj).
    now rewrite Ej.
Qed.


(** ** The enricher *)

Lemma join_reference_skip (df : DataFrame) (ref : option DataFrame)
    (join : DataFrame -> DataFrame -> result DataFrame) :
  none_or_empty ref = true -> join_reference df ref join = Ok df.
Proof.
  unfold join_reference, none_or_empty. destruct ref as [t|]; [|reflexivity].
  now intros ->.
Qed.

Lemma setitem_scalar_well_formed (d : DataFrame) (c : string) (x : cell) :
  well_formed d -> well_formed (setitem_scalar d c x).
Proof.
  intros Hwf. unfold setitem_scalar. apply setitem_well_formed; [exact Hwf|].
  apply repeat_length.
Qed.

Lemma without_employees_well_formed (df : DataFrame) :
  well_formed df -> well_formed (without_employees df).
Proof.
  intros Hwf. unfold without_employees.
  now repeat apply setitem_scalar_well_formed.
Qed.

Lemma without_employees_other (df : DataFrame) (c : string) :
  Py.mem c ["employee_id"; "manager_id"; "designation"; "manager"] = false ->
  get (without_employees df) c = get df c.
Proof.
  unfold Py.mem. simpl. intros Hc.
  repeat (apply orb_false_iff in Hc; destruct Hc as [? Hc]).
  unfold without_employees, setitem_scalar.
  now repeat (rewrite get_setitem_other by assumption).
Qed.

Lemma without_employees_missing (df : DataFrame) (c : string) :
  In c ["employee_id"; "manager_id"; "designation"; "manager"] ->
  get (without_employees df) c = Some (repeat NaN (nrows df)).
Proof.
  unfold without_employees, setitem_scalar. simpl.
  intros [<-|[<-|[<-|[<-|[]]]]].
  - repeat other_column. apply get_setitem_same.
  - repeat other_column. apply get_setitem_same.
  - repeat other_column. apply get_setitem_same.
  - apply get_setitem_same.
Qed.

(** With no reference table at all the enricher returns the tickets with
    four missing employee columns added, [employee_id], [manager_id],
    [designation] and [manager], and every other column as it was. *)
Theorem enrich_tickets_without_reference_tables (tickets : DataFrame)
    (employees channel service_type fault_type location : option DataFrame) :
  empty tickets = false ->
  none_or_empty employees = true -> none_or_empty channel = true ->
  none_or_empty service_type = true -> none_or_empty fault_type = true ->
  none_or_empty location = true ->
  exists out : DataFrame,
    enrich_tickets (Some tickets) employees channel service_type fault_type
      location = Ok out /\
    nrows out = nrows tickets /\
    (forall (c : string) (i : nat),
       In c ["employee_id"; "manager_id"; "designation"; "manager"] ->
       (i < nrows tickets)%nat -> cell_at out i c = NaN) /\
    (forall c : string,
       Py.mem c ["employee_id"; "manager_id"; "designation"; "manager"] = false ->
       get out c = get tickets c).
Proof.
  intros Hne He Hc Hs Hf Hl. exists (without_employees tickets).
  split; [|split; [reflexivity|split]].
  - unfold enrich_tickets, none_or_empty. rewrite Hne.
    assert (J : join_employees tickets employees = Ok (without_employees tickets)).
    { unfold join_employees. destruct employees as [e|]; [|reflexivity].
      simpl in He. now rewrite He. }
    rewrite J. simpl.
    rewrite (join_reference_skip _ channel _ Hc). simpl.
    rewrite (join_reference_skip _ service_type _ Hs). simpl.
    rewrite (join_reference_skip _ fault_type _ Hf). simpl.
    apply (join_reference_skip _ location _ Hl).
  - intros c i Hin Hi.
    rewrite (cell_at_get _ _ _ _ (without_employees_missing tickets c Hin)).
    now apply nth_repeat_lt.
  - intros c Hin. now apply without_employees_other.
Qed.

Lemma join_employees_rows (df df' : DataFrame) (employees : option DataFrame) :
  well_formed df -> join_employees df employees = Ok df' ->
  (nrows df <= nrows df')%nat /\ well_formed df'.
Proof.
  intros Hwf H. unfold join_employees in H.
  assert (W : (nrows df <= nrows (without_employees df))%nat /\
              well_formed (without_employees df))
    by (split; [apply Nat.le_refl|now apply without_employees_well_formed]).
  destruct employees as [e|]; [|inversion H; subst; exact W].
  destruct (empty e); [inversion H; subst; exact W|].
  destruct (get (rename snake_case e) "employee_name") as [names|];
    simpl in H; [|discriminate].
  unfold getitem in H. destruct (get df "operator") as [ops|] eqn:Eo;
    simpl in H; [|discriminate].
  apply merge_rows in H; [exact H| |exact I].
  apply setitem_well_formed; [exact Hwf|].
  unfold str_map, astype_str. rewrite !length_map.
  exact (column_length df _ ops Hwf Eo).
Qed.

Lemma join_reference_rows (df df' : DataFrame) (ref : option DataFrame)
    (join : DataFrame -> DataFrame -> result DataFrame) :
  well_formed df ->
  (forall l r out : DataFrame,
     well_formed l -> join l r = Ok out ->
     (nrows l <= nrows out)%nat /\ well_formed out) ->
  join_reference df ref join = Ok df' ->
  (nrows df <= nrows df')%nat /\ well_formed df'.
Proof.
  intros Hwf Hjoin H. unfold join_reference in H.
  destruct ref as [t|]; [|inversion H; subst; split; [lia|exact Hwf]].
  destruct (empty t); [inversion H; subst; split; [lia|exact Hwf]|].
  exact (Hjoin df _ df' Hwf H).
Qed.

(** The enricher keeps every ticket: whatever reference tables it joins, a
    result has at least the rows of the ticket table, and its columns are as
    long as its index. *)
Theorem enrich_tickets_keeps_every_ticket (tickets out : DataFrame)
    (employees channel service_type fault_type location : option DataFrame) :
  empty tickets = false -> well_formed tickets ->
  enrich_tickets (Some tickets) employees channel service_type fault_type
    location = Ok out ->
  (nrows tickets <= nrows out)%nat /\ well_formed out.
Proof.
  intros Hne Hwf H. unfold enrich_tickets, none_or_empty in H. rewrite Hne in H.
  destruct (join_employees tickets employees) as [d1|] eqn:E1;
    simpl in H; [|discriminate].
  destruct (join_reference d1 channel _) as [d2|] eqn:E2;
    simpl in H; [|discriminate].
  destruct (join_reference d2 service_type _) as [d3|] eqn:E3;
    simpl in H; [|discriminate].
  destruct (join_reference d3 fault_type _) as [d4|] eqn:E4;
    simpl in H; [|discriminate].
  apply join_employees_rows in E1; [|exact Hwf]. destruct E1 as [N1 W1].
  apply join_reference_rows in E2;
    [|exact W1|intros l r o Wl Hm; now apply merge_rows in Hm].
  destruct E2 as [N2 W2].
  apply join_reference_rows in E3;
    [|exact W2|intros l r o Wl Hm; now apply merge_rows in Hm].
  destruct E3 as [N3 W3].
  apply join_reference_rows in E4; [|exact W3|].
  - destruct E4 as [N4 W4].
    apply join_reference_rows in H;
      [|exact W4|intros l r o Wl Hm; now apply merge_rows in Hm].
    destruct H as [N5 W5]. split; [lia|exact W5].
  - intros l r o Wl Hm.
    destruct (get l "fault_type") as [v|] eqn:Ef; simpl in Hm; [|discriminate].
    apply merge_rows in Hm; [exact Hm|exact Wl|].
    unfold str_map. rewrite length_map. exact (column_length l _ v Wl Ef).
Qed.


Lemma carries_refl (P : string -> bool) (df : DataFrame) : carries P df df.
Proof. split; [auto|]. intros i Hi. exists i. auto. Qed.

Lemma carries_trans (P : string -> bool) (d1 d2 d3 : DataFrame) :
  carries P d1 d2 -> carries P d2 d3 -> carries P d1 d3.
Proof.
  intros [H1 R1] [H2 R2]. split; [auto|].
  intros i Hi. destruct (R1 i Hi) as [j [Hj Ej]]. destruct (R2 j Hj) as [k [Hk Ek]].
  exists k. split; [exact Hk|]. intros c Pc Hc.
  rewrite (Ek c Pc (H1 c Pc Hc)). now apply Ej.
Qed.

Lemma merge_carries (P : string -> bool) (left right out : DataFrame)
    (c0 right_on rsuffix : string) :
  well_formed left ->
  merge left right (Label c0) right_on ("", rsuffix) = Ok out ->
  carries P left out.
Proof.
  intros Hwf H. destruct (merge_keeps_left _ _ _ _ _ _ Hwf H) as [Hc Hr].
  split; [auto|]. intros i Hi. destruct (Hr i Hi) as [j [Hj Ej]].
  exists j. split; [exact Hj|]. auto.
Qed.

Lemma setitem_carries (P : string -> bool) (df : DataFrame) (c0 : string)
    (v : list cell) :
  P c0 = false -> carries P df (setitem df c0 v).
Proof.
  intros P0.
  assert (G : forall c : string, P c = true -> get (setitem df c0 v) c = get df c).
  { intros c Pc. apply get_setitem_other. apply String.eqb_neq. intros ->. congruence. }
  split.
  - intros c Pc Hc. rewrite has_column_get in *. now rewrite (G c Pc).
  - intros i Hi. exists i. split; [exact Hi|]. intros c Pc _.
    apply cell_at_same_column. now apply G.
Qed.

Lemma join_employees_carries (df df' : DataFrame) (employees : option DataFrame) :
  well_formed df -> join_employees df employees = Ok df' ->
  carries (fun c => negb (Py.mem c employee_step_labels)) df df'.
Proof.
  intros Hwf H. unfold join_employees in H.
  assert (W : carries (fun c => negb (Py.mem c employee_step_labels)) df
                (without_employees df)).
  { unfold without_employees, setitem_scalar.
    repeat (eapply carries_trans; [|apply setitem_carries; reflexivity]).
    apply carries_refl. }
  destruct employees as [e|]; [|inversion H; subst; exact W].
  destruct (empty e); [inversion H; subst; exact W|].
  destruct (get (rename snake_case e) "employee_name") as [names|];
    simpl in H; [|discriminate].
  unfold getitem in H. destruct (get df "operator") as [ops|] eqn:Eo;
    simpl in H; [|discriminate].
  apply (carries_trans _ df
           (setitem df "operator_lc" (str_map Py.lower (astype_str ops))));
    [apply setitem_carries; reflexivity|].
  eapply merge_carries; [|exact H].
  apply setitem_well_formed; [exact Hwf|].
  unfold str_map, astype_str. rewrite !length_map.
  exact (column_length df _ ops Hwf Eo).
Qed.

Lemma join_reference_carries (P : string -> bool) (df df' : DataFrame)
    (ref : option DataFrame) (c0 right_on rsuffix : string) :
  well_formed df ->
  join_reference df ref (fun l r => merge l r (Label c0) right_on ("", rsuffix))
  = Ok df' ->
  carries P df df'.
Proof.
  intros Hwf H. unfold join_reference in H.
  destruct ref as [t|]; [|inversion H; subst; apply carries_refl].
  destruct (empty t); [inversion H; subst; apply carries_refl|].
  exact (merge_carries P _ _ _ _ _ _ Hwf H).
Qed.

(** When the channel and the fault-type table are left out, every ticket
    is found again in the result with all its own fields under their own
    names: the employee, service-type and location joins pass the empty
    suffix for the ticket side.  Only the columns the employee step writes
    itself are not covered. *)
Theorem enrich_tickets_keeps_ticket_fields (tickets out : DataFrame)
    (employees channel service_type fault_type location : option DataFrame) :
  empty tickets = false -> well_formed tickets ->
  none_or_empty channel = true -> none_or_empty fault_type = true ->
  enrich_tickets (Some tickets) employees channel service_type fault_type
    location = Ok out ->
  carries (fun c => negb (Py.mem c employee_step_labels)) tickets out.
Proof.
  intros Hne Hwf Hc Hf H. unfold enrich_tickets, none_or_empty in H.
  rewrite Hne in H.
  destruct (join_employees tickets employees) as [d1|] eqn:E1;
    simpl in H; [|discriminate].
  rewrite (join_reference_skip d1 channel _ Hc) in H. simpl in H.
  destruct (join_reference d1 service_type _) as [d3|] eqn:E3;
    simpl in H; [|discriminate].
  rewrite (join_reference_skip d3 fault_type _ Hf) in H. simpl in H.
  pose proof (join_employees_rows _ _ _ Hwf E1) as [_ W1].
  assert (W3 : well_formed d3).
  { apply join_reference_rows in E3; [now destruct E3|exact W1|].
    intros l r o Wl Hm. now apply merge_rows in Hm. }
  eapply carries_trans; [exact (join_employees_carries _ _ _ Hwf E1)|].
  eapply carries_trans; [exact (join_reference_carries _ _ _ _ _ _ _ W1 E3)|].
  exact (join_reference_carries _ _ _ _ _ _ _ W3 H).
Qed.

Lemma join_reference_KeyError (df t : DataFrame) (c0 right_on : string)
    (suffixes : string * string) :
  empty t = false -> get df c0 = None ->
  join_reference df (Some t)
    (fun l r => merge l r (Label c0) right_on suffixes) = Raise KeyError.
Proof.
  intros Ht E. unfold join_reference. rewrite Ht.
  unfold merge, getitem. now rewrite E.
Qed.

Lemma none_or_empty_false (ref : option DataFrame) :
  none_or_empty ref = false ->
  exists t : DataFrame, ref = Some t /\ empty t = false.
Proof. destruct ref as [t|]; simpl; [eauto|discriminate]. Qed.

(** The enricher has no default for a join key: given a non-empty channel,
    service-type or location table, a ticket table without [report_channel],
    [service_code] or [state_key] makes it raise a KeyError.  (The earlier
    joins are left out, so that the table reaches the join as it is.) *)
Theorem enrich_tickets_needs_join_keys (tickets : DataFrame)
    (employees channel service_type fault_type location : option DataFrame) :
  empty tickets = false -> none_or_empty employees = true ->
  (none_or_empty channel = false -> get tickets "report_channel" = None ->
   enrich_tickets (Some tickets) employees channel service_type fault_type
     location = Raise KeyError) /\
  (none_or_empty channel = true -> none_or_empty service_type = false ->
   get tickets "service_code" = None ->
   enrich_tickets (Some tickets) employees channel service_type fault_type
     location = Raise KeyError) /\
  (none_or_empty channel = true -> none_or_empty service_type = true ->
   none_or_empty fault_type = true -> none_or_empty location = false ->
   get tickets "state_key" = None ->
   enrich_tickets (Some tickets) employees channel service_type fault_type
     location = Raise KeyError).
Proof.
  intros Hne He.
  assert (J : join_employees tickets employees = Ok (without_employees tickets)).
  { unfold join_employees. destruct employees as [e|]; [|reflexivity].
    simpl in He. now rewrite He. }
  split; [|split].
  - intros Hc E. unfold enrich_tickets. cbn [none_or_empty]. rewrite Hne, J. simpl.
    destruct (none_or_empty_false _ Hc) as [t [-> Ht]].
    rewrite join_reference_KeyError; [reflexivity|exact Ht|].
    now rewrite without_employees_other.
  - intros Hc Hs E. unfold enrich_tickets. cbn [none_or_empty]. rewrite Hne, J. simpl.
    rewrite (join_reference_skip _ channel _ Hc). simpl.
    destruct (none_or_empty_false _ Hs) as [t [-> Ht]].
    rewrite join_reference_KeyError; [reflexivity|exact Ht|].
    now rewrite without_employees_other.
  - intros Hc Hs Hf Hl E. unfold enrich_tickets. cbn [none_or_empty].
    rewrite Hne, J. simpl.
    rewrite (join_reference_skip _ channel _ Hc). simpl.
    rewrite (join_reference_skip _ service_type _ Hs). simpl.
    rewrite (join_reference_skip _ fault_type _ Hf). simpl.
    destruct (none_or_empty_false _ Hl) as [t [-> Ht]].
    rewrite join_reference_KeyError; [reflexivity|exact Ht|].
    now rewrite without_employees_other.
Qed.

(** Two defaults of the enricher are strings where a column is needed, and
    so raise an AttributeError instead of degrading: a non-empty employee
    table without an [employee_name] column, with any tickets, and a
    non-empty fault-type table with tickets that have no [fault_type]
    column. *)
Theorem enrich_tickets_string_defaults_raise (tickets : DataFrame)
    (employees channel service_type fault_type location : option DataFrame) :
  empty tickets = false ->
  (forall e : DataFrame,
     employees = Some e -> empty e = false ->
     get (rename snake_case e) "employee_name" = None ->
     enrich_tickets (Some tickets) employees channel service_type fault_type
       location = Raise AttributeError) /\
  (none_or_empty employees = true -> none_or_empty channel = true ->
   none_or_empty service_type = true -> none_or_empty fault_type = false ->
   get tickets "fault_type" = None ->
   enrich_tickets (Some tickets) employees channel service_type fault_type
     location = Raise AttributeError).
Proof.
  intros Hne. split.
  - intros e -> He En. unfold enrich_tickets. cbn [none_or_empty]. rewrite Hne.
    unfold join_employees. now rewrite He, En.
  - intros He Hc Hs Hf E. unfold enrich_tickets. cbn [none_or_empty]. rewrite Hne.
    assert (J : join_employees tickets employees = Ok (without_employees tickets)).
    { unfold join_employees. destruct employees as [e|]; [|reflexivity].
      simpl in He. now rewrite He. }
    rewrite J. simpl.
    rewrite (join_reference_skip _ channel _ Hc). simpl.
    rewrite (join_reference_skip _ service_type _ Hs). simpl.
    destruct (none_or_empty_false _ Hf) as [t [-> Ht]].
    unfold join_reference at 1. rewrite Ht.
    rewrite without_employees_other by reflexivity. now rewrite E.
Qed.


(** *** Rows of a join, one by one *)

Lemma matches_In (k : cell) (rkeys : list cell) (r : nat) :
  (r < length rkeys)%nat -> cell_eqb k (nth r rkeys NaN) = true ->
  In r (matches k rkeys).
Proof.
  intros Hr E. unfold matches. apply filter_In. split; [apply in_seq; lia|exact E].
Qed.

Lemma matches_nil (k : cell) (rkeys : list cell) :
  (forall r : nat, (r < length rkeys)%nat -> cell_eqb k (nth r rkeys NaN) = false) ->
  matches k rkeys = [].
Proof.
  intros H. unfold matches. apply filter_nothing. intros r Hr.
  apply in_seq in Hr. apply H. lia.
Qed.

Lemma left_indexer_matched (lkeys rkeys : list cell) (i r : nat) :
  (i < length lkeys)%nat -> In r (matches (nth i lkeys NaN) rkeys) ->
  In (i, Some r) (left_indexer lkeys rkeys).
Proof.
  intros Hi Hr. unfold left_indexer. apply in_flat_map.
  exists i. split; [apply in_seq; lia|].
  destruct (matches (nth i lkeys NaN) rkeys) as [|j js]; [destruct Hr|].
  apply in_map_iff. eauto.
Qed.

Lemma left_indexer_unmatched (lkeys rkeys : list cell) (i : nat) :
  (i < length lkeys)%nat -> matches (nth i lkeys NaN) rkeys = [] ->
  In (i, None) (left_indexer lkeys rkeys).
Proof.
  intros Hi E. unfold left_indexer. apply in_flat_map.
  exists i. split; [apply in_seq; lia|]. rewrite E. now left.
Qed.

Lemma left_indexer_unique (lkeys rkeys : list cell) :
  unique_keys rkeys -> length (left_indexer lkeys rkeys) = length lkeys.
Proof.
  intros Hu. unfold left_indexer.
  set (f := fun i : nat =>
              match matches (nth i lkeys NaN) rkeys with
              | [] => [(i, @None nat)]
              | j :: js => map (fun j' => (i, Some j')) (j :: js)
              end).
  assert (F : forall i : nat, length (f i) = 1%nat).
  { intros i. unfold f. specialize (Hu (nth i lkeys NaN)).
    destruct (matches (nth i lkeys NaN) rkeys) as [|j [|j' js]];
      simpl in *; try reflexivity. lia. }
  assert (G : forall l : list nat, length (flat_map f l) = length l).
  { induction l as [|i l IH]; [reflexivity|].
    cbn [flat_map]. rewrite length_app, F, IH. reflexivity. }
  now rewrite G, length_seq.
Qed.

(** The shape of a join on a labelled key. *)
Lemma merge_structure (left right out : DataFrame) (c0 right_on : string)
    (lsuffix rsuffix : string) :
  merge left right (Label c0) right_on (lsuffix, rsuffix) = Ok out ->
  exists lkeys rkeys : list cell,
    get left c0 = Some lkeys /\ get right right_on = Some rkeys /\
    let idx := left_indexer lkeys rkeys in
    let rcols := if String.eqb c0 right_on
                 then filter (fun cv => negb (String.eqb (fst cv) right_on))
                        (columns right)
                 else columns right in
    let to_rename := overlap (columns left) rcols in
    out = mkDF (map (fun cv => (suffixed to_rename lsuffix (fst cv),
                                take_left idx (snd cv))) (columns left)
                ++ map (fun cv => (suffixed to_rename rsuffix (fst cv),
                                   take_right idx (snd cv))) rcols)
            (length idx).
Proof.
  intros H. unfold merge, getitem in H.
  destruct (get left c0) as [lkeys|]; simpl in H; [|discriminate].
  destruct (get right right_on) as [rkeys|]; simpl in H; [|discriminate].
  exists lkeys, rkeys. split; [reflexivity|]. split; [reflexivity|]. cbv zeta.
  destruct (overlap _ _) as [|x xs]; destruct lsuffix, rsuffix;
    try discriminate; now inversion H.
Qed.

Lemma merge_rows_unique (left right out : DataFrame) (c0 right_on : string)
    (suffixes : string * string) (rkeys : list cell) :
  well_formed left ->
  get right right_on = Some rkeys -> unique_keys rkeys ->
  merge left right (Label c0) right_on suffixes = Ok out ->
  nrows out = nrows left.
Proof.
  intros Hwf Er Hu H. destruct suffixes as [ls rs].
  destruct (merge_structure _ _ _ _ _ _ _ H) as (lkeys & rk & El & Er' & ->).
  rewrite Er in Er'. inversion Er'; subst rk. simpl.
  rewrite (left_indexer_unique lkeys rkeys Hu).
  exact (column_length left c0 lkeys Hwf El).
Qed.


Lemma merge_nrows (left right out : DataFrame) (left_on : key) (right_on : string)
    (suffixes : string * string) :
  merge left right left_on right_on suffixes = Ok out ->
  exists lkeys rkeys : list cell,
    match left_on with
    | Label c => get left c = Some lkeys
    | Values v => lkeys = v
    end /\
    get right right_on = Some rkeys /\
    nrows out = length (left_indexer lkeys rkeys).
Proof.
  intros H. unfold merge, getitem in H.
  destruct left_on as [c|v].
  - destruct (get left c) as [lkeys|]; simpl in H; [|discriminate].
    destruct (get right right_on) as [rkeys|]; simpl in H; [|discriminate].
    exists lkeys, rkeys. split; [reflexivity|]. split; [reflexivity|].
    destruct (overlap _ _) as [|x xs]; destruct suffixes as [[|a ls] [|b rs]];
      try discriminate; now inversion H.
  - simpl in H.
    destruct (get right right_on) as [rkeys|]; simpl in H; [|discriminate].
    exists v, rkeys. split; [reflexivity|]. split; [reflexivity|].
    destruct (overlap _ _) as [|x xs]; destruct suffixes as [[|a ls] [|b rs]];
      try discriminate; now inversion H.
Qed.

Lemma join_reference_unique (df df' : DataFrame) (ref : option DataFrame)
    (join : DataFrame -> DataFrame -> result DataFrame) :
  (forall t out : DataFrame,
     ref = Some t -> join df (rename snake_case t) = Ok out ->
     nrows out = nrows df) ->
  join_reference df ref join = Ok df' -> nrows df' = nrows df.
Proof.
  intros Hjoin H. unfold join_reference in H.
  destruct ref as [t|]; [|now inversion H].
  destruct (empty t); [now inversion H|].
  exact (Hjoin t df' eq_refl H).
Qed.

(** With reference tables in which no key occurs twice the enricher
    returns exactly one row per ticket: fan-out comes from repeated
    reference keys only. *)
Theorem enrich_tickets_without_fan_out (tickets out : DataFrame)
    (employees channel service_type fault_type location : option DataFrame) :
  empty tickets = false -> well_formed tickets ->
  (forall (e : DataFrame) (names : list cell),
     employees = Some e ->
     get (rename snake_case e) "employee_name" = Some names ->
     unique_keys (str_map Py.lower (astype_str names))) ->
  (forall (t : DataFrame) (keys : list cell),
     channel = Some t -> get (rename snake_case t) "channel_key" = Some keys ->
     unique_keys keys) ->
  (forall (t : DataFrame) (keys : list cell),
     service_type = Some t -> get (rename snake_case t) "service_code" = Some keys ->
     unique_keys keys) ->
  (forall (t : DataFrame) (keys : list cell),
     fault_type = Some t -> get (rename snake_case t) "fault" = Some keys ->
     unique_keys keys) ->
  (forall (t : DataFrame) (keys : list cell),
     location = Some t -> get (rename snake_case t) "state_key" = Some keys ->
     unique_keys keys) ->
  enrich_tickets (Some tickets) employees channel service_type fault_type
    location = Ok out ->
  nrows out = nrows tickets.
Proof.
  intros Hne Hwf Ue Uc Us Uf Ul H.
  unfold enrich_tickets, none_or_empty in H. rewrite Hne in H.
  destruct (join_employees tickets employees) as [d1|] eqn:E1;
    simpl in H; [|discriminate].
  destruct (join_reference d1 channel _) as [d2|] eqn:E2;
    simpl in H; [|discriminate].
  destruct (join_reference d2 service_type _) as [d3|] eqn:E3;
    simpl in H; [|discriminate].
  destruct (join_reference d3 fault_type _) as [d4|] eqn:E4;
    simpl in H; [|discriminate].
  pose proof (join_employees_rows _ _ _ Hwf E1) as [_ W1].
  assert (W2 : well_formed d2).
  { apply join_reference_rows in E2; [now destruct E2|exact W1|].
    intros l r o Wl Hm. now apply merge_rows in Hm. }
  assert (W3 : well_formed d3).
  { apply join_reference_rows in E3; [now destruct E3|exact W2|].
    intros l r o Wl Hm. now apply merge_rows in Hm. }
  assert (W4 : well_formed d4).
  { apply join_reference_rows in E4; [now destruct E4|exact W3|].
    intros l r o Wl Hm.
    destruct (get l "fault_type") as [v|] eqn:Ef; simpl in Hm; [|discriminate].
    apply merge_rows in Hm; [now destruct Hm|exact Wl|].
    unfold str_map. rewrite length_map. exact (column_length l _ v Wl Ef). }
  assert (N1 : nrows d1 = nrows tickets).
  { unfold join_employees in E1.
    destruct employees as [e|]; [|now inversion E1].
    destruct (empty e); [now inversion E1|].
    destruct (get (rename snake_case e) "employee_name") as [names|] eqn:En;
      simpl in E1; [|discriminate].
    unfold getitem in E1. destruct (get tickets "operator") as [ops|] eqn:Eo;
      simpl in E1; [|discriminate].
    transitivity (nrows (setitem tickets "operator_lc"
                           (str_map Py.lower (astype_str ops)))); [|reflexivity].
    eapply merge_rows_unique; [| | |exact E1].
    - apply setitem_well_formed; [exact Hwf|].
      unfold str_map, astype_str. rewrite !length_map.
      exact (column_length tickets _ ops Hwf Eo).
    - apply get_setitem_same.
    - exact (Ue e names eq_refl En). }
  assert (N2 : nrows d2 = nrows d1).
  { apply (join_reference_unique _ _ _ _) in E2; [exact E2|].
    intros t o -> Hm.
    destruct (merge_structure _ _ _ _ _ _ _ Hm) as (lk & rk & _ & Er & _).
    exact (merge_rows_unique _ _ _ _ _ _ rk W1 Er (Uc t rk eq_refl Er) Hm). }
  assert (N3 : nrows d3 = nrows d2).
  { apply (join_reference_unique _ _ _ _) in E3; [exact E3|].
    intros t o -> Hm.
    destruct (merge_structure _ _ _ _ _ _ _ Hm) as (lk & rk & _ & Er & _).
    exact (merge_rows_unique _ _ _ _ _ _ rk W2 Er (Us t rk eq_refl Er) Hm). }
  assert (N4 : nrows d4 = nrows d3).
  { apply (join_reference_unique _ _ _ _) in E4; [exact E4|].
    intros t o -> Hm.
    destruct (get d3 "fault_type") as [v|] eqn:Ef; simpl in Hm; [|discriminate].
    destruct (merge_nrows _ _ _ _ _ _ Hm) as (lk & rk & -> & Er & ->).
    rewrite (left_indexer_unique _ rk (Uf t rk eq_refl Er)).
    unfold str_map. rewrite length_map. exact (column_length d3 _ v W3 Ef). }
  assert (N5 : nrows out = nrows d4).
  { apply (join_reference_unique _ _ _ _) in H; [exact H|].
    intros t o -> Hm.
    destruct (merge_structure _ _ _ _ _ _ _ Hm) as (lk & rk & _ & Er & _).
    exact (merge_rows_unique _ _ _ _ _ _ rk W4 Er (Ul t rk eq_refl Er) Hm). }
  lia.
Qed.


Lemma lookup_app_r (c : string) (l1 l2 : list (string * list cell)) :
  lookup c l1 = None -> lookup c (l1 ++ l2) = lookup c l2.
Proof.
  induction l1 as [|[c1 v1] rest IH]; simpl; [reflexivity|].
  destruct (String.eqb c c1); [discriminate|exact IH].
Qed.

Lemma lookup_filter_other (c k : string) (cols : list (string * list cell)) :
  String.eqb c k = false ->
  lookup c (filter (fun cv => negb (String.eqb (fst cv) k)) cols) = lookup c cols.
Proof.
  intros Hk. induction cols as [|[c1 v1] rest IH]; simpl; [reflexivity|].
  destruct (String.eqb_spec c1 k) as [->|Hne]; simpl.
  - now rewrite Hk.
  - now rewrite IH.
Qed.

Lemma mem_In (c : string) (l : list string) : Py.mem c l = true <-> In c l.
Proof.
  unfold Py.mem. rewrite existsb_exists. split.
  - intros [x [Hx E]]. apply String.eqb_eq in E. now subst.
  - intros H. exists c. split; [exact H|apply String.eqb_refl].
Qed.

(** The cells of one result row of a join that passes the empty suffix for
    the left side: the left columns hold the left row, a column the left
    table has not got is missing when the row has no partner, and holds the
    partner's cell when the two tables share no further label. *)
Lemma merge_row_cells (left right out : DataFrame) (k rsuffix : string) :
  merge left right (Label k) k ("", rsuffix) = Ok out ->
  exists lkeys rkeys : list cell,
    get left k = Some lkeys /\ get right k = Some rkeys /\
    nrows out = length (left_indexer lkeys rkeys) /\
    forall (j i : nat) (r : option nat),
      (j < nrows out)%nat ->
      nth j (left_indexer lkeys rkeys) (0%nat, None) = (i, r) ->
      (forall c : string,
         has_column left c = true -> cell_at out j c = cell_at left i c) /\
      (forall c : string,
         has_column left c = false -> r = None -> cell_at out j c = NaN) /\
      (forall (c : string) (v : list cell) (r' : nat),
         (forall c' : string,
            has_column right c' = true -> c' = k \/ has_column left c' = false) ->
         has_column left c = false -> get right c = Some v -> r = Some r' ->
         cell_at out j c = nth r' v NaN).
Proof.
  intros H.
  destruct (merge_structure _ _ _ _ _ _ _ H) as (lkeys & rkeys & El & Er & Hout).
  cbv zeta in Hout. rewrite String.eqb_refl in Hout.
  exists lkeys, rkeys. split; [exact El|]. split; [exact Er|].
  set (idx := left_indexer lkeys rkeys) in *.
  set (rcols := filter (fun cv => negb (String.eqb (fst cv) k)) (columns right)) in *.
  set (tr := overlap (columns left) rcols) in *.
  assert (Hl : map (fun cv => (suffixed tr "" (fst cv), take_left idx (snd cv)))
                 (columns left)
               = map (fun cv => (fst cv, take_left idx (snd cv))) (columns left))
    by (apply map_ext; intros [c v]; simpl; now rewrite suffixed_empty).
  rewrite Hl in Hout. subst out. split; [reflexivity|].
  intros j i r Hj Ej. simpl in Hj.
  assert (Gl : forall c : string,
            lookup c (map (fun cv => (fst cv, take_left idx (snd cv)))
                        (columns left))
            = option_map (take_left idx) (get left c))
    by (intros c; apply (lookup_map_values (take_left idx))).
  split; [|split].
  - intros c Hc. rewrite has_column_get in Hc.
    destruct (get left c) as [v|] eqn:E; [|discriminate].
    unfold cell_at, row_get, row_at, get. simpl.
    rewrite (lookup_app_l c (take_left idx v)) by (rewrite Gl, E; reflexivity).
    fold (get left c). rewrite E. unfold take_left.
    rewrite (nth_map_default (fun p => nth (fst p) v NaN) idx j (0%nat, None) NaN Hj).
    now rewrite Ej.
  - intros c Hc ->. rewrite has_column_get in Hc.
    destruct (get left c) as [v|] eqn:E; [discriminate|].
    unfold cell_at, row_get, row_at, get. simpl.
    rewrite lookup_app_r by (rewrite Gl, E; reflexivity).
    destruct (lookup c _) as [w|] eqn:Ew; [|reflexivity].
    apply lookup_In in Ew. destruct Ew as [c' Hin].
    apply in_map_iff in Hin. destruct Hin as [[c0 v0] [E0 _]].
    inversion E0; subst w. unfold take_right.
    rewrite (nth_map_default _ idx j (0%nat, None) NaN Hj). now rewrite Ej.
  - intros c v r' Hshare Hc Ev ->. rewrite has_column_get in Hc.
    destruct (get left c) as [vl|] eqn:E; [discriminate|].
    assert (Hck : String.eqb c k = false).
    { apply String.eqb_neq. intros ->. congruence. }
    assert (Htr : tr = []).
    { unfold tr, overlap. apply filter_nothing. intros c' Hc'.
      destruct (Py.mem c' (map fst rcols)) eqn:M; [|reflexivity].
      apply mem_In in M. apply in_map_iff in M. destruct M as [[c1 v1] [E1 Hin]].
      simpl in E1. subst c1. unfold rcols in Hin. apply filter_In in Hin.
      destruct Hin as [Hin Hk]. simpl in Hk.
      assert (Hr : has_column right c' = true).
      { unfold has_column, labels. apply mem_In. apply in_map_iff.
        exists (c', v1). auto. }
      assert (Hleft : has_column left c' = true).
      { unfold has_column, labels. now apply mem_In. }
      destruct (Hshare c' Hr) as [->|Hn].
      - rewrite String.eqb_refl in Hk. discriminate.
      - congruence. }
    unfold cell_at, row_get, row_at, get. simpl.
    rewrite lookup_app_r by (rewrite Gl, E; reflexivity).
    rewrite Htr.
    assert (Hr : map (fun cv => (suffixed [] rsuffix (fst cv),
                                 take_right idx (snd cv))) rcols
                 = map (fun cv => (fst cv, take_right idx (snd cv))) rcols)
      by (apply map_ext; intros [c1 v1]; reflexivity).
    rewrite Hr, (lookup_map_values (take_right idx)).
    unfold rcols. rewrite (lookup_filter_other c k _ Hck).
    fold (get right c). rewrite Ev. simpl. unfold take_right.
    rewrite (nth_map_default _ idx j (0%nat, None) NaN Hj). now rewrite Ej.
Qed.


Lemma enrich_tickets_location_only (tickets loc : DataFrame)
    (employees channel service_type fault_type : option DataFrame) :
  empty tickets = false ->
  none_or_empty employees = true -> none_or_empty channel = true ->
  none_or_empty service_type = true -> none_or_empty fault_type = true ->
  empty loc = false ->
  enrich_tickets (Some tickets) employees channel service_type fault_type (Some loc)
  = merge (without_employees tickets) (rename snake_case loc)
      (Label "state_key") "state_key" ("", "_loc").
Proof.
  intros Hne He Hc Hs Hf Hl. unfold enrich_tickets. cbn [none_or_empty].
  rewrite Hne.
  assert (J : join_employees tickets employees = Ok (without_employees tickets)).
  { unfold join_employees. destruct employees as [e|]; [|reflexivity].
    simpl in He. now rewrite He. }
  rewrite J. simpl.
  rewrite (join_reference_skip _ channel _ Hc). simpl.
  rewrite (join_reference_skip _ service_type _ Hs). simpl.
  rewrite (join_reference_skip _ fault_type _ Hf). simpl.
  unfold join_reference. now rewrite Hl.
Qed.

(** The location join, alone, is a left join on [state_key].  A ticket
    whose key no location has is kept once, with every added column
    missing; a ticket whose key a location has is kept with that location's
    cells, once for each such location, so two locations with the key give
    two rows.  In each of these rows the ticket's own columns, the four
    employee placeholders among them, are as they were. *)
Theorem enrich_tickets_location_join (tickets loc out : DataFrame)
    (employees channel service_type fault_type : option DataFrame)
    (lkeys rkeys : list cell) (i : nat) :
  empty tickets = false -> well_formed tickets ->
  none_or_empty employees = true -> none_or_empty channel = true ->
  none_or_empty service_type = true -> none_or_empty fault_type = true ->
  empty loc = false ->
  enrich_tickets (Some tickets) employees channel service_type fault_type (Some loc)
  = Ok out ->
  get tickets "state_key" = Some lkeys ->
  get (rename snake_case loc) "state_key" = Some rkeys ->
  (i < nrows tickets)%nat ->
  let own := without_employees tickets in
  ((forall r : nat,
      (r < length rkeys)%nat ->
      cell_eqb (nth i lkeys NaN) (nth r rkeys NaN) = false) ->
   exists j : nat,
     (j < nrows out)%nat /\
     (forall c : string,
        has_column own c = true -> cell_at out j c = cell_at own i c) /\
     (forall c : string, has_column own c = false -> cell_at out j c = NaN)) /\
  (forall r : nat,
     (r < length rkeys)%nat ->
     cell_eqb (nth i lkeys NaN) (nth r rkeys NaN) = true ->
     exists j : nat,
       (j < nrows out)%nat /\
       (forall c : string,
          has_column own c = true -> cell_at out j c = cell_at own i c) /\
       (forall (c : string) (v : list cell),
          (forall c' : string,
             has_column (rename snake_case loc) c' = true ->
             c' = "state_key" \/ has_column own c' = false) ->
          has_column own c = false ->
          get (rename snake_case loc) c = Some v ->
          cell_at out j c = nth r v NaN)) /\
  (forall r1 r2 : nat,
     (r1 < r2)%nat -> (r2 < length rkeys)%nat ->
     cell_eqb (nth i lkeys NaN) (nth r1 rkeys NaN) = true ->
     cell_eqb (nth i lkeys NaN) (nth r2 rkeys NaN) = true ->
     exists j1 j2 : nat,
       j1 <> j2 /\ (j1 < nrows out)%nat /\ (j2 < nrows out)%nat /\
       forall c : string,
         has_column own c = true ->
         cell_at out j1 c = cell_at own i c /\
         cell_at out j2 c = cell_at own i c).
Proof.
  intros Hne Hwf He Hc Hs Hf Hl H El Er Hi. cbv zeta.
  rewrite (enrich_tickets_location_only _ _ _ _ _ _ Hne He Hc Hs Hf Hl) in H.
  destruct (merge_row_cells _ _ _ _ _ H) as (lk & rk & El' & Er' & Hn & Hrow).
  rewrite without_employees_other in El' by reflexivity.
  rewrite El in El'. inversion El'; subst lk.
  rewrite Er in Er'. inversion Er'; subst rk. clear El' Er'.
  assert (Li : (i < length lkeys)%nat)
    by (rewrite (column_length tickets _ lkeys Hwf El); exact Hi).
  assert (Hat : forall r : option nat,
            In (i, r) (left_indexer lkeys rkeys) ->
            exists j : nat,
              (j < nrows out)%nat /\
              nth j (left_indexer lkeys rkeys) (0%nat, None) = (i, r)).
  { intros r Hin. destruct (In_nth _ _ (0%nat, None) Hin) as [j [Hj Ej]].
    exists j. rewrite Hn. auto. }
  split; [|split].
  - intros Hno.
    destruct (Hat None (left_indexer_unmatched lkeys rkeys i Li
                          (matches_nil _ _ Hno))) as [j [Hj Ej]].
    destruct (Hrow j i None Hj Ej) as (R1 & R2 & _).
    exists j. split; [exact Hj|]. split; [exact R1|]. intros c Hc'. now apply R2.
  - intros r Hr Em.
    destruct (Hat (Some r) (left_indexer_matched lkeys rkeys i r Li
                              (matches_In _ _ r Hr Em))) as [j [Hj Ej]].
    destruct (Hrow j i (Some r) Hj Ej) as (R1 & _ & R3).
    exists j. split; [exact Hj|]. split; [exact R1|].
    intros c v Hshare Hc' Ev. exact (R3 c v r Hshare Hc' Ev eq_refl).
  - intros r1 r2 L12 L2 E1 E2.
    assert (L1 : (r1 < length rkeys)%nat) by lia.
    destruct (Hat (Some r1) (left_indexer_matched lkeys rkeys i r1 Li
                               (matches_In _ _ r1 L1 E1))) as [j1 [Hj1 Ej1]].
    destruct (Hat (Some r2) (left_indexer_matched lkeys rkeys i r2 Li
                               (matches_In _ _ r2 L2 E2))) as [j2 [Hj2 Ej2]].
    destruct (Hrow j1 i (Some r1) Hj1 Ej1) as (R1 & _).
    destruct (Hrow j2 i (Some r2) Hj2 Ej2) as (R2 & _).
    exists j1, j2. split; [|split; [exact Hj1|split; [exact Hj2|]]].
    + intros ->. rewrite Ej1 in Ej2. inversion Ej2. lia.
    + intros c Hc'. split; [now apply R1|now apply R2].
Qed.


End Pipeline.

(** * The theorems at the sample tables *)

Import Samples.

Lemma resolution_category_buckets_witness :
  exists out : DataFrame,
    compute_sla_metrics float_text timestamp_text (Some enriched) = Ok out /\
    (cell_at out 0 "resolution_category" = Str "1 hour - 3 hours" <->
     exists m : Q, cell_at out 0 "resolution_minutes" = Num m /\
                   (60 <= m)%Q /\ (m <= 180)%Q).
Proof.
  eexists. split; [reflexivity|].
  apply (resolution_category_buckets float_text timestamp_text (Some enriched) _ 0%nat);
    [reflexivity|simpl; lia].
Defined.

Lemma escalation_rule_witness :
  exists out : DataFrame,
    compute_sla_metrics float_text timestamp_text (Some enriched) = Ok out /\
    (cell_at out 1 "escalation" = Bool true <->
     (exists m : Q, cell_at out 1 "resolution_minutes" = Num m /\ (180 < m)%Q) \/
     ((Py.lower (py_str float_text timestamp_text
                   (row_get (row_at out 1) "ticket_status" (Str ""))) = "completed" \/
       Py.lower (py_str float_text timestamp_text
                   (row_get (row_at out 1) "ticket_status" (Str ""))) = "closed") /\
      cell_at out 1 "issue_res_time" = NaN)).
Proof.
  eexists. split; [reflexivity|].
  apply (escalation_rule float_text timestamp_text (Some enriched) _ 1%nat);
    [reflexivity|simpl; lia].
Defined.

Lemma sla_pass_flags_witness :
  exists out : DataFrame,
    compute_sla_metrics float_text timestamp_text (Some enriched) = Ok out /\
    (cell_at out 0 "response_sla_pass" = Bool true <->
     exists s : Q, cell_at out 0 "response_seconds" = Num s /\ (s <= 10)%Q).
Proof.
  eexists. split; [reflexivity|].
  apply (sla_pass_flags float_text timestamp_text (Some enriched) _ 0%nat);
    [reflexivity|simpl; lia].
Defined.

Lemma reversed_timestamps_pass_witness :
  exists out : DataFrame,
    compute_sla_metrics float_text timestamp_text (Some enriched) = Ok out /\
    exists s : Q,
      cell_at out 1 "response_seconds" = Num s /\ (s < 0)%Q /\
      cell_at out 1 "response_sla_pass" = Bool true.
Proof.
  eexists. split; [reflexivity|].
  apply (reversed_timestamps_pass float_text timestamp_text (Some enriched) _ 1%nat
           eq_refl) with (a := 0%Z) (b := 10000000000%Z);
    [simpl; lia|reflexivity|reflexivity|lia].
Defined.

Lemma operator_never_empty_witness :
  (exists s : string,
     cell_at (clean_tickets no_format no_inference float_text timestamp_text
                (Some raw_tickets)) 0 "operator" = Str s /\ s <> "") /\
  cell_at (clean_tickets no_format no_inference float_text timestamp_text
             (Some raw_tickets)) 0 "operator" = Str "UNKNOWN".
Proof.
  destruct (operator_never_empty no_format no_inference float_text timestamp_text
              raw_tickets 0%nat) as [P [Q _]].
  - reflexivity.
  - repeat constructor.
  - repeat constructor.
  - simpl; lia.
  - split; [exact P|]. apply Q. now right.
Defined.

Lemma managers_exclude_rows_without_manager_witness :
  exists p : performance,
    manager_operator_performance (Some unmanaged) = Ok p /\
    (manager_tickets p < 3)%Z.
Proof.
  assert (T : forall p : performance,
             manager_operator_performance (Some unmanaged) = Ok p ->
             (manager_tickets p < 3)%Z).
  { intros p Hp.
    destruct (managers_exclude_rows_without_manager unmanaged p
                [Str "mo"; NaN; NaN] eq_refl)
      as (by_operator & report_id & _ & _ & _ & _ & _ & _ & _ & Hlt).
    - repeat constructor.
    - reflexivity.
    - exact Hp.
    - apply Hlt. exists 1%nat. split; [simpl; lia|reflexivity]. }
  eexists. split; [reflexivity|]. now apply T.
Defined.

(** ** The further properties at the sample tables *)

Lemma load_tables_strips_every_cell_witness :
  is_stripped (Str "AXA-1-WLESS").
Proof.
  apply (load_tables_strips_every_cell data_dir "service_data"
           (read_table data_dir "service_data.csv") "Report ID"
           [Str "AXA-1-WLESS"; Str "AXA-2-WIRED"] (Str "AXA-1-WLESS")).
  - reflexivity.
  - simpl. left. reflexivity.
  - simpl. left. reflexivity.
Defined.

Lemma load_tables_tolerates_missing_files_witness :
  exists t : DataFrame,
    table (load_tables data_dir) "employees" = Some t /\
    (data_dir "employees.csv" = None -> t = empty_frame) /\
    (forall t0 : DataFrame,
       data_dir "employees.csv" = Some t0 ->
       labels t = labels t0 /\ nrows t = nrows t0).
Proof.
  apply (proj1 (load_tables_tolerates_missing_files data_dir "employees")).
  simpl. auto.
Defined.

Lemma load_tables_keeps_text_tables_witness :
  well_formed (read_table data_dir "service_data.csv") /\
  string_typed (read_table data_dir "service_data.csv").
Proof.
  apply (load_tables_keeps_text_tables data_dir "service_data").
  - reflexivity.
  - intros t0 E. inversion E. split; repeat constructor.
Defined.

Lemma clean_tickets_shape_witness :
  nrows (clean_tickets no_format no_inference float_text timestamp_text
           (Some raw_tickets)) = 4%nat /\
  has_column (clean_tickets no_format no_inference float_text timestamp_text
                (Some raw_tickets)) "operator" = true.
Proof.
  destruct (clean_tickets_shape no_format no_inference float_text timestamp_text
              raw_tickets eq_refl) as (N & O & _).
  split; [exact N|exact O].
Defined.

Lemma clean_tickets_parses_time_columns_witness :
  is_time (cell_at (clean_tickets first_format no_inference float_text
                      timestamp_text (Some timed_tickets)) 1 "ticket_open_time")
  = true.
Proof.
  apply (clean_tickets_parses_time_columns first_format no_inference float_text
           timestamp_text timed_tickets "ticket_open_time" 1%nat).
  - reflexivity.
  - simpl. auto.
Defined.

Lemma parse_dt_format_order_witness :
  parse_dt first_format no_inference float_text timestamp_text
    (Str "2020/12/31 17:07:04") = Ts 1609434424000000000.
Proof.
  destruct (parse_dt_format_order first_format no_inference float_text
              timestamp_text (Str "2020/12/31 17:07:04")) as [P _].
  - reflexivity.
  - discriminate.
  - apply (P [] "%Y/%m/%d %H:%M:%S"
             ["%m/%d/%Y %H:%M"; "%Y-%m-%d %H:%M:%S"; "%d/%m/%Y %H:%M:%S"]).
    + reflexivity.
    + intros f [].
    + reflexivity.
Defined.

Lemma clean_tickets_service_code_witness :
  cell_at (clean_tickets no_format no_inference float_text timestamp_text
             (Some raw_tickets)) 1 "service_code" = Str "".
Proof.
  apply (clean_tickets_service_code no_format no_inference float_text timestamp_text
           raw_tickets
           [Str "AXA-20201231-1101-WLESS"; Str "AXA-WLESS"; Str "plain"; NaN]
           1%nat).
  - reflexivity.
  - reflexivity.
  - simpl. lia.
Defined.

Lemma clean_tickets_service_code_uniform_witness :
  cell_at (clean_tickets no_format no_inference float_text timestamp_text
             (Some timed_tickets)) 1 "service_code" = Str "WIRED".
Proof.
  apply (clean_tickets_service_code_uniform no_format no_inference float_text
           timestamp_text timed_tickets
           [Str "AXA-1-WLESS"; Str "AXA-2-WIRED"] 1%nat 3%nat).
  - reflexivity.
  - reflexivity.
  - simpl. lia.
  - repeat constructor.
Defined.

Lemma clean_tickets_without_report_id_witness :
  cell_at (clean_tickets no_format no_inference float_text timestamp_text
             (Some anonymous_tickets)) 1 "service_code" = Str "" /\
  has_column (clean_tickets no_format no_inference float_text timestamp_text
                (Some anonymous_tickets)) "report_id" = false.
Proof.
  apply (clean_tickets_without_report_id no_format no_inference float_text
           timestamp_text anonymous_tickets 1%nat).
  - reflexivity.
  - reflexivity.
  - simpl. lia.
Defined.


Lemma compute_sla_metrics_keeps_input_witness :
  exists out : DataFrame,
    compute_sla_metrics float_text timestamp_text (Some enriched) = Ok out /\
    nrows out = 3%nat /\ get out "operator" = get enriched "operator".
Proof.
  eexists. split; [reflexivity|].
  destruct (compute_sla_metrics_keeps_input float_text timestamp_text enriched _
              eq_refl eq_refl) as (N & K & _).
  split; [exact N|]. apply K. reflexivity.
Defined.



Lemma sla_fields_agree_witness :
  exists out : DataFrame,
    compute_sla_metrics float_text timestamp_text (Some enriched) = Ok out /\
    (cell_at out 0 "resolution_sla_pass" = Bool true ->
     cell_at out 0 "escalation" = Bool false).
Proof.
  eexists. split; [reflexivity|].
  apply (sla_fields_agree float_text timestamp_text (Some enriched) _ 0%nat eq_refl).
  simpl. lia.
Defined.

Lemma manager_operator_performance_needs_columns_witness :
  manager_operator_performance (Some tickets) = Raise KeyError.
Proof.
  apply (manager_operator_performance_needs_columns tickets "response_seconds").
  - reflexivity.
  - simpl. auto.
  - reflexivity.
Defined.

Lemma manager_operator_performance_keys_witness :
  exists (p : performance) (kpi : operator_kpi),
    manager_operator_performance (Some evaluated) = Ok p /\
    dict_get (operators p) (Str "bo") = Some kpi.
Proof.
  assert (T : forall p : performance,
             manager_operator_performance (Some evaluated) = Ok p ->
             exists kpi : operator_kpi, dict_get (operators p) (Str "bo") = Some kpi).
  { intros p Hp.
    destruct (manager_operator_performance_keys evaluated p
                [Str "ada"; Str "bo"] eq_refl Hp eq_refl) as [K _].
    apply (K 1%nat); [simpl; lia|reflexivity]. }
  eexists. destruct (T _ eq_refl) as [kpi E]. exists kpi.
  split; [reflexivity|exact E].
Defined.


Lemma manager_operator_performance_pass_rate_witness :
  exists p : performance,
    manager_operator_performance (Some evaluated) = Ok p /\
    forall (k : cell) (kpi : operator_kpi),
      In (k, kpi) (operators p) ->
      exists r : Q, op_sla_pass_rate kpi = Num r /\ (0 <= r)%Q /\ (r <= 1)%Q.
Proof.
  assert (T : forall p : performance,
             manager_operator_performance (Some evaluated) = Ok p ->
             forall (k : cell) (kpi : operator_kpi),
               In (k, kpi) (operators p) ->
               exists r : Q,
                 op_sla_pass_rate kpi = Num r /\ (0 <= r)%Q /\ (r <= 1)%Q).
  { intros p Hp k kpi Hin.
    exact (manager_operator_performance_pass_rate evaluated p
             [Bool true; Bool false] k kpi eq_refl Hp eq_refl eq_refl Hin). }
  eexists. split; [reflexivity|]. now apply T.
Defined.

Lemma manager_operator_performance_after_compute_sla_metrics_witness :
  exists (out : DataFrame) (p : performance),
    compute_sla_metrics float_text timestamp_text (Some enriched) = Ok out /\
    manager_operator_performance (Some out) = Ok p.
Proof.
  assert (H : exists out : DataFrame,
             compute_sla_metrics float_text timestamp_text (Some enriched) = Ok out)
    by (eexists; reflexivity).
  destruct H as [out H]. exists out.
  destruct (manager_operator_performance_after_compute_sla_metrics float_text
              timestamp_text enriched out H eq_refl eq_refl) as [p Hp].
  exists p. split; [exact H|exact Hp].
Defined.


Lemma pipeline_on_empty_tickets_witness :
  (enriched <- enrich_tickets float_text timestamp_text
                 (Some (clean_tickets no_format no_inference float_text
                          timestamp_text None))
                 (Some nameless_employees) (Some channel) None None
                 (Some locations) ;;
   evaluated <- compute_sla_metrics float_text timestamp_text (Some enriched) ;;
   manager_operator_performance (Some evaluated))
  = Ok (mkPerformance [] []).
Proof.
  apply (pipeline_on_empty_tickets no_format no_inference float_text
           timestamp_text None).
  reflexivity.
Defined.

Lemma enrich_tickets_without_reference_tables_witness :
  exists out : DataFrame,
    enrich_tickets float_text timestamp_text (Some tickets) None None None None
      (Some empty_frame) = Ok out /\
    nrows out = 2%nat.
Proof.
  destruct (enrich_tickets_without_reference_tables float_text timestamp_text
              tickets None None None None (Some empty_frame)
              eq_refl eq_refl eq_refl eq_refl eq_refl eq_refl)
    as (out & H & N & _).
  exists out. split; [exact H|exact N].
Defined.

Lemma enrich_tickets_keeps_every_ticket_witness :
  exists out : DataFrame,
    enrich_tickets float_text timestamp_text (Some tickets) None (Some channel)
      None None (Some locations) = Ok out /\
    (2 <= nrows out)%nat.
Proof.
  assert (T : forall out : DataFrame,
             enrich_tickets float_text timestamp_text (Some tickets) None
               (Some channel) None None (Some locations) = Ok out ->
             (2 <= nrows out)%nat).
  { intros out H.
    destruct (enrich_tickets_keeps_every_ticket float_text timestamp_text tickets
                out None (Some channel) None None (Some locations) eq_refl)
      as [N _].
    - repeat constructor.
    - exact H.
    - exact N. }
  eexists. split; [reflexivity|]. now apply T.
Defined.

Lemma enrich_tickets_keeps_ticket_fields_witness :
  exists out : DataFrame,
    enrich_tickets float_text timestamp_text (Some tickets) None None
      (Some service_type) None (Some locations) = Ok out /\
    has_column out "description" = true.
Proof.
  assert (T : forall out : DataFrame,
             enrich_tickets float_text timestamp_text (Some tickets) None None
               (Some service_type) None (Some locations) = Ok out ->
             has_column out "description" = true).
  { intros out H.
    destruct (enrich_tickets_keeps_ticket_fields float_text timestamp_text tickets
                out None None (Some service_type) None (Some locations) eq_refl)
      as [K _].
    - repeat constructor.
    - reflexivity.
    - reflexivity.
    - exact H.
    - apply K; reflexivity. }
  eexists. split; [reflexivity|]. now apply T.
Defined.

Lemma enrich_tickets_needs_join_keys_witness :
  enrich_tickets float_text timestamp_text (Some faulty_tickets) None
    (Some channel) None None None = Raise KeyError.
Proof.
  destruct (enrich_tickets_needs_join_keys float_text timestamp_text faulty_tickets
              None (Some channel) None None None eq_refl eq_refl) as [K _].
  apply K; reflexivity.
Defined.

Lemma enrich_tickets_string_defaults_raise_witness :
  enrich_tickets float_text timestamp_text (Some tickets)
    (Some nameless_employees) None None None None = Raise AttributeError.
Proof.
  destruct (enrich_tickets_string_defaults_raise float_text timestamp_text tickets
              (Some nameless_employees) None None None None eq_refl) as [K _].
  apply (K nameless_employees); reflexivity.
Defined.

Lemma enrich_tickets_without_fan_out_witness :
  exists out : DataFrame,
    enrich_tickets float_text timestamp_text (Some tickets) None None None None
      (Some one_location) = Ok out /\
    nrows out = 2%nat.
Proof.
  assert (T : forall out : DataFrame,
             enrich_tickets float_text timestamp_text (Some tickets) None None
               None None (Some one_location) = Ok out ->
             nrows out = 2%nat).
  { intros out H.
    apply (enrich_tickets_without_fan_out float_text timestamp_text tickets out
             None None None None (Some one_location) eq_refl).
    - repeat constructor.
    - intros e names E. discriminate.
    - intros t keys E. discriminate.
    - intros t keys E. discriminate.
    - intros t keys E. discriminate.
    - intros t keys E G. inversion E; subst t. simpl in G. inversion G; subst keys.
      intros k. unfold matches. simpl.
      destruct (cell_eqb k (Str "LA")); simpl; lia.
    - exact H. }
  eexists. split; [reflexivity|]. now apply T.
Defined.

Lemma enrich_tickets_location_join_witness :
  exists (out : DataFrame) (j1 j2 : nat),
    enrich_tickets float_text timestamp_text (Some tickets) None None None None
      (Some locations) = Ok out /\
    j1 <> j2 /\
    cell_at out j1 "report_id" = Str "A-1-WLESS" /\
    cell_at out j2 "report_id" = Str "A-1-WLESS".
Proof.
  assert (T : forall out : DataFrame,
             enrich_tickets float_text timestamp_text (Some tickets) None None
               None None (Some locations) = Ok out ->
             exists j1 j2 : nat,
               j1 <> j2 /\
               cell_at out j1 "report_id" = Str "A-1-WLESS" /\
               cell_at out j2 "report_id" = Str "A-1-WLESS").
  { intros out H.
    destruct (enrich_tickets_location_join float_text timestamp_text tickets
                locations out None None None None
                [Str "LA"; Str "OG"] [Str "LA"; Str "LA"; Str "KN"] 0%nat
                eq_refl) as (_ & _ & F); try reflexivity.
    - repeat constructor.
    - exact H.
    - simpl. lia.
    - destruct (F 0%nat 1%nat) as (j1 & j2 & N & _ & _ & C);
        [lia|simpl; lia|reflexivity|reflexivity|].
      exists j1, j2. split; [exact N|].
      destruct (C "report_id" eq_refl) as [C1 C2]. split; assumption. }
  eexists. destruct (T _ eq_refl) as (j1 & j2 & E). exists j1, j2.
  split; [reflexivity|exact E].
Defined.

Lemma snake_case_idempotent_witness :
  snake_case (snake_case " Ticket Open Time ") = "ticket_open_time".
Proof.
  destruct (snake_case_idempotent " Ticket Open Time ") as (_ & _ & _ & E).
  exact E.
Defined.
